(** * dtools: the [Log] class, its file/stream lifecycle and its entry formatter

    The repository holds two implementations of the class [Log]:
    - [src/classes/Log.js], embedded below as module [Classes];
    - the file whose name is not known ([src/unnamed/part_000]), embedded
      below as module [Part000].

    Both are shallow embeddings: JavaScript objects used as option bags are
    finite maps from keys to dynamically typed values, [Object.assign] is a
    right-biased union, methods are computations in a state monad whose
    state is the instance together with the part of the host it touches
    (file system, working directory, array heap, emitted events), and a
    [throw] keeps the state reached so far. *)

From stdpp Require Import base strings gmap list pretty.
From Stdlib Require Import ZArith Ascii String Lia.

(** ** JavaScript values and the built-ins the class relies on *)
Module JS.

(** Arrays are objects with identity: a value holds their address. *)
Definition loc := nat.

(** Function values. [Log.defaultFormatter] and [Log.defaultLogger] are
    the two static methods used as defaults; [Closure] is any other. *)
Inductive fn :=
| DefaultFormatter
| DefaultLogger
| Closure (id : nat).

Inductive value :=
| VUndefined
| VNull
| VBool (b : bool)
| VNumber (n : Z)
| VString (s : string)
| VBoolean (b : bool)        (* the wrapper object [new Boolean(b)] *)
| VFunction (f : fn)
| VArray (l : loc).

(** Constructors appearing on the right of [instanceof]. *)
Inductive ctor := Boolean | Function.

(** [v instanceof target]: primitives are instances of nothing. *)
Definition instanceof (v : value) (target : ctor) : bool :=
  match v, target with
  | VBoolean _, Boolean => true
  | VFunction _, Function => true
  | _, _ => false
  end.

(** [typeof v]. *)
Definition typeof (v : value) : string :=
  match v with
  | VUndefined => "undefined"
  | VNull => "object"
  | VBool _ => "boolean"
  | VNumber _ => "number"
  | VString _ => "string"
  | VBoolean _ => "object"
  | VFunction _ => "function"
  | VArray _ => "object"
  end.

(** ToBoolean: every object is truthy, [new Boolean(false)] included. *)
Definition truthy (v : value) : bool :=
  match v with
  | VUndefined | VNull => false
  | VBool b => b
  | VNumber n => negb (n =? 0)%Z
  | VString s => negb (String.eqb s "")
  | VBoolean _ | VFunction _ | VArray _ => true
  end.

(** Plain objects used as records of options. *)
Abbreviation obj := (gmap string value).

(** [o.k]: a missing key reads as [undefined]. *)
Definition get (o : obj) (k : string) : value := default VUndefined (o !! k).

(** [k in o]. *)
Definition has (o : obj) (k : string) : bool := bool_decide (is_Some (o !! k)).

(** [Object.assign(target, ...sources)]: later sources win. *)
Definition assign (target : obj) (sources : list obj) : obj :=
  foldl (λ acc src, src ∪ acc) target sources.

(** [Object.assign(array, items)]: own index keys of [items] are written
    over [array]; an index past the end extends it. *)
Fixpoint assign_array (array items : list value) : list value :=
  match items, array with
  | [], _ => array
  | x :: items', [] => x :: assign_array [] items'
  | x :: items', _ :: array' => x :: assign_array array' items'
  end.

(** Thrown values. The classes throw plain [Error]s told apart by their
    message; [TypeError]s come from the language and [SystemError]s
    (with their code) from [node:fs]. *)
Inductive error :=
| Error (message : string)
| TypeError (message : string)
| SystemError (code : string).

(** *** Strings (sequences of 8-bit code units in this model) *)

(** [s] is made of ASCII characters (code units below 128). *)
Definition ascii_only (s : string) : bool :=
  forallb (λ c, (nat_of_ascii c <? 128)%nat) (list_ascii_of_string s).

(** [s.toUpperCase()] for an ASCII [s].  Outside ASCII the real
    function also maps characters this model does not have (U+0131,
    the dotless i, to I): what is proved through [toUpperCase] is
    stated for [ascii_only] strings. *)
Definition upper (c : ascii) : ascii :=
  let n := nat_of_ascii c in
  if ((97 <=? n) && (n <=? 122))%nat then ascii_of_nat (n - 32) else c.

Fixpoint toUpperCase (s : string) : string :=
  match s with
  | EmptyString => EmptyString
  | String c r => String (upper c) (toUpperCase r)
  end.

(** The filler of [padStart]/[padEnd]: [filler] repeated and cut to
    [n] code units; [cur] is what is left of the current repetition. *)
Fixpoint fill (n : nat) (cur filler : string) : string :=
  match n with
  | O => EmptyString
  | S n' =>
      match cur with
      | String c r => String c (fill n' r filler)
      | EmptyString =>
          match filler with
          | String c r => String c (fill n' r filler)
          | EmptyString => EmptyString
          end
      end
  end.

(** [s.padStart(maxLength, fillString)] and [s.padEnd(...)], for an
    integral [maxLength] (ToLength clamps a negative one to 0). *)
Definition padStart (s : string) (maxLength : Z) (fillString : string) : string :=
  let len := String.length s in
  if (Z.to_nat maxLength <=? len)%nat then s
  else if String.eqb fillString "" then s
  else fill (Z.to_nat maxLength - len) "" fillString +:+ s.

Definition padEnd (s : string) (maxLength : Z) (fillString : string) : string :=
  let len := String.length s in
  if (Z.to_nat maxLength <=? len)%nat then s
  else if String.eqb fillString "" then s
  else s +:+ fill (Z.to_nat maxLength - len) "" fillString.

(** [parts.join(sep)] on an array of strings. *)
Fixpoint join (sep : string) (parts : list string) : string :=
  match parts with
  | [] => ""
  | [x] => x
  | x :: rest => x +:+ sep +:+ join sep rest
  end.

(** The longest string of the engine (V8: [2^29 - 24] code units); a
    longer result is a [RangeError].  All time values of a valid date
    lie within 8.64e15 ms of the epoch; [Intl.DateTimeFormat]'s
    [format] throws a [RangeError] outside. *)
Definition max_string_length : Z := 2 ^ 29 - 24.

Definition fits (s : string) : bool :=
  (Z.of_nat (String.length s) <=? max_string_length)%Z.

Definition valid_time (t : Z) : bool := (Z.abs t <=? 8640000000000000)%Z.

(** The escape character U+001B. *)
Definition ESC : ascii := ascii_of_nat 27.

(** [c] occurs in [s]. *)
Fixpoint occurs (c : ascii) (s : string) : bool :=
  match s with
  | EmptyString => false
  | String d r => Ascii.eqb c d || occurs c r
  end.

(** [s.startsWith(p)]. *)
Fixpoint startsWith (p s : string) : bool :=
  match p, s with
  | EmptyString, _ => true
  | String a p', String b s' => Ascii.eqb a b && startsWith p' s'
  | String _ _, EmptyString => false
  end.

End JS.

(** ** Style codes of the entry formatter *)
Module Style.
Import JS.

(** One code: a number or a string ([number | string]). *)
Inductive atom :=
| Num (n : Z)
| Str (s : string).

(** One element of a style-code list: a code, or a sub-list of codes
    ([number | number[] | string | string[]]). *)
Inductive directive :=
| One (a : atom)
| Many (l : list atom).

(** What a template literal makes of a code.  Numbers are integral
    and below 10^21 in absolute value, where a number prints as its
    decimal digits. *)
Definition atom_text (a : atom) : string :=
  match a with
  | Num n => pretty n
  | Str s => s
  end.

(** [`\x1b[${Array.isArray(u) ? u.join(";") : u}m`] *)
Definition open_sequence (u : directive) : string :=
  String ESC "[" +:+
  match u with
  | Many l => join ";" (atom_text <$> l)
  | One a => atom_text a
  end +:+ "m".

(** ["\x1b[0m"] *)
Definition reset_sequence : string := String ESC "[0m".

(** [styles.map(u => ...).join("")] *)
Definition open_sequences (styles : list directive) : string :=
  join "" (open_sequence <$> styles).

End Style.

(** ** [src/classes/Log.js]: the entry formatter *)
Module ClassesFormatter.
Import JS Style.

(** The options object of [Log.defaultFormatter]; [None] is a key the
    caller left out. *)
Record options := {
  dateTime : option Z;
  dateTimeAlignment : option string;
  dateTimeFormatter : option (Z → string);
  dateTimeMinimumWidth : option Z;
  dateTimePadding : option string;
  dateTimeStyling : option (list directive);
  end_ : option string;
  message : option string;
  messageStyling : option (list directive);
  raw : option bool;
  separator : option string;
  separatorStyling : option (list directive);
  title : option string;
  titleAlignment : option string;
  titleMinimumWidth : option Z;
  titlePadding : option string;
  titleStyling : option (list directive)
}.

(** [{}] *)
Definition empty : options :=
  Build_options None None None None None None None None None
                None None None None None None None None.

(** [{ ...o, dateTimeStyling, titleStyling, messageStyling, separatorStyling }] *)
Definition with_styling (o : options)
    (dateTimeStyling titleStyling messageStyling separatorStyling : option (list directive))
    : options :=
  {| dateTime := dateTime o;
     dateTimeAlignment := dateTimeAlignment o;
     dateTimeFormatter := dateTimeFormatter o;
     dateTimeMinimumWidth := dateTimeMinimumWidth o;
     dateTimePadding := dateTimePadding o;
     dateTimeStyling := dateTimeStyling;
     end_ := end_ o;
     message := message o;
     messageStyling := messageStyling;
     raw := raw o;
     separator := separator o;
     separatorStyling := separatorStyling;
     title := title o;
     titleAlignment := titleAlignment o;
     titleMinimumWidth := titleMinimumWidth o;
     titlePadding := titlePadding o;
     titleStyling := titleStyling |}.

Section Formatter.
(** [Date.now()] at the call and the static
    [Log.defaultDateTimeFormatter]'s [format]. *)
Variable now : Z.
Variable defaultDateTimeFormatter : Z → string.

(** [Object.assign({ ...defaults }, Object(options))], field by field. *)
Definition parsed_dateTime o := default now (dateTime o).
Definition parsed_dateTimeAlignment o := default "LEFT" (dateTimeAlignment o).
Definition parsed_dateTimeFormatter o :=
  default defaultDateTimeFormatter (dateTimeFormatter o).
Definition parsed_dateTimeMinimumWidth o := default 25%Z (dateTimeMinimumWidth o).
Definition parsed_dateTimePadding o := default " " (dateTimePadding o).
Definition parsed_dateTimeStyling o :=
  default [One (Num 94); One (Num 1)] (dateTimeStyling o).
Definition parsed_end o := default (String (ascii_of_nat 10) "") (end_ o).
Definition parsed_message o := default "MESSAGE" (message o).
Definition parsed_messageStyling o := default [One (Num 92)] (messageStyling o).
Definition parsed_raw o := default true (raw o).
Definition parsed_separator o := default " | " (separator o).
Definition parsed_separatorStyling o :=
  default [One (Num 90); One (Num 1)] (separatorStyling o).
Definition parsed_title o := default "TITLE" (title o).
Definition parsed_titleAlignment o := default "LEFT" (titleAlignment o).
Definition parsed_titleMinimumWidth o := default 20%Z (titleMinimumWidth o).
Definition parsed_titlePadding o := default " " (titlePadding o).
Definition parsed_titleStyling o :=
  default [One (Num 93); One (Num 1)] (titleStyling o).

(** [text[alignment.toUpperCase() === "RIGHT" ? "padStart" : "padEnd"](width, padding)] *)
Definition pad (alignment text : string) (width : Z) (padding : string) : string :=
  if String.eqb (toUpperCase alignment) "RIGHT"
  then padStart text width padding
  else padEnd text width padding.

Definition parsedDateTime (o : options) : string :=
  pad (parsed_dateTimeAlignment o)
      (parsed_dateTimeFormatter o (parsed_dateTime o))
      (parsed_dateTimeMinimumWidth o) (parsed_dateTimePadding o).

Definition parsedTitle (o : options) : string :=
  pad (parsed_titleAlignment o) (parsed_title o)
      (parsed_titleMinimumWidth o) (parsed_titlePadding o).

(** [v => v.styles.map(...).join("") + v.text + "\x1b[0m"] *)
Definition styled (styles : list directive) (text : string) : string :=
  open_sequences styles +:+ text +:+ reset_sequence.

Definition styledDateTime o := styled (parsed_dateTimeStyling o) (parsedDateTime o).
Definition styledTitle o := styled (parsed_titleStyling o) (parsedTitle o).
Definition styledMessage o := styled (parsed_messageStyling o) (parsed_message o).
Definition styledSeparator o := styled (parsed_separatorStyling o) (parsed_separator o).

Definition defaultFormatter (o : options) : string :=
  if parsed_raw o
  then join (parsed_separator o)
            [parsedDateTime o; parsedTitle o; parsed_message o] +:+ parsed_end o
  else join (styledSeparator o)
            [styledDateTime o; styledTitle o; styledMessage o] +:+ parsed_end o.

End Formatter.
End ClassesFormatter.

(** ** [src/unnamed/part_000]: the entry formatter *)
Module Part000Formatter.
Import JS Style.

(** A styling is a single code or a style-code list
    ([number | string | (number | number[] | string | string[])[]]). *)
Inductive styling :=
| Scalar (a : atom)
| Array (l : list directive).

Record options := {
  dateTime : option Z;
  dateTimeAlignment : option string;
  dateTimeFormatter : option (Z → string);
  dateTimeMinimumWidth : option Z;
  dateTimePadding : option string;
  dateTimeStyling : option styling;
  end_ : option string;
  message : option string;
  messageStyling : option styling;
  separator : option string;
  separatorStyling : option styling;
  title : option string;
  titleAlignment : option string;
  titleMinimumWidth : option Z;
  titlePadding : option string;
  titleStyling : option styling
}.

Definition empty : options :=
  Build_options None None None None None None None None
                None None None None None None None None.

Section Formatter.
Variable now : Z.
Variable defaultDateTimeFormatter : Z → string.

Definition override_dateTime o := default now (dateTime o).
Definition override_dateTimeAlignment o := default "LEFT" (dateTimeAlignment o).
Definition override_dateTimeFormatter o :=
  default defaultDateTimeFormatter (dateTimeFormatter o).
Definition override_dateTimeMinimumWidth o := default 25%Z (dateTimeMinimumWidth o).
Definition override_dateTimePadding o := default " " (dateTimePadding o).
Definition override_dateTimeStyling o :=
  default (Array [One (Num 1); One (Num 94)]) (dateTimeStyling o).
Definition override_end o := default (String (ascii_of_nat 10) "") (end_ o).
Definition override_message o := default "MESSAGE" (message o).
Definition override_messageStyling o := default (Scalar (Num 92)) (messageStyling o).
Definition override_separator o := default " | " (separator o).
Definition override_separatorStyling o :=
  default (Array [One (Num 1); One (Num 90)]) (separatorStyling o).
Definition override_title o := default "TITLE" (title o).
Definition override_titleAlignment o := default "LEFT" (titleAlignment o).
Definition override_titleMinimumWidth o := default 20%Z (titleMinimumWidth o).
Definition override_titlePadding o := default " " (titlePadding o).
Definition override_titleStyling o :=
  default (Array [One (Num 1); One (Num 93)]) (titleStyling o).

(** [text[alignment === "RIGHT" ? "padStart" : "padEnd"](width, padding)] *)
Definition pad (alignment text : string) (width : Z) (padding : string) : string :=
  if String.eqb alignment "RIGHT"
  then padStart text width padding
  else padEnd text width padding.

Definition dateTime_field (o : options) : string :=
  pad (override_dateTimeAlignment o)
      (override_dateTimeFormatter o (override_dateTime o))
      (override_dateTimeMinimumWidth o) (override_dateTimePadding o).

Definition title_field (o : options) : string :=
  pad (override_titleAlignment o) (override_title o)
      (override_titleMinimumWidth o) (override_titlePadding o).

(** The template literal mapped over the four fields: the opening
    part, the text, and the reset unless the styling is an empty
    array. *)
Definition styled (s : styling) (text : string) : string :=
  match s with
  | Array l => open_sequences l
  | Scalar a => open_sequence (One a)
  end +:+ text +:+
  match s with
  | Array [] => ""
  | _ => reset_sequence
  end.

Definition styledDateTime o := styled (override_dateTimeStyling o) (dateTime_field o).
Definition styledTitle o := styled (override_titleStyling o) (title_field o).
Definition styledMessage o := styled (override_messageStyling o) (override_message o).
Definition styledSeparator o := styled (override_separatorStyling o) (override_separator o).

(** [this_is_log] is [this instanceof Log] at the call. *)
Definition defaultFormatter (this_is_log : bool) (o : options) : string + error :=
  if negb this_is_log
  then inr (TypeError "Please bind this function to an instance of the log")
  else inl (join (styledSeparator o)
                 [styledDateTime o; styledTitle o; styledMessage o] +:+ override_end o).

End Formatter.
End Part000Formatter.


(** ** The host: [node:path], [node:fs] and [process.cwd()]

    Every file-system primitive is taken as applied by the time the call
    returns (the synchronous reading of the stream interface).  The fill
    mode of a stream opened by [fs.createWriteStream(path)] is the default
    ["w"]: the file is created or emptied when the stream opens. *)
Module Node.
Import JS.

Definition slash : ascii := "/"%char.

(** [path.split("/")] *)
Fixpoint segments (s : string) : list string :=
  match s with
  | EmptyString => [""]
  | String c r =>
      if Ascii.eqb c slash then "" :: segments r
      else match segments r with
           | [] => [String c ""]
           | x :: xs => String c x :: xs
           end
  end.

(** [normalizeString] of an absolute path: empty and ["."] segments are
    dropped, [".."] drops the segment before it (nothing at the root).
    [stack] holds the segments kept so far, last first. *)
Fixpoint normalize (stack segs : list string) : list string :=
  match segs with
  | [] => reverse stack
  | s :: rest =>
      if String.eqb s "" || String.eqb s "." then normalize stack rest
      else if String.eqb s ".." then normalize (tail stack) rest
      else normalize (s :: stack) rest
  end.

(** The right-to-left loop of [path.resolve]: arguments are prepended
    until one is absolute; the working directory comes last. *)
Fixpoint resolve_loop (cwd : string) (args : list string) (resolvedPath : string) : string :=
  match args with
  | [] => cwd +:+ "/" +:+ resolvedPath
  | p :: rest =>
      if String.eqb p "" then resolve_loop cwd rest resolvedPath
      else if startsWith "/" p then p +:+ "/" +:+ resolvedPath
      else resolve_loop cwd rest (p +:+ "/" +:+ resolvedPath)
  end.

(** [path.resolve(...paths)] (POSIX) with [process.cwd()] = [cwd], which
    is an absolute path. *)
Definition resolve (cwd : string) (paths : list string) : string :=
  "/" +:+ join "/" (normalize [] (segments (resolve_loop cwd (reverse paths) ""))).

(** [path.dirname(p)] (POSIX): trailing slashes are skipped, then the
    last segment, and what stands before the slash found is kept. *)
Fixpoint skip_slashes (l : list ascii) : list ascii :=
  match l with
  | c :: r => if Ascii.eqb c slash then skip_slashes r else l
  | [] => []
  end.

Fixpoint skip_segment (l : list ascii) : list ascii :=
  match l with
  | c :: r => if Ascii.eqb c slash then l else skip_segment r
  | [] => []
  end.

Definition dirname (p : string) : string :=
  match list_ascii_of_string p with
  | [] => "."
  | c0 :: rest =>
      let hasRoot := Ascii.eqb c0 slash in
      match skip_segment (skip_slashes (reverse rest)) with
      | [] => if hasRoot then "/" else "."
      | _ :: before =>
          match before with
          | [] => if hasRoot then "//" else String c0 ""
          | _ => string_of_list_ascii (c0 :: reverse before)
          end
      end
  end.

(** The proper ancestors of [p], nearest first. *)
Fixpoint ancestors (fuel : nat) (p : string) : list string :=
  match fuel with
  | O => []
  | S fuel' =>
      let d := dirname p in
      if String.eqb d p then [] else d :: ancestors fuel' d
  end.

(** Regular files with their content, directories, working directory. *)
Record host := {
  files : gmap string string;
  dirs : gset string;
  cwd : string
}.

Definition with_files (h : host) (f : gmap string string) : host :=
  {| files := f; dirs := dirs h; cwd := cwd h |}.

Definition with_dirs (h : host) (d : gset string) : host :=
  {| files := files h; dirs := d; cwd := cwd h |}.

(** [process.chdir(d)] *)
Definition chdir (h : host) (d : string) : host :=
  {| files := files h; dirs := dirs h; cwd := d |}.

Definition is_file (h : host) (p : string) : bool :=
  bool_decide (is_Some (files h !! p)).

Definition is_dir (h : host) (p : string) : bool :=
  bool_decide (p ∈ dirs h).

(** [fs.existsSync(p)] *)
Definition existsSync (h : host) (p : string) : bool :=
  is_file h p || is_dir h p.

(** [fs.readFileSync(p).toString()].  The bytes of the file are taken
    as its text: [toString] decodes them as UTF-8, which leaves ASCII
    content as it is. *)
Definition readFileSync (h : host) (p : string) : string + error :=
  match files h !! p with
  | Some c => inl c
  | None => inr (SystemError (if is_dir h p then "EISDIR" else "ENOENT"))
  end.

(** [fs.mkdirSync(p, { recursive })] *)
Definition mkdirSync (h : host) (p : string) (recursive : bool) : host + error :=
  if recursive then
    let chain := p :: ancestors (String.length p) p in
    if existsb (is_file h) chain
    then inr (SystemError (if is_file h p then "EEXIST" else "ENOTDIR"))
    else inl (with_dirs h (list_to_set chain ∪ dirs h))
  else if existsSync h p then inr (SystemError "EEXIST")
  else if is_dir h (dirname p) then inl (with_dirs h ({[ p ]} ∪ dirs h))
  else inr (SystemError (if is_file h (dirname p) then "ENOTDIR" else "ENOENT")).

(** Opening [p] with flag ["w"] or ["w+"]: an existing file is emptied,
    a missing one is created when its directory exists. *)
Definition open_w (h : host) (p : string) : host + error :=
  if is_file h p then inl (with_files h (<[ p := "" ]> (files h)))
  else if is_dir h p then inr (SystemError "EISDIR")
  else if is_dir h (dirname p) then inl (with_files h (<[ p := "" ]> (files h)))
  else inr (SystemError (if is_file h (dirname p) then "ENOTDIR" else "ENOENT")).

(** [fs.openSync(p, "w+")]; the descriptor it returns is dropped by
    both callers. *)
Definition openSync (h : host) (p : string) : host + error := open_w h p.

(** [fs.unlinkSync(p)] *)
Definition unlinkSync (h : host) (p : string) : host + error :=
  if is_file h p then inl (with_files h (delete p (files h)))
  else inr (SystemError (if is_dir h p then "EISDIR" else "ENOENT")).

(** A write stream: the path it is bound to and its [destroyed] flag. *)
Record WriteStream := {
  path : string;
  destroyed : bool
}.

(** [fs.createWriteStream(p)]: a failure to open is reported on the
    stream later, never thrown, and leaves the file system as it is.
    Node queues the opening and runs it when the event loop turns;
    [createWriteStream], [append] and [destroy] below give the host
    as it is once the loop has turned after each call.  What happens
    when several calls share one turn of the loop is in [Deferred]. *)
Definition createWriteStream (h : host) (p : string) : WriteStream * host :=
  ({| path := p; destroyed := false |},
   match open_w h p with
   | inl h' => h'
   | inr _ => h
   end).

(** [stream.destroy()] *)
Definition destroy (s : WriteStream) : WriteStream :=
  {| path := path s; destroyed := true |}.

(** What [stream.write(chunk)] does to the file: the chunk is appended
    to the file the stream is bound to; nothing is written through a
    destroyed stream or to a path that holds no file. *)
Definition append (h : host) (s : WriteStream) (chunk : string) : host :=
  if destroyed s then h
  else match files h !! path s with
       | Some c => with_files h (<[ path s := c +:+ chunk ]> (files h))
       | None => h
       end.

End Node.


(** ** Computations with state and exceptions

    A method is a function from the state before to an outcome and the
    state after.  A [throw] does not roll anything back: the state it
    returns is the one reached when the exception was raised. *)
Module Eff.
Import JS.

Inductive outcome (A : Type) :=
| Return (a : A)
| Throw (e : error).
Arguments Return {A} a.
Arguments Throw {A} e.

Definition M (S A : Type) : Type := S → outcome A * S.

Section Ops.
Context {S : Type}.

Definition pure {A} (a : A) : M S A := λ st, (Return a, st).

Definition bind {A B} (m : M S A) (k : A → M S B) : M S B := λ st,
  match m st with
  | (Return a, st') => k a st'
  | (Throw e, st') => (Throw e, st')
  end.

Definition throw {A} (e : error) : M S A := λ st, (Throw e, st).
Definition gets {A} (f : S → A) : M S A := λ st, (Return (f st), st).
Definition modify (f : S → S) : M S unit := λ st, (Return tt, f st).

Definition lift {A} (r : A + error) : M S A :=
  match r with
  | inl a => pure a
  | inr e => throw e
  end.
End Ops.

Declare Scope eff_scope.
Notation "x ← y ; z" := (bind y (λ x, z))
  (at level 20, y at level 100, z at level 200, only parsing) : eff_scope.
Notation "x ;; z" := (bind x (λ _, z))
  (at level 100, z at level 200, only parsing, right associativity) : eff_scope.

(** The outcome and the final state of a run. *)
Definition result {S A} (m : M S A) (st : S) : outcome A := fst (m st).
Definition final {S A} (m : M S A) (st : S) : S := snd (m st).

Definition throws {S A} (m : M S A) (st : S) (e : error) : Prop :=
  result m st = Throw e.
Definition returns {S A} (m : M S A) (st : S) (a : A) : Prop :=
  result m st = Return a.

(** [m] leaves the component [proj] of the state as it found it,
    whether it returns or throws. *)
Definition keeps {S A B} (proj : S → B) (m : M S A) : Prop :=
  ∀ st, proj (snd (m st)) = proj st.

End Eff.


(** ** [src/classes/Log.js]: the file and stream lifecycle *)
Module Classes.
Import JS Node Eff.
Local Open Scope eff_scope.

(** Arguments handed to listeners by [emit]. *)
Inductive payload :=
| PValue (v : value)
| PObject (o : obj)
| PStream (s : WriteStream).

Record event := {
  name : string;
  arguments : list payload
}.

(** A [Log] instance and the host it runs on.  [heap] holds the arrays
    reachable from option objects; [emitted] is the sequence of events
    emitted so far.  No listener is registered: an [emit] does not throw
    and calls nothing back. *)
Record state := {
  this_options : obj;
  this_stream : option WriteStream;
  heap : gmap loc (list value);
  world : host;
  emitted : list event
}.

(** What a method returns. *)
Inductive returned := This.

Abbreviation M := (Eff.M state).

Definition set_stream (s : option WriteStream) (st : state) : state :=
  {| this_options := this_options st; this_stream := s; heap := heap st;
     world := world st; emitted := emitted st |}.

Definition set_heap (hp : gmap loc (list value)) (st : state) : state :=
  {| this_options := this_options st; this_stream := this_stream st; heap := hp;
     world := world st; emitted := emitted st |}.

Definition set_world (h : host) (st : state) : state :=
  {| this_options := this_options st; this_stream := this_stream st; heap := heap st;
     world := h; emitted := emitted st |}.

Definition set_emitted (l : list event) (st : state) : state :=
  {| this_options := this_options st; this_stream := this_stream st; heap := heap st;
     world := world st; emitted := l |}.

(** [super.emit(name, ...arguments)] *)
Definition emit (name : string) (arguments : list payload) : M unit :=
  modify (λ st, set_emitted (emitted st ++ [Build_event name arguments]) st).

(** A file-system call that changes the host or throws. *)
Definition fs_update (f : host → host + error) : M unit :=
  h ← gets world;
  h' ← lift (f h);
  modify (set_world h').

(** [[]]: a new empty array. *)
Definition new_array : M loc :=
  hp ← gets heap;
  let l := fresh (dom hp) in
  modify (set_heap (<[ l := [] ]> hp));;
  pure l.

(** The elements of the array at [l]. *)
Definition elements (hp : gmap loc (list value)) (l : loc) : list value :=
  default [] (hp !! l).

(** [new Log(options)] on a host and a heap: the defaults, among them a
    new empty [formatterParameters] array, overridden by [options]. *)
Definition constructor (options : obj) (hp : gmap loc (list value)) (h : host) : state :=
  let l := fresh (dom hp) in
  let parsedOptions :=
    assign {[ "autoClose" := VBool false;
              "autoCreate" := VBool false;
              "autoOpen" := VBool false;
              "file" := VString "logs/latest.log";
              "formatter" := VFunction DefaultFormatter;
              "formatterParameters" := VArray l;
              "recursive" := VBool true;
              "truncate" := VBool false ]} [options] in
  {| this_options := parsedOptions; this_stream := None;
     heap := <[ l := [] ]> hp; world := h; emitted := [] |}.

(** [get file()]: [path.resolve(this.options.file)], against the
    working directory at the time of the read. *)
Definition file : M string :=
  o ← gets this_options;
  h ← gets world;
  match get o "file" with
  | VString f => pure (resolve (cwd h) [f])
  | _ => throw (TypeError "ERR_INVALID_ARG_TYPE")
  end.

(** [get exists()] *)
Definition exists_ : M bool :=
  f ← file;
  h ← gets world;
  pure (existsSync h f).

(** [get content()] *)
Definition content : M string :=
  f ← file;
  h ← gets world;
  lift (readFileSync h f).

(** The [recursive] option as [fs.mkdirSync] validates it. *)
Definition recursive_flag (v : value) : bool + error :=
  match v with
  | VBool b => inl b
  | VUndefined => inl false
  | _ => inr (TypeError "ERR_INVALID_ARG_TYPE")
  end.

(** [this.stream.write(chunk)]: a chunk that is not a string is
    refused with a [TypeError]. *)
Definition stream_write (chunk : value) : M unit :=
  s ← gets this_stream;
  match s with
  | None => throw (TypeError "Cannot read properties of null")
  | Some ws =>
      match chunk with
      | VString text => modify (λ st, set_world (append (world st) ws text) st)
      | VNull => throw (TypeError "ERR_STREAM_NULL_VALUES")
      | _ => throw (TypeError "ERR_INVALID_ARG_TYPE")
      end
  end.

Definition close : M returned :=
  s ← gets this_stream;
  match s with
  | None => throw (Error "Write stream is already closed")
  | Some ws =>
      emit "beforeClose" [PStream ws];;
      modify (set_stream (Some (destroy ws)));;
      emit "close" [PStream (destroy ws)];;
      modify (set_stream None);;
      pure This
  end.

Definition create (options : obj) : M returned :=
  o ← gets this_options;
  let parsedOptions := assign {[ "recursive" := VBool true ]} [o; options] in
  e ← exists_;
  if e then pure This else
  emit "beforeCreate" [];;
  f ← file;
  h ← gets world;
  (if negb (existsSync h (dirname f))
   then f' ← file;
        r ← lift (recursive_flag (get parsedOptions "recursive"));
        fs_update (λ h, mkdirSync h (dirname f') r)
   else pure tt);;
  f ← file;
  fs_update (λ h, openSync h f);;
  emit "create" [];;
  pure This.

Definition delete (options : obj) : M returned :=
  o ← gets this_options;
  let parsedOptions := assign {[ "autoClose" := VBool false ]} [o; options] in
  e ← exists_;
  if negb e then throw (Error "Log file does not exist") else
  s ← gets this_stream;
  (match s with
   | Some _ =>
       if truthy (get parsedOptions "autoClose") then close;; pure tt
       else throw (Error "Write stream is not closed")
   | None => pure tt
   end);;
  emit "beforeDelete" [PObject parsedOptions];;
  f ← file;
  fs_update (λ h, unlinkSync h f);;
  emit "delete" [PObject parsedOptions];;
  pure This.

Definition open (options : obj) : M returned :=
  o ← gets this_options;
  let parsedOptions :=
    assign {[ "autoCreate" := VBool false; "truncate" := VBool true ]} [o; options] in
  e ← exists_;
  (if negb e then
     if truthy (get parsedOptions "autoCreate") then create parsedOptions;; pure tt
     else throw (Error "Log file does not exist")
   else pure tt);;
  s ← gets this_stream;
  match s with
  | Some _ => pure This
  | None =>
      emit "beforeOpen" [PObject parsedOptions];;
      content ← (if truthy (get parsedOptions "truncate") then pure "" else content);
      f ← file;
      h ← gets world;
      let '(ws, h') := createWriteStream h f in
      modify (set_world h');;
      modify (set_stream (Some ws));;
      stream_write (VString content);;
      emit "open" [PObject parsedOptions];;
      pure This
  end.

(** [Object.assign(target, formatterParameters)] for the value found
    under [parsedOptions.formatterParameters]. *)
Definition assign_parameters (target : value) (formatterParameters : list value) : M unit :=
  match target with
  | VUndefined | VNull =>
      throw (TypeError "Cannot convert undefined or null to object")
  | VArray l =>
      modify (λ st, set_heap (<[ l := assign_array (elements (heap st) l) formatterParameters ]>
                                (heap st)) st)
  | VString s =>
      match s, formatterParameters with
      | String _ _, _ :: _ => throw (TypeError "Cannot assign to read only property")
      | _, _ => pure tt
      end
  | VBool _ | VNumber _ | VBoolean _ | VFunction _ => pure tt
  end.

(** [...v]: the elements of an array, the characters of a string. *)
Definition spread (v : value) : M (list value) :=
  match v with
  | VArray l => hp ← gets heap; pure (elements hp l)
  | VString s => pure ((λ c, VString (String c "")) <$> list_ascii_of_string s)
  | _ => throw (TypeError "Spread syntax requires an iterable")
  end.

Section Write.
(** What calling a function value on arguments returns. *)
Variable call : fn → list value → value.

Definition write (options : obj) (formatterParameters : list value) : M returned :=
  o ← gets this_options;
  l ← new_array;
  let parsedOptions :=
    assign {[ "autoCreate" := VBool false;
              "autoOpen" := VBool false;
              "formatter" := VFunction DefaultFormatter;
              "formatterParameter" := VArray l;
              "recursive" := VBool true;
              "truncate" := VBool true ]} [o; options] in
  assign_parameters (get parsedOptions "formatterParameters") formatterParameters;;
  e ← exists_;
  (if negb e then
     o ← gets this_options;
     if truthy (get o "autoCreate") then create parsedOptions;; pure tt
     else throw (Error "Log file does not exist")
   else pure tt);;
  s ← gets this_stream;
  (match s with
   | None =>
       o ← gets this_options;
       if truthy (get o "autoOpen") then open parsedOptions;; pure tt
       else throw (Error "Write stream is is not opened")
   | Some _ => pure tt
   end);;
  emit "beforeWrite" [PObject parsedOptions];;
  args ← spread (get parsedOptions "formatterParameters");
  entry ← match get parsedOptions "formatter" with
          | VFunction f => pure (call f args)
          | _ => throw (TypeError "parsedOptions.formatter is not a function")
          end;
  stream_write entry;;
  emit "write" [PValue entry; PObject parsedOptions];;
  pure This.

(** [write] in three parts, for the statements below: the state once
    the default array is allocated and the rest parameters are copied
    over the array at [l]; the two precondition checks; what follows
    them. *)
Definition after_assign (st : state) (l : loc) (ps : list value) : state :=
  let hp := <[ fresh (dom (heap st)) := [] ]> (heap st) in
  set_heap (<[ l := assign_array (elements hp l) ps ]> hp) st.

Definition write_checks (parsedOptions : obj) : M unit :=
  e ← exists_;
  (if negb e then
     o ← gets this_options;
     if truthy (get o "autoCreate") then create parsedOptions;; pure tt
     else throw (Error "Log file does not exist")
   else pure tt);;
  s ← gets this_stream;
  match s with
  | None =>
      o ← gets this_options;
      if truthy (get o "autoOpen") then open parsedOptions;; pure tt
      else throw (Error "Write stream is is not opened")
  | Some _ => pure tt
  end.

Definition write_tail (parsedOptions : obj) : M returned :=
  emit "beforeWrite" [PObject parsedOptions];;
  args ← spread (get parsedOptions "formatterParameters");
  entry ← match get parsedOptions "formatter" with
          | VFunction f => pure (call f args)
          | _ => throw (TypeError "parsedOptions.formatter is not a function")
          end;
  stream_write entry;;
  emit "write" [PValue entry; PObject parsedOptions];;
  pure This.

End Write.
(** The [parsedOptions] of [delete], [open] and [write]: the method's
    defaults, overridden by the instance's options, overridden by the
    caller's. *)
Definition delete_parsedOptions (st : state) (options : obj) : obj :=
  assign {[ "autoClose" := VBool false ]} [this_options st; options].

Definition open_parsedOptions (st : state) (options : obj) : obj :=
  assign {[ "autoCreate" := VBool false; "truncate" := VBool true ]}
         [this_options st; options].

Definition write_parsedOptions (st : state) (options : obj) : obj :=
  assign {[ "autoCreate" := VBool false;
            "autoOpen" := VBool false;
            "formatter" := VFunction DefaultFormatter;
            "formatterParameter" := VArray (fresh (dom (heap st)));
            "recursive" := VBool true;
            "truncate" := VBool true ]} [this_options st; options].

End Classes.


(** ** [src/unnamed/part_000]: the file and stream lifecycle

    The static [defaultLogger] and the [format]/[log] accessors are
    embedded in [Part000Logger] further down.  The
    listeners this class registers on its stream (["close"], ["ready"])
    run on a later turn of the event loop, after the method has returned;
    the methods below are the synchronous part. *)
Module Part000.
Import JS Node Eff.
Local Open Scope eff_scope.

(** The private fields of an instance, and the host.  A field not yet
    assigned holds [undefined] ([#options]: no key).  [emitted] lists
    the names of the events emitted so far, none of which carries an
    argument in the synchronous part; no listener is registered. *)
Record state := {
  file_ : value;                    (* #file *)
  formatter : value;                (* #formatter *)
  logger : value;                   (* #logger *)
  options_ : obj;                   (* #options *)
  stream_ : option WriteStream;     (* #stream *)
  world : host;
  emitted : list string
}.

Abbreviation M := (Eff.M state).

(** What a method returns: [this], or nothing. *)
Inductive returned := This | Undefined.

(** An argument that may be a plain object or any other value. *)
Inductive any :=
| Obj (o : obj)
| Val (v : value).

Definition set_file_ (f : value) (st : state) : state :=
  {| file_ := f; formatter := formatter st; logger := logger st;
     options_ := options_ st; stream_ := stream_ st; world := world st;
     emitted := emitted st |}.

(** The three assignments that end the options setter. *)
Definition set_options_ (o : obj) (st : state) : state :=
  {| file_ := file_ st; formatter := get o "formatter";
     logger := get o "logger";
     options_ := o; stream_ := stream_ st; world := world st;
     emitted := emitted st |}.

Definition set_stream_ (s : option WriteStream) (st : state) : state :=
  {| file_ := file_ st; formatter := formatter st; logger := logger st;
     options_ := options_ st; stream_ := s; world := world st;
     emitted := emitted st |}.

Definition set_world (h : host) (st : state) : state :=
  {| file_ := file_ st; formatter := formatter st; logger := logger st;
     options_ := options_ st; stream_ := stream_ st; world := h;
     emitted := emitted st |}.

Definition set_emitted (l : list string) (st : state) : state :=
  {| file_ := file_ st; formatter := formatter st; logger := logger st;
     options_ := options_ st; stream_ := stream_ st; world := world st;
     emitted := l |}.

Definition emit (name : string) : M unit :=
  modify (λ st, set_emitted (emitted st ++ [name]) st).

Definition fs_update (f : host → host + error) : M unit :=
  h ← gets world;
  h' ← lift (f h);
  modify (set_world h').

(** [get file()] *)
Definition file : M value := gets file_.

(** [set file(file)]: [path.resolve(process.cwd(), file)] *)
Definition set_file (file : value) : M unit :=
  h ← gets world;
  match file with
  | VString f => modify (set_file_ (VString (resolve (cwd h) [cwd h; f])))
  | _ => throw (TypeError "ERR_INVALID_ARG_TYPE")
  end.

(** The table [defaultOptions] of the options setter. *)
Definition defaultOptions : list (string * ctor * value) :=
  [ ("automaticClose", Boolean, VBool true);
    ("automaticCreate", Boolean, VBool true);
    ("automaticOpen", Boolean, VBool true);
    ("formatter", Function, VFunction DefaultFormatter);
    ("logger", Function, VFunction DefaultLogger);
    ("recursive", Boolean, VBool true) ].

(** The loop of the options setter over [defaultOptions]. *)
Definition parse_options (options : obj) : obj :=
  foldl (λ parsedOptions '(key, target, value),
           <[ key := if has options key && instanceof (get options key) target
                     then get options key else value ]> parsedOptions)
        ∅ defaultOptions.

(** [set options(options)].  A value that passes the guard without
    being a plain object (a wrapper object, an array) has none of the
    keys the loop looks for. *)
Definition set_options (options : any) : M unit :=
  match options with
  | Obj o => modify (set_options_ (parse_options o))
  | Val v =>
      if negb (truthy v) || negb (String.eqb (typeof v) "object")
      then throw (TypeError "Invalid options")
      else modify (set_options_ (parse_options ∅))
  end.

(** [get options()]: a copy of the private record. *)
Definition options : M obj :=
  o ← gets options_;
  pure (assign ∅ [o]).

(** The object before the constructor's assignments. *)
Definition blank (h : host) : state :=
  {| file_ := VUndefined; formatter := VUndefined; logger := VUndefined;
     options_ := ∅; stream_ := None; world := h; emitted := [] |}.

(** [new Log(file, options)] on a host. *)
Definition constructor (file : value) (options : any) (h : host) : outcome unit * state :=
  (set_file file;; set_options options) (blank h).

(** [get stream()] and [get online()] *)
Definition stream : M (option WriteStream) := gets stream_.

Definition online : M bool :=
  s ← stream;
  pure (match s with
        | Some ws => negb (destroyed ws)
        | None => false
        end).

(** A path argument of [node:fs] and [node:path] must be a string. *)
Definition as_path (v : value) : M string :=
  match v with
  | VString p => pure p
  | _ => throw (TypeError "ERR_INVALID_ARG_TYPE")
  end.

(** [get exists()]: [fs.existsSync] answers [false] for what is not a
    path. *)
Definition exists_ : M bool :=
  f ← file;
  h ← gets world;
  pure (match f with
        | VString p => existsSync h p
        | _ => false
        end).

Definition content : M string :=
  f ← file;
  p ← as_path f;
  h ← gets world;
  lift (readFileSync h p).

Definition recursive_flag (v : value) : bool + error :=
  match v with
  | VBool b => inl b
  | VUndefined => inl false
  | _ => inr (TypeError "ERR_INVALID_ARG_TYPE")
  end.

Definition create (options : obj) : M returned :=
  o ← Part000.options;
  let override := assign o [options] in
  e ← exists_;
  if e then pure This else
  file ← file;
  file ← as_path file;
  let directory := dirname file in
  h ← gets world;
  (if negb (existsSync h directory)
   then r ← lift (recursive_flag (get override "recursive"));
        fs_update (λ h, mkdirSync h directory r)
   else pure tt);;
  fs_update (λ h, openSync h file);;
  emit "create";;
  pure This.

Definition close (options : obj) : M returned :=
  o ← Part000.options;
  let override := assign o [options] in
  (if truthy (get override "automaticCreate") then create override;; pure tt
   else pure tt);;
  on ← online;
  if negb on then pure This else
  emit "beforeClose";;
  s ← stream;
  modify (set_stream_ (destroy <$> s));;
  pure Undefined.

Definition delete (options : obj) : M returned :=
  o ← Part000.options;
  let override := assign o [options] in
  e ← exists_;
  if negb e then pure This else
  on ← online;
  (if on then
     if truthy (get override "automaticClose") then close override;; pure tt
     else throw (Error "Cannot delete the log while the write stream is online")
   else pure tt);;
  f ← file;
  f ← as_path f;
  fs_update (λ h, unlinkSync h f);;
  emit "delete";;
  pure This.

Definition open (options : obj) : M returned :=
  o ← Part000.options;
  let override := assign o [options] in
  e ← exists_;
  (if negb e then
     if truthy (get options "automaticCreate") then create override;; pure tt
     else throw (Error "Cannot open the write stream if the log file does not exist")
   else pure tt);;
  on ← online;
  if on then pure This else
  emit "beforeOpen";;
  f ← file;
  f ← as_path f;
  h ← gets world;
  let '(ws, h') := createWriteStream h f in
  modify (set_world h');;
  modify (set_stream_ (Some ws));;
  pure This.

(** The [override] of a method: the instance's options, overridden by
    the caller's. *)
Definition override_of (st : state) (options : obj) : obj :=
  assign (assign ∅ [options_ st]) [options].

End Part000.


(** ** [src/classes/Log.js]: [open] and [close] with the timing of the
    write stream

    [fs.createWriteStream] returns at once.  The file is opened, and
    with the flag ["w"] emptied or created, when the event loop turns;
    what is written to the stream before that waits in the stream.
    [destroy] discards what still waits in the stream, but neither the
    opening that is queued nor a chunk already handed to the file
    system.  [requests] is what has been asked of the file system
    through streams and has not reached it yet, in the order in which it
    will. *)
Module Deferred.
Import JS Node Eff.
Local Open Scope eff_scope.

Inductive request :=
| Opening (p : string)                          (* [open(p, "w")] *)
| Writing (issued : bool) (p chunk : string).   (* a chunk, handed over or waiting *)

Record state := {
  this : Classes.state;
  requests : list request
}.

Abbreviation M := (Eff.M state).

(** A member of the instance that does not go through a stream. *)
Definition on_this {A} (m : Classes.M A) : M A := λ st,
  let '(r, l) := m (this st) in
  (r, {| this := l; requests := requests st |}).

Definition set_requests (rs : list request) (st : state) : state :=
  {| this := this st; requests := rs |}.

Definition queue (r : request) : M unit :=
  modify (λ st, set_requests (requests st ++ [r]) st).

(** [fs.createWriteStream(p)] *)
Definition createWriteStream (p : string) : M WriteStream :=
  queue (Opening p);;
  pure {| path := p; destroyed := false |}.

(** Nothing is queued: the stream of the instance, if any, is open
    and is not writing.  (The class has one stream at a time, and
    makes a new one only after it has destroyed the former.) *)
Definition idle (rs : list request) : bool :=
  match rs with
  | [] => true
  | _ :: _ => false
  end.

(** [this.stream.write(chunk)]: handed to the file system when the
    stream is open and not writing, kept in the stream otherwise;
    nothing is written through a destroyed stream. *)
Definition stream_write (chunk : value) : M unit :=
  s ← on_this (gets Classes.this_stream);
  match s with
  | None => throw (TypeError "Cannot read properties of null")
  | Some ws =>
      match chunk with
      | VString text =>
          if destroyed ws then pure tt
          else rs ← gets requests;
               queue (Writing (idle rs) (path ws) text)
      | VNull => throw (TypeError "ERR_STREAM_NULL_VALUES")
      | _ => throw (TypeError "ERR_INVALID_ARG_TYPE")
      end
  end.

(** [this.stream.destroy()] *)
Definition kept (r : request) : bool :=
  match r with
  | Writing false _ _ => false
  | _ => true
  end.

Definition stream_destroy : M unit :=
  on_this (modify (λ l, Classes.set_stream (destroy <$> Classes.this_stream l) l));;
  modify (λ st, set_requests (List.filter kept (requests st)) st).

(** One request reaching the file system. *)
Definition serve (h : host) (r : request) : host + error :=
  match r with
  | Opening p => open_w h p
  | Writing _ p chunk =>
      inl (match files h !! p with
           | Some c => with_files h (<[ p := c +:+ chunk ]> (files h))
           | None => h
           end)
  end.

Fixpoint serve_all (rs : list request) (h : host) : host + error :=
  match rs with
  | [] => inl h
  | r :: rs' =>
      match serve h r with
      | inl h' => serve_all rs' h'
      | inr e => inr e
      end
  end.

(** The event loop turns after the caller's synchronous code: the
    requests reach the file system.  An opening that fails is an
    ["error"] event on a stream that has no listener for it: it is
    thrown. *)
Definition turn : M unit :=
  rs ← gets requests;
  h ← on_this (gets Classes.world);
  h' ← lift (serve_all rs h);
  on_this (modify (Classes.set_world h'));;
  modify (set_requests []).

(** [close()], lines 73-85 *)
Definition close : M Classes.returned :=
  s ← on_this (gets Classes.this_stream);
  match s with
  | None => throw (Error "Write stream is already closed")
  | Some ws =>
      on_this (Classes.emit "beforeClose" [Classes.PStream ws]);;
      stream_destroy;;
      on_this (Classes.emit "close" [Classes.PStream (destroy ws)]);;
      on_this (modify (Classes.set_stream None));;
      pure Classes.This
  end.

(** [open(options)], lines 225-241 *)
Definition open (options : obj) : M Classes.returned :=
  o ← on_this (gets Classes.this_options);
  let parsedOptions :=
    assign {[ "autoCreate" := VBool false; "truncate" := VBool true ]} [o; options] in
  e ← on_this Classes.exists_;
  (if negb e then
     if truthy (get parsedOptions "autoCreate")
     then on_this (Classes.create parsedOptions);; pure tt
     else throw (Error "Log file does not exist")
   else pure tt);;
  s ← on_this (gets Classes.this_stream);
  match s with
  | Some _ => pure Classes.This
  | None =>
      on_this (Classes.emit "beforeOpen" [Classes.PObject parsedOptions]);;
      content ← (if truthy (get parsedOptions "truncate") then pure ""
                 else on_this Classes.content);
      f ← on_this Classes.file;
      ws ← createWriteStream f;
      on_this (modify (Classes.set_stream (Some ws)));;
      stream_write (VString content);;
      on_this (Classes.emit "open" [Classes.PObject parsedOptions]);;
      pure Classes.This
  end.

End Deferred.


(** ** The padding rule and the shape of paths in the words of the
    specification

    These definitions follow the text of the specification, not the code:
    the code is compared with them below. *)
Module Spec.

Definition lower (c : ascii) : ascii :=
  let n := nat_of_ascii c in
  if ((65 <=? n) && (n <=? 90))%nat then ascii_of_nat (n + 32) else c.

Fixpoint toLowerCase (s : string) : string :=
  match s with
  | EmptyString => EmptyString
  | String c r => String (lower c) (toLowerCase r)
  end.

(** Case-insensitive comparison (of ASCII letters). *)
Definition equal_ignoring_case (a b : string) : bool :=
  String.eqb (toLowerCase a) (toLowerCase b).

(** [n] characters of padding: character [i] is character
    [i mod |pad|] of [pad]; for a one-character [pad], that character
    [n] times. *)
Definition padding (n : nat) (pad : string) : string :=
  let p := list_ascii_of_string pad in
  string_of_list_ascii
    ((λ i, nth (i mod List.length p) p Ascii.zero) <$> seq 0 n).

(** A field padded to a minimum width: the padding goes before the
    text when the field is right-aligned, after it otherwise; a text
    already wide enough, or an empty pad, leaves the text as it is. *)
Definition padded (right_aligned : bool) (text : string) (width : Z) (pad : string) : string :=
  let missing := (Z.to_nat width - String.length text)%nat in
  if String.eqb pad "" then text
  else if right_aligned then padding missing pad +:+ text
  else text +:+ padding missing pad.

(** An absolute, normalized location: a slash, then segments separated
    by single slashes, none of them empty, ["."] or [".."]. *)
Definition proper_segment (s : string) : Prop :=
  s ≠ "" ∧ s ≠ "." ∧ s ≠ ".." ∧ JS.occurs Node.slash s = false.

Definition absolute_normalized (p : string) : Prop :=
  ∃ segs : list string,
    p = "/" +:+ JS.join "/" segs ∧ Forall proper_segment segs.

End Spec.


(** ** Concrete hosts and instances used to exercise the statements *)
Module Scenario.
Import JS Node Eff.

(** A host on which the default log file exists and holds one line, and
    a host on which neither the file nor its directory exists. *)
Definition disk : host :=
  {| files := {[ "/srv/logs/latest.log" := "started" ]};
     dirs := {[ "/"; "/srv"; "/srv/logs" ]};
     cwd := "/srv" |}.

Definition bare : host :=
  {| files := ∅; dirs := {[ "/"; "/srv" ]}; cwd := "/srv" |}.

(** [new Log(options)] of [src/classes/Log.js]. *)
Definition classes_log (options : obj) (h : host) : Classes.state :=
  Classes.constructor options ∅ h.

(** The same instance once its stream is open. *)
Definition classes_log_open (options : obj) (h : host) : Classes.state :=
  Classes.set_stream (Some {| path := "/srv/logs/latest.log"; destroyed := false |})
                     (classes_log options h).

(** [new Log("logs/latest.log", options)] of [src/unnamed/part_000]. *)
Definition part000_log (options : obj) (h : host) : Part000.state :=
  snd (Part000.constructor (VString "logs/latest.log") (Part000.Obj options) h).

Definition part000_log_open (options : obj) (h : host) : Part000.state :=
  Part000.set_stream_ (Some {| path := "/srv/logs/latest.log"; destroyed := false |})
                      (part000_log options h).

(** A formatter that prints the arguments it is called with. *)
Definition describe (v : value) : string :=
  match v with
  | VNumber n => pretty n
  | VString s => s
  | VBool true | VBoolean true => "true"
  | VBool false | VBoolean false => "false"
  | VUndefined => "undefined"
  | VNull => "null"
  | VFunction _ => "function"
  | VArray _ => "array"
  end.

Definition echo (f : fn) (args : list value) : value :=
  VString (join "," (describe <$> args)).

End Scenario.


(** ** [src/unnamed/part_000]: construction with its default parameter,
    the [format] and [log] accessors, and the default logger *)
Module Part000Logger.
Import JS Node Eff.
Local Open Scope eff_scope.

(** [constructor(file, options = {})]: an argument that is omitted or
    [undefined] is replaced by [{}] before the body runs. *)
Definition defaulted (options : Part000.any) : Part000.any :=
  match options with
  | Part000.Val VUndefined => Part000.Obj ∅
  | _ => options
  end.

Definition new_Log (file : value) (options : Part000.any) (h : host)
    : outcome unit * Part000.state :=
  Part000.constructor file (defaulted options) h.

(** The instance together with the terminal: [stdout] is what
    [process.stdout] has been given so far. *)
Record state := {
  this : Part000.state;
  stdout : string
}.

Abbreviation M := (Eff.M state).

(** A method of the instance, run on the instance inside [state]. *)
Definition on_this {A} (m : Part000.M A) : M A := λ st,
  let '(r, l) := m (this st) in
  (r, {| this := l; stdout := stdout st |}).

(** [{ ...o, dateTimeStyling, messageStyling, separatorStyling, titleStyling }] *)
Definition with_styling (o : Part000Formatter.options)
    (styling : Part000Formatter.styling) : Part000Formatter.options :=
  {| Part000Formatter.dateTime := Part000Formatter.dateTime o;
     Part000Formatter.dateTimeAlignment := Part000Formatter.dateTimeAlignment o;
     Part000Formatter.dateTimeFormatter := Part000Formatter.dateTimeFormatter o;
     Part000Formatter.dateTimeMinimumWidth := Part000Formatter.dateTimeMinimumWidth o;
     Part000Formatter.dateTimePadding := Part000Formatter.dateTimePadding o;
     Part000Formatter.dateTimeStyling := Some styling;
     Part000Formatter.end_ := Part000Formatter.end_ o;
     Part000Formatter.message := Part000Formatter.message o;
     Part000Formatter.messageStyling := Some styling;
     Part000Formatter.separator := Part000Formatter.separator o;
     Part000Formatter.separatorStyling := Some styling;
     Part000Formatter.title := Part000Formatter.title o;
     Part000Formatter.titleAlignment := Part000Formatter.titleAlignment o;
     Part000Formatter.titleMinimumWidth := Part000Formatter.titleMinimumWidth o;
     Part000Formatter.titlePadding := Part000Formatter.titlePadding o;
     Part000Formatter.titleStyling := Some styling |}.

(** [process.stdout.write(chunk)] and [this.stream.write(chunk)]: a
    chunk that is not a string is refused with a [TypeError]. *)
Definition stdout_write (chunk : value) : M unit :=
  match chunk with
  | VString text =>
      modify (λ st, {| this := this st; stdout := stdout st +:+ text |})
  | _ => throw (TypeError "ERR_INVALID_ARG_TYPE")
  end.

(** [this.stream.write]: the stream is looked up before the argument
    is evaluated. *)
Definition stream_writer : M WriteStream :=
  s ← on_this Part000.stream;
  match s with
  | None => throw (TypeError "Cannot read properties of undefined")
  | Some ws => pure ws
  end.

Definition stream_write (ws : WriteStream) (chunk : value) : M unit :=
  match chunk with
  | VString text =>
      on_this (modify (λ l, Part000.set_world (append (Part000.world l) ws text) l))
  | VNull => throw (TypeError "ERR_STREAM_NULL_VALUES")
  | _ => throw (TypeError "ERR_INVALID_ARG_TYPE")
  end.

Section Logger.
(** [Date.now()] and the static date formatter, as for the formatter;
    what the function values other than the two defaults return when
    applied to a formatter options object (they are taken to do
    nothing else); and [f.bind(this)]. *)
Variable now : Z.
Variable defaultDateTimeFormatter : Z → string.
Variable call : fn → Part000Formatter.options → value.
Variable bind_this : fn → fn.

(** [get format()] and [get log()] *)
Definition format : M value := on_this (gets Part000.formatter).
Definition log : M value := on_this (gets Part000.logger).

Definition set_bound (formatter logger : value) (bound : value)
    (l : Part000.state) : Part000.state :=
  {| Part000.file_ := Part000.file_ l;
     Part000.formatter := formatter;
     Part000.logger := logger;
     Part000.options_ := <[ "formatter" := bound ]> (Part000.options_ l);
     Part000.stream_ := Part000.stream_ l;
     Part000.world := Part000.world l;
     Part000.emitted := Part000.emitted l |}.

(** [set format(formatter)] *)
Definition set_format (formatter : value) : M unit :=
  match formatter with
  | VFunction f =>
      on_this (modify (λ l, set_bound (VFunction (bind_this f)) (Part000.logger l)
                              (VFunction (bind_this f)) l))
  | _ => throw (TypeError "Formatter must be a type of function")
  end.

(** [set log(logger)]: the bound logger is stored in [#logger] and
    under the key [formatter] of [#options]. *)
Definition set_log (logger : value) : M unit :=
  match logger with
  | VFunction f =>
      on_this (modify (λ l, set_bound (Part000.formatter l) (VFunction (bind_this f))
                              (VFunction (bind_this f)) l))
  | _ => throw (TypeError "Logger must be a type of function")
  end.

(** [this.format(options)]: the default formatter runs with [this]
    the instance. *)
Definition call_format (options : Part000Formatter.options) : M value :=
  f ← format;
  match f with
  | VFunction DefaultFormatter =>
      match Part000Formatter.defaultFormatter now defaultDateTimeFormatter true options with
      | inl text => pure (VString text)
      | inr e => throw e
      end
  | VFunction g => pure (call g options)
  | _ => throw (TypeError "this.format is not a function")
  end.

(** The [logOverride] of the default logger. *)
Definition logOverride_of (logOptions : obj) : obj :=
  assign {[ "automaticCreate" := VBool true;
            "automaticOpen" := VBool true;
            "print" := VBool true;
            "printRaw" := VBool false;
            "recursive" := VBool true;
            "write" := VBool true;
            "writeRaw" := VBool true ]} [logOptions].

(** [Log.defaultLogger(formatOptions, logOptions)]; [this_is_log] is
    [this instanceof Log] at the call. *)
Definition defaultLogger (this_is_log : bool)
    (formatOptions : Part000Formatter.options) (logOptions : obj) : M unit :=
  if negb this_is_log
  then throw (TypeError "Please bind this function to an instance of the log")
  else
    let logOverride := logOverride_of logOptions in
    on ← on_this Part000.online;
    (if negb on then
       if truthy (get logOverride "automaticOpen")
       then on_this (Part000.open logOverride);; pure tt
       else throw (Error "Write stream is currently offline")
     else pure tt);;
    let raw := with_styling formatOptions (Part000Formatter.Array []) in
    on_this (Part000.emit "log");;
    (if truthy (get logOverride "print") then
       on_this (Part000.emit "logPrint");;
       text ← (if truthy (get logOverride "printRaw")
               then call_format raw else call_format formatOptions);
       stdout_write text
     else pure tt);;
    (if truthy (get logOverride "write") then
       on_this (Part000.emit "logWrite");;
       ws ← stream_writer;
       text ← (if truthy (get logOverride "writeRaw")
               then call_format raw else call_format formatOptions);
       stream_write ws text
     else pure tt).

End Logger.
End Part000Logger.


(** ** Which errors a computation can raise *)
Module Behaviour.
Import JS Eff.

(** Every error [m] raises satisfies [P]. *)
Definition raises {S A} (P : error → Prop) (m : M S A) : Prop :=
  ∀ st e, fst (m st) = Throw e → P e.

(** An error of the host or of the language, not one of the class's own
    [Error]s. *)
Definition foreign (e : error) : Prop :=
  match e with
  | Error _ => False
  | TypeError _ | SystemError _ => True
  end.

End Behaviour.


(** * Properties *)

(** ** Strings *)
Section Strings.
Import JS.

Lemma append_nil_l (s : string) : "" +:+ s = s.
Proof. reflexivity. Qed.

Lemma append_cons (c : ascii) (s t : string) :
  String c s +:+ t = String c (s +:+ t).
Proof. reflexivity. Qed.

Lemma append_nil_r (s : string) : s +:+ "" = s.
Proof. induction s as [|c s IH]; [done | by rewrite append_cons, IH]. Qed.

Lemma append_assoc (a b c : string) : (a +:+ b) +:+ c = a +:+ (b +:+ c).
Proof. induction a as [|x a IH]; [done | by rewrite !append_cons, IH]. Qed.

Lemma length_append (a b : string) :
  String.length (a +:+ b) = (String.length a + String.length b)%nat.
Proof. induction a as [|x a IH]; [done | rewrite append_cons; simpl; by rewrite IH]. Qed.

Lemma occurs_append (c : ascii) (a b : string) :
  occurs c (a +:+ b) = occurs c a || occurs c b.
Proof.
  induction a as [|x a IH]; [done |].
  rewrite append_cons. simpl. rewrite IH. by destruct (Ascii.eqb c x).
Qed.

Lemma occurs_fill (c : ascii) (n : nat) (cur filler : string) :
  occurs c cur = false → occurs c filler = false →
  occurs c (fill n cur filler) = false.
Proof.
  intros Hcur Hfil. revert cur Hcur.
  induction n as [|n IH]; intros cur Hcur; simpl; [done |].
  destruct cur as [|x cur].
  - destruct filler as [|y r] eqn:E; [done |].
    simpl in *. apply orb_false_iff in Hfil as [-> Hr]. simpl.
    rewrite <- E in *. apply IH. subst filler. done.
  - simpl in *. apply orb_false_iff in Hcur as [-> Hr]. simpl. by apply IH.
Qed.

Lemma occurs_padStart (c : ascii) (s : string) (w : Z) (p : string) :
  occurs c s = false → occurs c p = false → occurs c (padStart s w p) = false.
Proof.
  intros Hs Hp. unfold padStart.
  repeat case_match; try done.
  rewrite occurs_append, Hs, occurs_fill; done.
Qed.

Lemma occurs_padEnd (c : ascii) (s : string) (w : Z) (p : string) :
  occurs c s = false → occurs c p = false → occurs c (padEnd s w p) = false.
Proof.
  intros Hs Hp. unfold padEnd.
  repeat case_match; try done.
  rewrite occurs_append, Hs, occurs_fill; done.
Qed.

Lemma mod_add_self (L i : nat) : ((L + i) mod L = i mod L)%nat.
Proof. by rewrite <- Nat.Div0.add_mod_idemp_l, Nat.Div0.mod_same. Qed.

(** [fill] walks the pad cyclically. *)
Lemma fill_cyclic (pad : string) (n k : nat) :
  let p := list_ascii_of_string pad in
  (0 < List.length p)%nat → (k ≤ List.length p)%nat →
  list_ascii_of_string (fill n (string_of_list_ascii (drop k p)) pad)
  = (λ i, nth ((k + i) mod List.length p) p Ascii.zero) <$> seq 0 n.
Proof.
  intros p Hpos. revert k.
  induction n as [|n IH]; intros k Hk; [done |].
  rewrite <- cons_seq, <- fmap_S_seq. cbn [fmap list_fmap].
  rewrite <- list_fmap_compose.
  destruct (drop k p) as [|c r] eqn:Hdrop.
  - assert (k = List.length p) as ->.
    { apply drop_nil_inv in Hdrop. lia. }
    cbn [string_of_list_ascii fill].
    destruct pad as [|c0 r0]; [simpl in Hpos; lia |].
    cbn [list_ascii_of_string].
    specialize (IH 1%nat).
    replace (string_of_list_ascii (drop 1 p)) with r0 in IH.
    2:{ subst p. cbn. by rewrite drop_0, string_of_list_ascii_of_string. }
    rewrite IH by lia. f_equal.
    + rewrite Nat.add_0_r, Nat.Div0.mod_same. done.
    + apply list_fmap_ext. intros _ i _. cbv beta. unfold compose.
      by rewrite mod_add_self.
  - cbn [string_of_list_ascii fill list_ascii_of_string].
    assert (k < List.length p)%nat as Hlt.
    { destruct (decide (k < List.length p)%nat); [done |].
      rewrite drop_ge in Hdrop by lia. done. }
    assert (drop (S k) p = r) as Hr.
    { rewrite <- (Nat.add_1_r k), <- drop_drop, Hdrop. done. }
    rewrite <- Hr, IH by lia. f_equal.
    + rewrite Nat.add_0_r, Nat.mod_small by lia.
      assert (p !! k = Some c) as Hlk.
      { rewrite <- (Nat.add_0_r k), <- lookup_drop, Hdrop. done. }
      symmetry. by apply nth_lookup_Some.
    + apply list_fmap_ext. intros _ i _. cbv beta. unfold compose.
      do 2 f_equal. lia.
Qed.

Lemma fill_padding (n : nat) (pad : string) :
  pad ≠ "" → fill n "" pad = Spec.padding n pad.
Proof.
  intros Hne. unfold Spec.padding.
  set (p := list_ascii_of_string pad).
  assert (0 < List.length p)%nat as Hpos.
  { subst p. destruct pad; [done | simpl; lia]. }
  pose proof (fill_cyclic pad n (List.length p) Hpos (Nat.le_refl _)) as H.
  fold p in H. rewrite drop_all in H. cbn [string_of_list_ascii] in H.
  rewrite <- (string_of_list_ascii_of_string (fill n "" pad)), H.
  f_equal. apply list_fmap_ext. intros _ i _. simpl. f_equal.
  by rewrite mod_add_self.
Qed.

Lemma padding_0 (pad : string) : Spec.padding 0 pad = "".
Proof. done. Qed.

(** [padStart] and [padEnd] are the padded field of the specification. *)
Lemma padStart_padded (s : string) (w : Z) (pad : string) :
  padStart s w pad = Spec.padded true s w pad.
Proof.
  unfold padStart, Spec.padded.
  destruct (String.eqb pad "") eqn:Hp.
  - by destruct (_ <=? _)%nat.
  - apply String.eqb_neq in Hp.
    destruct (Nat.leb_spec (Z.to_nat w) (String.length s)) as [Hle|Hgt].
    + replace (Z.to_nat w - String.length s)%nat with 0%nat by lia. done.
    + by rewrite fill_padding.
Qed.

Lemma padEnd_padded (s : string) (w : Z) (pad : string) :
  padEnd s w pad = Spec.padded false s w pad.
Proof.
  unfold padEnd, Spec.padded.
  destruct (String.eqb pad "") eqn:Hp.
  - by destruct (_ <=? _)%nat.
  - apply String.eqb_neq in Hp.
    destruct (Nat.leb_spec (Z.to_nat w) (String.length s)) as [Hle|Hgt].
    + replace (Z.to_nat w - String.length s)%nat with 0%nat by lia.
      by rewrite padding_0, append_nil_r.
    + by rewrite fill_padding.
Qed.

Lemma length_string_of_list_ascii (l : list ascii) :
  String.length (string_of_list_ascii l) = List.length l.
Proof. induction l as [|c l IH]; [done | cbn; by rewrite IH]. Qed.

Lemma padding_length (n : nat) (pad : string) :
  String.length (Spec.padding n pad) = n.
Proof.
  unfold Spec.padding.
  by rewrite length_string_of_list_ascii, length_fmap, length_seq.
Qed.

(** A padded field is at least as wide as asked, and exactly as wide
    as the wider of the text and the minimum width. *)
Lemma padded_length (right_aligned : bool) (text : string) (width : Z) (pad : string) :
  pad ≠ "" →
  String.length (Spec.padded right_aligned text width pad)
  = Nat.max (String.length text) (Z.to_nat width).
Proof.
  intros Hpad. unfold Spec.padded.
  apply String.eqb_neq in Hpad. rewrite Hpad.
  destruct right_aligned; rewrite length_append, padding_length; lia.
Qed.

End Strings.


(** ** Upper-casing and case-insensitive comparison *)
Section CaseFolding.
Import JS.

Ltac by_ascii_cases c :=
  destruct c as [[] [] [] [] [] [] [] []]; reflexivity.

Lemma fold_R c : Ascii.eqb (upper c) "R" = Ascii.eqb (Spec.lower c) "r".
Proof. by_ascii_cases c. Qed.
Lemma fold_I c : Ascii.eqb (upper c) "I" = Ascii.eqb (Spec.lower c) "i".
Proof. by_ascii_cases c. Qed.
Lemma fold_G c : Ascii.eqb (upper c) "G" = Ascii.eqb (Spec.lower c) "g".
Proof. by_ascii_cases c. Qed.
Lemma fold_H c : Ascii.eqb (upper c) "H" = Ascii.eqb (Spec.lower c) "h".
Proof. by_ascii_cases c. Qed.
Lemma fold_T c : Ascii.eqb (upper c) "T" = Ascii.eqb (Spec.lower c) "t".
Proof. by_ascii_cases c. Qed.

(** The test of the formatter of [src/classes/Log.js] is the
    case-insensitive comparison with ["RIGHT"]. *)
Lemma toUpperCase_RIGHT (alignment : string) :
  String.eqb (toUpperCase alignment) "RIGHT"
  = Spec.equal_ignoring_case alignment "RIGHT".
Proof.
  unfold Spec.equal_ignoring_case.
  change (Spec.toLowerCase "RIGHT") with "right".
  destruct alignment as [|c1 [|c2 [|c3 [|c4 [|c5 [|c6 r]]]]]];
    cbn [toUpperCase Spec.toLowerCase String.eqb];
    rewrite ?fold_R, ?fold_I, ?fold_G, ?fold_H, ?fold_T;
    reflexivity.
Qed.

End CaseFolding.


(** ** The entry formatter *)
Section FormatterFacts.
Import JS Style.

Lemma join3 (sep a b c : string) :
  join sep [a; b; c] = a +:+ sep +:+ b +:+ sep +:+ c.
Proof. reflexivity. Qed.

(** The padding step of [src/classes/Log.js] against the rule of the
    specification. *)
Lemma classes_pad_padded (alignment text : string) (width : Z) (padding : string) :
  ClassesFormatter.pad alignment text width padding
  = Spec.padded (Spec.equal_ignoring_case alignment "RIGHT") text width padding.
Proof.
  unfold ClassesFormatter.pad. rewrite toUpperCase_RIGHT.
  destruct (Spec.equal_ignoring_case alignment "RIGHT");
    [apply padStart_padded | apply padEnd_padded].
Qed.

(** The padding step of [src/unnamed/part_000]: the comparison with
    ["RIGHT"] is exact. *)
Lemma part000_pad_padded (alignment text : string) (width : Z) (padding : string) :
  Part000Formatter.pad alignment text width padding
  = Spec.padded (String.eqb alignment "RIGHT") text width padding.
Proof.
  unfold Part000Formatter.pad.
  destruct (String.eqb alignment "RIGHT");
    [apply padStart_padded | apply padEnd_padded].
Qed.

Lemma occurs_classes_pad (c : ascii) (alignment text : string) (width : Z) (padding : string) :
  occurs c text = false → occurs c padding = false →
  occurs c (ClassesFormatter.pad alignment text width padding) = false.
Proof.
  intros. unfold ClassesFormatter.pad.
  destruct (String.eqb _ _); [by apply occurs_padStart | by apply occurs_padEnd].
Qed.



Lemma occurs_reset : occurs ESC reset_sequence = true.
Proof. reflexivity. Qed.

End FormatterFacts.

(** Scenario D of the specification, on [src/classes/Log.js]. *)
Example scenario_D :
  ClassesFormatter.parsedTitle
    (ClassesFormatter.Build_options None None None None None None None None None None None None
       (Some "AB") (Some "RIGHT") (Some 10%Z) (Some "-") None)
  = "--------AB".
Proof. reflexivity. Qed.

(** C4, as stated, fails on [src/unnamed/part_000]: with the alignment
    ["right"], which equals RIGHT when case is ignored, the title ["AB"]
    of minimum width 10 and pad ["-"] is padded at its end, not at its
    start. *)
Lemma C4_counterexample :
  let o := Part000Formatter.Build_options None None None None None None None None None None None
             (Some "AB") (Some "right") (Some 10%Z) (Some "-") None in
  Spec.equal_ignoring_case (Part000Formatter.override_titleAlignment o) "RIGHT" = true
  ∧ Part000Formatter.title_field o = "AB--------"
  ∧ Part000Formatter.title_field o
    ≠ Spec.padded (Spec.equal_ignoring_case (Part000Formatter.override_titleAlignment o) "RIGHT")
        (Part000Formatter.override_title o)
        (Part000Formatter.override_titleMinimumWidth o)
        (Part000Formatter.override_titlePadding o).
Proof. repeat split; try reflexivity. vm_compute. discriminate. Qed.

(** C4, amended.  In both formatters the timestamp (what the supplied
    or default date formatter makes of the supplied or current time)
    and, independently, the title are padded to the supplied minimum
    width with the supplied pad, or to their defaults (25 and 20, a
    space): before the text when the field is right-aligned, after it
    otherwise.  [src/classes/Log.js] tests
    [alignment.toUpperCase() === "RIGHT"]: for an alignment made of ASCII
    characters, the field is right-aligned when its alignment equals
    RIGHT ignoring case.  [src/unnamed/part_000] tests
    [alignment === "RIGHT"]: the field is right-aligned only when its
    alignment is exactly ["RIGHT"].  The statement is about calls that
    return: the time is a valid time value and the padded fields fit in
    a string. *)
Theorem C4_alignment_and_padding (now : Z) (defaultDateTimeFormatter : Z → string) :
  (∀ o : ClassesFormatter.options,
     let dateTimeAlignment := default "LEFT" (ClassesFormatter.dateTimeAlignment o) in
     let titleAlignment := default "LEFT" (ClassesFormatter.titleAlignment o) in
     let time := default now (ClassesFormatter.dateTime o) in
     let timestamp :=
       default defaultDateTimeFormatter (ClassesFormatter.dateTimeFormatter o) time in
     let padded_timestamp :=
       Spec.padded (Spec.equal_ignoring_case dateTimeAlignment "RIGHT") timestamp
         (default 25%Z (ClassesFormatter.dateTimeMinimumWidth o))
         (default " " (ClassesFormatter.dateTimePadding o)) in
     let padded_title :=
       Spec.padded (Spec.equal_ignoring_case titleAlignment "RIGHT")
         (default "TITLE" (ClassesFormatter.title o))
         (default 20%Z (ClassesFormatter.titleMinimumWidth o))
         (default " " (ClassesFormatter.titlePadding o)) in
     JS.ascii_only dateTimeAlignment = true →
     JS.ascii_only titleAlignment = true →
     JS.valid_time time = true →
     JS.fits padded_timestamp = true →
     JS.fits padded_title = true →
     ClassesFormatter.parsedDateTime now defaultDateTimeFormatter o = padded_timestamp
     ∧ ClassesFormatter.parsedTitle o = padded_title)
  ∧
  (∀ o : Part000Formatter.options,
     let time := default now (Part000Formatter.dateTime o) in
     let timestamp :=
       default defaultDateTimeFormatter (Part000Formatter.dateTimeFormatter o) time in
     let padded_timestamp :=
       Spec.padded
         (String.eqb (default "LEFT" (Part000Formatter.dateTimeAlignment o)) "RIGHT")
         timestamp
         (default 25%Z (Part000Formatter.dateTimeMinimumWidth o))
         (default " " (Part000Formatter.dateTimePadding o)) in
     let padded_title :=
       Spec.padded
         (String.eqb (default "LEFT" (Part000Formatter.titleAlignment o)) "RIGHT")
         (default "TITLE" (Part000Formatter.title o))
         (default 20%Z (Part000Formatter.titleMinimumWidth o))
         (default " " (Part000Formatter.titlePadding o)) in
     JS.valid_time time = true →
     JS.fits padded_timestamp = true →
     JS.fits padded_title = true →
     Part000Formatter.dateTime_field now defaultDateTimeFormatter o = padded_timestamp
     ∧ Part000Formatter.title_field o = padded_title).
Proof.
  split; intros o; cbv zeta; intros; split.
  - unfold ClassesFormatter.parsedDateTime. by rewrite classes_pad_padded.
  - unfold ClassesFormatter.parsedTitle. by rewrite classes_pad_padded.
  - unfold Part000Formatter.dateTime_field. by rewrite part000_pad_padded.
  - unfold Part000Formatter.title_field. by rewrite part000_pad_padded.
Qed.

(** A witness of C4: a timestamp made by a supplied formatter from a
    supplied time, right-aligned by ["Right"] in [src/classes/Log.js]
    and left-aligned by ["right"] in [src/unnamed/part_000], with
    supplied widths and pads. *)
Lemma C4_alignment_and_padding_witness :
  let clock := λ t : Z, if (t =? 7)%Z then "seven" else "other" in
  let o1 := ClassesFormatter.Build_options
              (Some 7%Z) (Some "Right") (Some clock) (Some 8%Z) (Some "*") None
              None None None None None None
              (Some "AB") (Some "LEFT") (Some 5%Z) (Some "-+") None in
  let o2 := Part000Formatter.Build_options
              (Some 7%Z) (Some "right") (Some clock) (Some 8%Z) (Some "*") None
              None None None None None
              (Some "AB") (Some "RIGHT") (Some 5%Z) (Some "-+") None in
  (ClassesFormatter.parsedDateTime 0 (λ _, "now") o1 = "***seven"
   ∧ ClassesFormatter.parsedTitle o1 = "AB-+-")
  ∧ (Part000Formatter.dateTime_field 0 (λ _, "now") o2 = "seven***"
     ∧ Part000Formatter.title_field o2 = "-+-AB").
Proof.
  intros clock o1 o2.
  destruct (C4_alignment_and_padding 0 (λ _, "now")) as [H1 H2].
  split.
  - destruct (H1 o1) as [Hts Hti]; [reflexivity .. |].
    rewrite Hts, Hti. split; reflexivity.
  - destruct (H2 o2) as [Hts Hti]; [reflexivity .. |].
    rewrite Hts, Hti. split; reflexivity.
Defined.

(** C8.  In raw mode the formatter of [src/classes/Log.js] returns the
    padded timestamp, the padded title and the message joined by the
    separator text, followed by the terminator, each of them what the
    caller supplies or its default, whatever the four style-code lists
    are; the result is the same for all stylings, and it holds no
    escape character unless one of the texts it is made of does.  The
    statement is about calls that return (a valid time value, an entry
    that fits in a string), with alignments made of ASCII characters. *)
Theorem C8_raw_mode (now : Z) (defaultDateTimeFormatter : Z → string)
    (o : ClassesFormatter.options)
    (dateTimeStyling titleStyling messageStyling separatorStyling : option (list Style.directive)) :
  let o' := ClassesFormatter.with_styling o dateTimeStyling titleStyling
              messageStyling separatorStyling in
  let dateTimeAlignment := default "LEFT" (ClassesFormatter.dateTimeAlignment o) in
  let titleAlignment := default "LEFT" (ClassesFormatter.titleAlignment o) in
  let time := default now (ClassesFormatter.dateTime o) in
  let timestamp :=
    default defaultDateTimeFormatter (ClassesFormatter.dateTimeFormatter o) time in
  let dateTimePadding := default " " (ClassesFormatter.dateTimePadding o) in
  let title := default "TITLE" (ClassesFormatter.title o) in
  let titlePadding := default " " (ClassesFormatter.titlePadding o) in
  let message := default "MESSAGE" (ClassesFormatter.message o) in
  let separator := default " | " (ClassesFormatter.separator o) in
  let terminator := default (String (ascii_of_nat 10) "") (ClassesFormatter.end_ o) in
  let padded_timestamp :=
    Spec.padded (Spec.equal_ignoring_case dateTimeAlignment "RIGHT") timestamp
      (default 25%Z (ClassesFormatter.dateTimeMinimumWidth o)) dateTimePadding in
  let padded_title :=
    Spec.padded (Spec.equal_ignoring_case titleAlignment "RIGHT") title
      (default 20%Z (ClassesFormatter.titleMinimumWidth o)) titlePadding in
  let entry :=
    padded_timestamp +:+ separator +:+ padded_title +:+ separator +:+
    message +:+ terminator in
  default true (ClassesFormatter.raw o) = true →
  JS.ascii_only dateTimeAlignment = true →
  JS.ascii_only titleAlignment = true →
  JS.valid_time time = true →
  JS.fits entry = true →
  ClassesFormatter.defaultFormatter now defaultDateTimeFormatter o' = entry
  ∧ ClassesFormatter.defaultFormatter now defaultDateTimeFormatter o'
    = ClassesFormatter.defaultFormatter now defaultDateTimeFormatter o
  ∧ (JS.occurs JS.ESC timestamp = false →
     JS.occurs JS.ESC dateTimePadding = false →
     JS.occurs JS.ESC title = false →
     JS.occurs JS.ESC titlePadding = false →
     JS.occurs JS.ESC message = false →
     JS.occurs JS.ESC separator = false →
     JS.occurs JS.ESC terminator = false →
     JS.occurs JS.ESC
       (ClassesFormatter.defaultFormatter now defaultDateTimeFormatter o') = false).
Proof.
  intros o' dateTimeAlignment titleAlignment time timestamp dateTimePadding title
    titlePadding message separator terminator padded_timestamp padded_title entry
    Hraw _ _ _ _.
  assert (ClassesFormatter.defaultFormatter now defaultDateTimeFormatter o'
          = ClassesFormatter.defaultFormatter now defaultDateTimeFormatter o) as Hsame.
  { unfold ClassesFormatter.defaultFormatter, ClassesFormatter.parsed_raw.
    cbn [ClassesFormatter.raw o' ClassesFormatter.with_styling].
    rewrite Hraw. reflexivity. }
  assert (ClassesFormatter.defaultFormatter now defaultDateTimeFormatter o = entry)
    as Hshape.
  { unfold ClassesFormatter.defaultFormatter, ClassesFormatter.parsed_raw.
    rewrite Hraw, join3.
    unfold ClassesFormatter.parsedDateTime, ClassesFormatter.parsedTitle.
    rewrite !classes_pad_padded, !append_assoc. reflexivity. }
  split; [by rewrite Hsame | split; [done |]].
  intros Hts Hdp Ht Htp Hm Hs He.
  rewrite Hsame. unfold ClassesFormatter.defaultFormatter, ClassesFormatter.parsed_raw.
  rewrite Hraw, join3.
  unfold ClassesFormatter.parsedDateTime, ClassesFormatter.parsedTitle.
  rewrite !occurs_append.
  change (ClassesFormatter.parsed_separator o) with separator.
  change (ClassesFormatter.parsed_message o) with message.
  change (ClassesFormatter.parsed_end o) with terminator.
  rewrite Hs, Hm, He.
  rewrite !occurs_classes_pad by done. reflexivity.
Qed.


(** A witness of C8: a record that supplies every text, width, pad and
    alignment, the time and the date formatter, in raw mode, with
    arbitrary stylings. *)
Lemma C8_raw_mode_witness :
  let clock := λ t : Z, if (t =? 7)%Z then "seven" else "other" in
  let o := ClassesFormatter.Build_options
             (Some 7%Z) (Some "right") (Some clock) (Some 8%Z) (Some "*") None
             (Some "!") (Some "up") None (Some true) (Some "~") None
             (Some "AB") (Some "left") (Some 5%Z) (Some "-+") None in
  ClassesFormatter.defaultFormatter 0 (λ _, "now")
    (ClassesFormatter.with_styling o (Some []) (Some [Style.One (Style.Num 0)])
       None (Some [Style.Many [Style.Num 38; Style.Num 5; Style.Num 125]]))
  = "***seven~AB-+-~up!".
Proof.
  intros clock o.
  destruct (C8_raw_mode 0 (λ _, "now") o (Some []) (Some [Style.One (Style.Num 0)])
              None (Some [Style.Many [Style.Num 38; Style.Num 5; Style.Num 125]]))
    as [Hshape _]; [reflexivity .. |].
  rewrite Hshape. reflexivity.
Defined.





(** ** Running computations *)
Section EffFacts.
Import JS Eff.
Context {S : Type}.

Lemma bind_return {A B} (m : M S A) (k : A → M S B) (st st' : S) (a : A) :
  m st = (Return a, st') → bind m k st = k a st'.
Proof. intros H. unfold bind. by rewrite H. Qed.

Lemma bind_throw {A B} (m : M S A) (k : A → M S B) (st st' : S) (e : error) :
  m st = (Throw e, st') → bind m k st = (Throw e, st').
Proof. intros H. unfold bind. by rewrite H. Qed.

Lemma bind_gets {A B} (f : S → A) (k : A → M S B) (st : S) :
  bind (gets f) k st = k (f st) st.
Proof. reflexivity. Qed.

Lemma bind_modify {B} (f : S → S) (k : unit → M S B) (st : S) :
  bind (modify f) k st = k tt (f st).
Proof. reflexivity. Qed.

Lemma bind_pure {A B} (a : A) (k : A → M S B) (st : S) :
  bind (pure a) k st = k a st.
Proof. reflexivity. Qed.

Lemma bind_throw_now {A B} (e : error) (k : A → M S B) (st : S) :
  bind (throw e) k st = (Throw e, st).
Proof. reflexivity. Qed.

Lemma bind_bind {A B C} (m : M S A) (k : A → M S B) (k' : B → M S C) (st : S) :
  bind (bind m k) k' st = bind m (λ a, bind (k a) k') st.
Proof. unfold bind. destruct (m st) as [[a|e] st']; reflexivity. Qed.

Lemma bind_ext {A B} (m : M S A) (k k' : A → M S B) (st : S) :
  (∀ a st', k a st' = k' a st') → bind m k st = bind m k' st.
Proof. intros H. unfold bind. destruct (m st) as [[a|e] st']; [apply H | done]. Qed.

(** Frame rules: what leaves a component of the state alone. *)
Context {T : Type} (proj : S → T).

Lemma keeps_pure {A} (a : A) : keeps proj (pure a).
Proof. by intros st. Qed.

Lemma keeps_throw {A} (e : error) : keeps proj (@throw S A e).
Proof. by intros st. Qed.

Lemma keeps_gets {A} (f : S → A) : keeps proj (gets f).
Proof. by intros st. Qed.

Lemma keeps_lift {A} (r : A + error) : keeps proj (lift r).
Proof. by destruct r. Qed.

Lemma keeps_bind {A B} (m : M S A) (k : A → M S B) :
  keeps proj m → (∀ a, keeps proj (k a)) → keeps proj (bind m k).
Proof.
  intros Hm Hk st. unfold bind. specialize (Hm st).
  destruct (m st) as [[a|e] st']; cbn in *; [| done].
  by rewrite Hk.
Qed.

Lemma keeps_modify (f : S → S) :
  (∀ st, proj (f st) = proj st) → keeps proj (modify f).
Proof. intros H st. apply H. Qed.

End EffFacts.

Create HintDb frame.
#[export] Hint Resolve keeps_pure keeps_throw keeps_gets keeps_lift : frame.

Ltac frame :=
  repeat first
    [ progress auto with frame
    | apply keeps_bind; [| intros ?]
    | apply keeps_modify; intros ?; reflexivity
    | match goal with
      | |- Eff.keeps _ (if ?b then _ else _) => destruct b
      | |- Eff.keeps _ (match ?x with _ => _ end) => destruct x
      end ].

Ltac run :=
  repeat first
    [ rewrite bind_bind
    | rewrite bind_gets
    | rewrite bind_modify
    | rewrite bind_pure
    | rewrite bind_throw_now ];
  cbv beta.

(** ** The lifecycle of [src/classes/Log.js] *)
Section ClassesFacts.
Import JS Node Eff.

(** Reading [this.file] changes nothing. *)
Lemma classes_file_frame (st : Classes.state) : snd (Classes.file st) = st.
Proof.
  unfold Classes.file, bind, gets. cbn.
  destruct (get (Classes.this_options st) "file"); reflexivity.
Qed.

Lemma classes_exists_frame (st : Classes.state) : snd (Classes.exists_ st) = st.
Proof.
  unfold Classes.exists_, bind. pose proof (classes_file_frame st) as H.
  destruct (Classes.file st) as [[f|e] st']; cbn in *; by subst.
Qed.

(** [this.exists] answers [true] exactly when [this.options.file] is a
    string whose resolution names a file or a directory. *)
Lemma classes_exists_run (st : Classes.state) :
  Classes.exists_ st
  = (match get (Classes.this_options st) "file" with
     | VString f =>
         Return (existsSync (Classes.world st) (resolve (cwd (Classes.world st)) [f]))
     | _ => Throw (TypeError "ERR_INVALID_ARG_TYPE")
     end, st).
Proof.
  unfold Classes.exists_, Classes.file, bind, gets, pure, throw.
  destruct (get (Classes.this_options st) "file"); reflexivity.
Qed.

Lemma classes_file_run (st : Classes.state) :
  Classes.file st
  = (match get (Classes.this_options st) "file" with
     | VString f => Return (resolve (cwd (Classes.world st)) [f])
     | _ => Throw (TypeError "ERR_INVALID_ARG_TYPE")
     end, st).
Proof.
  unfold Classes.file, bind, gets, pure, throw.
  destruct (get (Classes.this_options st) "file"); reflexivity.
Qed.

(** [this.exists] answers [b] exactly when [this.options.file] is a
    string whose resolution against the working directory is, or is
    not, the path of a file or a directory. *)
Lemma classes_exists_iff (st : Classes.state) (b : bool) :
  result Classes.exists_ st = Return b ↔
  ∃ f, get (Classes.this_options st) "file" = VString f
       ∧ existsSync (Classes.world st)
           (resolve (cwd (Classes.world st)) [f]) = b.
Proof.
  unfold result. rewrite classes_exists_run. cbn.
  destruct (get (Classes.this_options st) "file") eqn:Hf; split; intros H;
    try discriminate; try (destruct H as (p & Heq & _); discriminate).
  - injection H as <-. by eexists.
  - destruct H as (p & Heq & <-). by injection Heq as ->.
Qed.

Lemma classes_create_existing (options : obj) (st : Classes.state) :
  result Classes.exists_ st = Return true →
  Classes.create options st = (Return Classes.This, st).
Proof.
  intros Hex. unfold result in Hex. rewrite classes_exists_run in Hex.
  unfold Classes.create. run.
  rewrite (bind_return _ _ st st true); [done |].
  rewrite classes_exists_run. cbn in Hex. by rewrite Hex.
Qed.

Lemma classes_create_throws_early (options : obj) (st : Classes.state) (e : error) :
  result Classes.exists_ st = Throw e →
  Classes.create options st = (Throw e, st).
Proof.
  intros Hex. unfold result in Hex. rewrite classes_exists_run in Hex.
  unfold Classes.create. run.
  rewrite (bind_throw _ _ st st e); [done |].
  rewrite classes_exists_run. cbn in Hex. by rewrite Hex.
Qed.

End ClassesFacts.

(** ** The lifecycle of [src/unnamed/part_000] *)
Section Part000Facts.
Import JS Node Eff.

Lemma part000_exists_run (st : Part000.state) :
  Part000.exists_ st
  = (Return (match Part000.file_ st with
             | VString p => existsSync (Part000.world st) p
             | _ => false
             end), st).
Proof. reflexivity. Qed.

Lemma part000_create_existing (options : obj) (st : Part000.state) :
  result Part000.exists_ st = Return true →
  Part000.create options st = (Return Part000.This, st).
Proof.
  intros Hex. unfold result in Hex. rewrite part000_exists_run in Hex.
  cbn in Hex. injection Hex as Hex.
  unfold Part000.create, Part000.options. run.
  rewrite (bind_return _ _ st st true); [done |].
  rewrite part000_exists_run. by rewrite Hex.
Qed.

End Part000Facts.

(** C9.  In both classes [create] on a log whose file exists returns the
    instance and leaves everything as it was: the files and their
    content, the directories, the stream, the options, and no event is
    emitted.  Conversely, a [create] that changed the host found the file
    absent. *)
Theorem C9_create_idempotent :
  (∀ (options : JS.obj) (st : Classes.state),
     Eff.result Classes.exists_ st = Eff.Return true →
     Classes.create options st = (Eff.Return Classes.This, st))
  ∧ (∀ (options : JS.obj) (st : Classes.state),
       Classes.world (Eff.final (Classes.create options) st) ≠ Classes.world st →
       Eff.result Classes.exists_ st = Eff.Return false)
  ∧ (∀ (options : JS.obj) (st : Part000.state),
       Eff.result Part000.exists_ st = Eff.Return true →
       Part000.create options st = (Eff.Return Part000.This, st))
  ∧ (∀ (options : JS.obj) (st : Part000.state),
       Part000.world (Eff.final (Part000.create options) st) ≠ Part000.world st →
       Eff.result Part000.exists_ st = Eff.Return false).
Proof.
  split; [|split; [|split]].
  - apply classes_create_existing.
  - intros options st Hchanged.
    destruct (Eff.result Classes.exists_ st) as [[|]|e] eqn:Hex; [| done |].
    + exfalso. apply Hchanged. unfold Eff.final.
      by rewrite classes_create_existing.
    + exfalso. apply Hchanged. unfold Eff.final.
      by rewrite (classes_create_throws_early _ _ e).
  - apply part000_create_existing.
  - intros options st Hchanged.
    destruct (Eff.result Part000.exists_ st) as [[|]|e] eqn:Hex; [| done |].
    + exfalso. apply Hchanged. unfold Eff.final.
      by rewrite part000_create_existing.
    + unfold Eff.result in Hex. by rewrite part000_exists_run in Hex.
Qed.

(** A witness of C9: [create] on the host whose log file exists, for an
    instance of each class. *)
Lemma C9_create_idempotent_witness :
  Classes.create ∅ (Scenario.classes_log ∅ Scenario.disk)
  = (Eff.Return Classes.This, Scenario.classes_log ∅ Scenario.disk)
  ∧ Part000.create {[ "recursive" := JS.VBool false ]}
      (Scenario.part000_log ∅ Scenario.disk)
    = (Eff.Return Part000.This, Scenario.part000_log ∅ Scenario.disk).
Proof.
  destruct C9_create_idempotent as (H1 & _ & H3 & _).
  split; [apply H1 | apply H3]; vm_compute; reflexivity.
Defined.


(** ** [delete] *)
Section DeleteFacts.
Import JS Node Eff.

Lemma is_file_lookup (h : host) (p c : string) :
  files h !! p = Some c → is_file h p = true.
Proof. intros H. unfold is_file. apply bool_decide_eq_true. eauto. Qed.

Lemma existsSync_file (h : host) (p c : string) :
  files h !! p = Some c → existsSync h p = true.
Proof. intros H. unfold existsSync. by rewrite (is_file_lookup h p c). Qed.

Lemma classes_close_run (st : Classes.state) :
  Classes.close st
  = match Classes.this_stream st with
    | None => (Throw (Error "Write stream is already closed"), st)
    | Some ws =>
        (Return Classes.This,
         {| Classes.this_options := Classes.this_options st;
            Classes.this_stream := None;
            Classes.heap := Classes.heap st;
            Classes.world := Classes.world st;
            Classes.emitted :=
              (Classes.emitted st
                 ++ [Classes.Build_event "beforeClose" [Classes.PStream ws]])
                ++ [Classes.Build_event "close" [Classes.PStream (destroy ws)]] |})
    end.
Proof.
  unfold Classes.close. run. destruct (Classes.this_stream st); reflexivity.
Qed.

Lemma classes_delete_missing (options : obj) (st : Classes.state) :
  result Classes.exists_ st = Return false →
  Classes.delete options st = (Throw (Error "Log file does not exist"), st).
Proof.
  intros Hex. unfold result in Hex. rewrite classes_exists_run in Hex. cbn in Hex.
  unfold Classes.delete. run.
  rewrite (bind_return _ _ st st false); [done |].
  rewrite classes_exists_run. by rewrite Hex.
Qed.

Lemma classes_delete_open_stream (options : obj) (st : Classes.state) (ws : WriteStream) :
  result Classes.exists_ st = Return true →
  Classes.this_stream st = Some ws →
  truthy (get (Classes.delete_parsedOptions st options) "autoClose") = false →
  Classes.delete options st = (Throw (Error "Write stream is not closed"), st).
Proof.
  intros Hex Hws Hflag. unfold result in Hex. rewrite classes_exists_run in Hex.
  cbn in Hex. unfold Classes.delete_parsedOptions in Hflag.
  unfold Classes.delete. run.
  rewrite (bind_return _ _ st st true); [| rewrite classes_exists_run; by rewrite Hex].
  cbn [negb]. run. rewrite Hws, Hflag. by run.
Qed.

Lemma classes_delete_auto_close (options : obj) (st : Classes.state)
    (ws : WriteStream) (f c : string) :
  get (Classes.this_options st) "file" = VString f →
  files (Classes.world st) !! resolve (cwd (Classes.world st)) [f] = Some c →
  Classes.this_stream st = Some ws →
  truthy (get (Classes.delete_parsedOptions st options) "autoClose") = true →
  Classes.delete options st
  = (Return Classes.This,
     {| Classes.this_options := Classes.this_options st;
        Classes.this_stream := None;
        Classes.heap := Classes.heap st;
        Classes.world :=
          with_files (Classes.world st)
            (delete (resolve (cwd (Classes.world st)) [f]) (files (Classes.world st)));
        Classes.emitted :=
          Classes.emitted st
            ++ [ Classes.Build_event "beforeClose" [Classes.PStream ws];
                 Classes.Build_event "close" [Classes.PStream (destroy ws)];
                 Classes.Build_event "beforeDelete"
                   [Classes.PObject (Classes.delete_parsedOptions st options)];
                 Classes.Build_event "delete"
                   [Classes.PObject (Classes.delete_parsedOptions st options)] ] |}).
Proof.
  intros Hfile Hc Hws Hflag. unfold Classes.delete_parsedOptions in *.
  unfold Classes.delete. run.
  rewrite (bind_return _ _ st st true).
  2:{ rewrite classes_exists_run, Hfile. by erewrite existsSync_file. }
  cbn [negb]. run. rewrite Hws, Hflag. run.
  erewrite bind_return; [| rewrite classes_close_run, Hws; reflexivity].
  run. unfold Classes.emit. run.
  erewrite bind_return; [| rewrite classes_file_run; cbn; rewrite Hfile; reflexivity].
  unfold Classes.fs_update. run. cbn.
  unfold unlinkSync. erewrite is_file_lookup by done. cbn.
  rewrite <- !app_assoc. reflexivity.
Qed.

Lemma part000_online_run (st : Part000.state) :
  Part000.online st
  = (Return (match Part000.stream_ st with
             | Some ws => negb (destroyed ws)
             | None => false
             end), st).
Proof. reflexivity. Qed.

Lemma part000_delete_missing (options : obj) (st : Part000.state) :
  result Part000.exists_ st = Return false →
  Part000.delete options st = (Return Part000.This, st).
Proof.
  intros Hex. unfold result in Hex. rewrite part000_exists_run in Hex.
  cbn in Hex. injection Hex as Hex.
  unfold Part000.delete, Part000.options. run.
  rewrite (bind_return _ _ st st false); [done |].
  rewrite part000_exists_run. by rewrite Hex.
Qed.

Lemma part000_delete_online (options : obj) (st : Part000.state) :
  result Part000.exists_ st = Return true →
  result Part000.online st = Return true →
  truthy (get (Part000.override_of st options) "automaticClose") = false →
  Part000.delete options st
  = (Throw (Error "Cannot delete the log while the write stream is online"), st).
Proof.
  intros Hex Hon Hflag. unfold result in Hex, Hon.
  rewrite part000_exists_run in Hex. rewrite part000_online_run in Hon.
  cbn in Hex, Hon. injection Hex as Hex. injection Hon as Hon.
  unfold Part000.override_of in Hflag.
  unfold Part000.delete, Part000.options. run.
  rewrite (bind_return _ _ st st true); [| rewrite part000_exists_run; by rewrite Hex].
  cbn [negb].
  rewrite (bind_return _ _ st st true); [| rewrite part000_online_run; by rewrite Hon].
  rewrite Hflag. by run.
Qed.

Lemma part000_delete_auto_close (options : obj) (st : Part000.state)
    (ws : WriteStream) (p c : string) :
  Part000.file_ st = VString p →
  files (Part000.world st) !! p = Some c →
  Part000.stream_ st = Some ws →
  destroyed ws = false →
  truthy (get (Part000.override_of st options) "automaticClose") = true →
  Part000.delete options st
  = (Return Part000.This,
     {| Part000.file_ := Part000.file_ st;
        Part000.formatter := Part000.formatter st;
        Part000.logger := Part000.logger st;
        Part000.options_ := Part000.options_ st;
        Part000.stream_ := Some (destroy ws);
        Part000.world :=
          with_files (Part000.world st) (delete p (files (Part000.world st)));
        Part000.emitted := Part000.emitted st ++ ["beforeClose"; "delete"] |}).
Proof.
  intros Hfile Hc Hws Hlive Hflag. unfold Part000.override_of in Hflag.
  destruct st as [file_ formatter logger options_ stream_ world emitted].
  cbn in Hfile, Hc, Hws. subst file_ stream_.
  set (st := Part000.Build_state _ _ _ _ _ _ _) in *.
  assert (Part000.exists_ st = (Return true, st)) as Hex.
  { rewrite part000_exists_run. cbn. by erewrite existsSync_file. }
  assert (Part000.online st = (Return true, st)) as Hon.
  { rewrite part000_online_run. cbn. by rewrite Hlive. }
  assert (∀ o, (bind (Part000.create o) (λ _, pure ())) st = (Return (), st)) as Hcreate.
  { intros o. erewrite bind_return; [reflexivity |].
    apply part000_create_existing. unfold result. by rewrite Hex. }
  unfold Part000.delete, Part000.options. run.
  rewrite (bind_return _ _ st st true) by done. cbn [negb].
  rewrite (bind_return _ _ st st true) by done.
  rewrite Hflag. run.
  unfold Part000.close at 1, Part000.options. run.
  erewrite (bind_return _ _ st st ()).
  2:{ match goal with
      | |- (if ?b then _ else _) _ = _ => destruct b
      end; [apply Hcreate | reflexivity]. }
  run. rewrite (bind_return _ _ st st true) by done. cbn [negb].
  unfold Part000.emit, Part000.stream, Part000.file, Part000.as_path,
    Part000.fs_update. run. cbn. run. cbn.
  unfold unlinkSync. erewrite is_file_lookup by done. cbn.
  rewrite <- !app_assoc. reflexivity.
Qed.

End DeleteFacts.


(** C2, as stated, fails on [src/unnamed/part_000]: [delete] on a log
    whose file does not exist raises nothing; it returns the instance and
    changes nothing. *)
Lemma C2_counterexample :
  let st := Scenario.part000_log ∅ Scenario.bare in
  Eff.result Part000.exists_ st = Eff.Return false
  ∧ Part000.delete ∅ st = (Eff.Return Part000.This, st)
  ∧ ¬ ∃ e, Eff.throws (Part000.delete ∅) st e.
Proof.
  intros st.
  assert (Eff.result Part000.exists_ st = Eff.Return false) as Hex
    by (vm_compute; reflexivity).
  pose proof (part000_delete_missing ∅ st Hex) as Hrun.
  split; [done | split; [done |]].
  intros [e He]. unfold Eff.throws, Eff.result in He. by rewrite Hrun in He.
Qed.

(** C2, amended.  The errors are plain [Error]s told apart by their
    message.
    [src/classes/Log.js]: [delete] raises "Log file does not exist" when
    the file does not exist; when it exists and the stream is open with
    [autoClose] falsy in the merged options it raises
    "Write stream is not closed" and nothing has changed (the file still
    exists); with [autoClose] truthy it closes the stream first, then
    removes the file.
    [src/unnamed/part_000]: [delete] on a missing file returns the
    instance and changes nothing; when the file exists and the stream is
    online with [automaticClose] falsy in the merged options it raises
    "Cannot delete the log while the write stream is online" and nothing
    has changed; with [automaticClose] truthy it destroys the stream
    first, then removes the file. *)
Theorem C2_delete :
  (∀ (options : JS.obj) (st : Classes.state),
     Eff.result Classes.exists_ st = Eff.Return false →
     Classes.delete options st
     = (Eff.Throw (JS.Error "Log file does not exist"), st))
  ∧ (∀ (options : JS.obj) (st : Classes.state) (ws : Node.WriteStream),
       Eff.result Classes.exists_ st = Eff.Return true →
       Classes.this_stream st = Some ws →
       JS.truthy (JS.get (Classes.delete_parsedOptions st options) "autoClose") = false →
       Classes.delete options st
       = (Eff.Throw (JS.Error "Write stream is not closed"), st)
       ∧ Eff.result Classes.exists_ (Eff.final (Classes.delete options) st)
         = Eff.Return true)
  ∧ (∀ (options : JS.obj) (st : Classes.state) (ws : Node.WriteStream) (f c : string),
       JS.get (Classes.this_options st) "file" = JS.VString f →
       Node.files (Classes.world st)
         !! Node.resolve (Node.cwd (Classes.world st)) [f] = Some c →
       Classes.this_stream st = Some ws →
       JS.truthy (JS.get (Classes.delete_parsedOptions st options) "autoClose") = true →
       let st' := Eff.final (Classes.delete options) st in
       Eff.result (Classes.delete options) st = Eff.Return Classes.This
       ∧ Classes.this_stream st' = None
       ∧ Node.files (Classes.world st')
         = delete (Node.resolve (Node.cwd (Classes.world st)) [f])
                  (Node.files (Classes.world st))
       ∧ Node.files (Classes.world st')
           !! Node.resolve (Node.cwd (Classes.world st)) [f] = None
       ∧ Classes.name <$> Classes.emitted st'
         = (Classes.name <$> Classes.emitted st)
             ++ ["beforeClose"; "close"; "beforeDelete"; "delete"])
  ∧ (∀ (options : JS.obj) (st : Part000.state),
       Eff.result Part000.exists_ st = Eff.Return false →
       Part000.delete options st = (Eff.Return Part000.This, st))
  ∧ (∀ (options : JS.obj) (st : Part000.state),
       Eff.result Part000.exists_ st = Eff.Return true →
       Eff.result Part000.online st = Eff.Return true →
       JS.truthy (JS.get (Part000.override_of st options) "automaticClose") = false →
       Part000.delete options st
       = (Eff.Throw (JS.Error "Cannot delete the log while the write stream is online"),
          st)
       ∧ Eff.result Part000.exists_ (Eff.final (Part000.delete options) st)
         = Eff.Return true)
  ∧ (∀ (options : JS.obj) (st : Part000.state) (ws : Node.WriteStream) (p c : string),
       Part000.file_ st = JS.VString p →
       Node.files (Part000.world st) !! p = Some c →
       Part000.stream_ st = Some ws →
       Node.destroyed ws = false →
       JS.truthy (JS.get (Part000.override_of st options) "automaticClose") = true →
       let st' := Eff.final (Part000.delete options) st in
       Eff.result (Part000.delete options) st = Eff.Return Part000.This
       ∧ Eff.result Part000.online st' = Eff.Return false
       ∧ Node.files (Part000.world st') = delete p (Node.files (Part000.world st))
       ∧ Node.files (Part000.world st') !! p = None
       ∧ Part000.emitted st' = Part000.emitted st ++ ["beforeClose"; "delete"]).
Proof.
  split; [apply classes_delete_missing |].
  split.
  { intros options st ws Hex Hws Hflag.
    pose proof (classes_delete_open_stream options st ws Hex Hws Hflag) as Hrun.
    split; [done |]. unfold Eff.final. by rewrite Hrun. }
  split.
  { intros options st ws f c Hfile Hc Hws Hflag st'.
    pose proof (classes_delete_auto_close options st ws f c Hfile Hc Hws Hflag) as Hrun.
    subst st'. unfold Eff.final, Eff.result. rewrite Hrun. cbn.
    split; [done | split; [done | split; [done | split]]].
    - apply lookup_delete_eq.
    - rewrite fmap_app. reflexivity. }
  split; [apply part000_delete_missing |].
  split.
  { intros options st Hex Hon Hflag.
    pose proof (part000_delete_online options st Hex Hon Hflag) as Hrun.
    split; [done |]. unfold Eff.final. by rewrite Hrun. }
  intros options st ws p c Hfile Hc Hws Hlive Hflag st'.
  pose proof (part000_delete_auto_close options st ws p c Hfile Hc Hws Hlive Hflag) as Hrun.
  subst st'. unfold Eff.final, Eff.result. rewrite Hrun. cbn.
  split; [done | split; [done | split; [done | split; [| done]]]].
  apply lookup_delete_eq.
Qed.

(** A witness of C2: the six cases on concrete instances. *)
Lemma C2_delete_witness :
  Classes.delete ∅ (Scenario.classes_log ∅ Scenario.bare)
  = (Eff.Throw (JS.Error "Log file does not exist"),
     Scenario.classes_log ∅ Scenario.bare)
  ∧ Classes.delete ∅ (Scenario.classes_log_open ∅ Scenario.disk)
    = (Eff.Throw (JS.Error "Write stream is not closed"),
       Scenario.classes_log_open ∅ Scenario.disk)
  ∧ Eff.result
      (Classes.delete {[ "autoClose" := JS.VBool true ]})
      (Scenario.classes_log_open ∅ Scenario.disk)
    = Eff.Return Classes.This
  ∧ Part000.delete ∅ (Scenario.part000_log ∅ Scenario.bare)
    = (Eff.Return Part000.This, Scenario.part000_log ∅ Scenario.bare)
  ∧ Part000.delete {[ "automaticClose" := JS.VBool false ]}
      (Scenario.part000_log_open ∅ Scenario.disk)
    = (Eff.Throw (JS.Error "Cannot delete the log while the write stream is online"),
       Scenario.part000_log_open ∅ Scenario.disk)
  ∧ Eff.result (Part000.delete ∅) (Scenario.part000_log_open ∅ Scenario.disk)
    = Eff.Return Part000.This.
Proof.
  destruct C2_delete as (H1 & H2 & H3 & H4 & H5 & H6).
  split; [apply H1; vm_compute; reflexivity |].
  split.
  { eapply (H2 ∅ (Scenario.classes_log_open ∅ Scenario.disk)); vm_compute; reflexivity. }
  split.
  { eapply (H3 {[ "autoClose" := JS.VBool true ]}
              (Scenario.classes_log_open ∅ Scenario.disk) _ "logs/latest.log" "started");
      vm_compute; reflexivity. }
  split; [apply H4; vm_compute; reflexivity |].
  split.
  { eapply (H5 {[ "automaticClose" := JS.VBool false ]}
              (Scenario.part000_log_open ∅ Scenario.disk)); vm_compute; reflexivity. }
  eapply (H6 ∅ (Scenario.part000_log_open ∅ Scenario.disk) _
            "/srv/logs/latest.log" "started"); vm_compute; reflexivity.
Defined.


(** ** [open] *)
Section OpenFacts.
Import JS Node Eff.

Lemma classes_content_run (st : Classes.state) :
  Classes.content st
  = (match get (Classes.this_options st) "file" with
     | VString f =>
         match readFileSync (Classes.world st) (resolve (cwd (Classes.world st)) [f]) with
         | inl c => Return c
         | inr e => Throw e
         end
     | _ => Throw (TypeError "ERR_INVALID_ARG_TYPE")
     end, st).
Proof.
  unfold Classes.content.
  unfold bind at 1. rewrite classes_file_run.
  destruct (get (Classes.this_options st) "file"); try reflexivity.
  run. unfold lift. by destruct (readFileSync _ _).
Qed.

(** Emptying a file and writing its former content back restores the
    files. *)
Lemma rewrite_restores (m : gmap string string) (p c : string) :
  m !! p = Some c → <[ p := "" +:+ c ]> (<[ p := "" ]> m) = m.
Proof. intros H. rewrite insert_insert_eq, append_nil_l. by apply insert_id. Qed.

Lemma classes_open_existing (options : obj) (st : Classes.state) (f c : string) :
  get (Classes.this_options st) "file" = VString f →
  files (Classes.world st) !! resolve (cwd (Classes.world st)) [f] = Some c →
  Classes.this_stream st = None →
  let p := resolve (cwd (Classes.world st)) [f] in
  let parsedOptions := Classes.open_parsedOptions st options in
  let kept := if truthy (get parsedOptions "truncate") then "" else c in
  Classes.open options st
  = (Return Classes.This,
     {| Classes.this_options := Classes.this_options st;
        Classes.this_stream := Some {| path := p; destroyed := false |};
        Classes.heap := Classes.heap st;
        Classes.world :=
          with_files (Classes.world st)
            (<[ p := "" +:+ kept ]> (<[ p := "" ]> (files (Classes.world st))));
        Classes.emitted :=
          Classes.emitted st
            ++ [ Classes.Build_event "beforeOpen" [Classes.PObject parsedOptions];
                 Classes.Build_event "open" [Classes.PObject parsedOptions] ] |}).
Proof.
  intros Hfile Hc Hws p parsedOptions kept.
  subst parsedOptions kept. unfold Classes.open_parsedOptions.
  destruct st as [this_options this_stream heap world emitted].
  cbn in Hfile, Hc, Hws. subst this_stream.
  set (st := Classes.Build_state _ _ _ _ _) in *.
  unfold Classes.open. run.
  rewrite (bind_return _ _ st st true).
  2:{ rewrite classes_exists_run. cbn -[resolve]. rewrite Hfile.
      by erewrite existsSync_file. }
  cbn [negb]. run. cbn [Classes.this_stream st].
  unfold Classes.emit. run.
  change (Classes.this_options st) with this_options.
  destruct (truthy (get (assign _ [this_options; options]) "truncate")) eqn:Htr.
  - run. erewrite bind_return;
      [| rewrite classes_file_run; cbn -[resolve]; rewrite Hfile; reflexivity].
    run. unfold createWriteStream, open_w.
    cbn -[resolve]. erewrite is_file_lookup by done.
    run. unfold Classes.stream_write. run. cbn -[resolve].
    unfold append. cbn -[resolve]. rewrite lookup_insert_eq.
    unfold pure. cbn -[resolve]. rewrite <- !app_assoc. reflexivity.
  - erewrite bind_return;
      [| rewrite classes_content_run; cbn -[resolve]; rewrite Hfile;
         unfold readFileSync; cbn -[resolve]; rewrite Hc; reflexivity].
    erewrite bind_return;
      [| rewrite classes_file_run; cbn -[resolve]; rewrite Hfile; reflexivity].
    run. unfold createWriteStream, open_w.
    cbn -[resolve]. erewrite is_file_lookup by done.
    run. unfold Classes.stream_write. run. cbn -[resolve].
    unfold append. cbn -[resolve]. rewrite lookup_insert_eq.
    unfold pure. cbn -[resolve]. rewrite <- !app_assoc. reflexivity.
Qed.

Lemma part000_open_existing (options : obj) (st : Part000.state) (p c : string) :
  Part000.file_ st = VString p →
  files (Part000.world st) !! p = Some c →
  result Part000.online st = Return false →
  Part000.open options st
  = (Return Part000.This,
     {| Part000.file_ := Part000.file_ st;
        Part000.formatter := Part000.formatter st;
        Part000.logger := Part000.logger st;
        Part000.options_ := Part000.options_ st;
        Part000.stream_ := Some {| path := p; destroyed := false |};
        Part000.world :=
          with_files (Part000.world st) (<[ p := "" ]> (files (Part000.world st)));
        Part000.emitted := Part000.emitted st ++ ["beforeOpen"] |}).
Proof.
  intros Hfile Hc Hon. unfold result in Hon. rewrite part000_online_run in Hon.
  cbn in Hon. injection Hon as Hon.
  destruct st as [file_ formatter logger options_ stream_ world emitted].
  cbn in Hfile, Hc, Hon. subst file_.
  set (st := Part000.Build_state _ _ _ _ _ _ _) in *.
  unfold Part000.open, Part000.options. run.
  rewrite (bind_return _ _ st st true).
  2:{ rewrite part000_exists_run. cbn. by erewrite existsSync_file. }
  cbn [negb]. run.
  rewrite (bind_return _ _ st st false).
  2:{ rewrite part000_online_run. cbn. by rewrite Hon. }
  unfold Part000.emit, Part000.file, Part000.as_path. run. cbn.
  run. unfold createWriteStream, open_w. cbn.
  erewrite is_file_lookup by done. run. reflexivity.
Qed.

End OpenFacts.

(** ** [open] and [close] of [src/classes/Log.js] and the event loop *)
Section DeferredFacts.
Import JS Node Eff.

Lemma deferred_on_this_run {A} (m : Classes.M A) (st : Deferred.state)
    (r : outcome A) (l : Classes.state) :
  m (Deferred.this st) = (r, l) →
  Deferred.on_this m st
  = (r, {| Deferred.this := l; Deferred.requests := Deferred.requests st |}).
Proof. intros H. unfold Deferred.on_this. by rewrite H. Qed.

Lemma deferred_turn_run (st : Deferred.state) :
  Deferred.turn st
  = match Deferred.serve_all (Deferred.requests st) (Classes.world (Deferred.this st)) with
    | inl h' =>
        (Return (),
         {| Deferred.this := Classes.set_world h' (Deferred.this st);
            Deferred.requests := [] |})
    | inr e => (Throw e, st)
    end.
Proof.
  destruct st as [l rs]. unfold Deferred.turn. cbn.
  cbv beta iota zeta delta [bind gets Deferred.on_this Deferred.this Deferred.requests
                            fst snd].
  destruct (Deferred.serve_all rs (Classes.world l)); reflexivity.
Qed.

Lemma deferred_close_run (st : Deferred.state) (ws : WriteStream) :
  Classes.this_stream (Deferred.this st) = Some ws →
  Deferred.close st
  = (Return Classes.This,
     {| Deferred.this :=
          {| Classes.this_options := Classes.this_options (Deferred.this st);
             Classes.this_stream := None;
             Classes.heap := Classes.heap (Deferred.this st);
             Classes.world := Classes.world (Deferred.this st);
             Classes.emitted :=
               Classes.emitted (Deferred.this st)
                 ++ [ Classes.Build_event "beforeClose" [Classes.PStream ws];
                      Classes.Build_event "close" [Classes.PStream (destroy ws)] ] |};
        Deferred.requests := List.filter Deferred.kept (Deferred.requests st) |}).
Proof.
  intros Hws. destruct st as [[o s hp w em] rs]. cbn in Hws. subst s.
  unfold Deferred.close.
  cbv beta iota zeta delta
    [bind gets modify pure Deferred.on_this Deferred.this Deferred.requests
     Deferred.stream_destroy Deferred.set_requests Classes.emit Classes.set_emitted
     Classes.set_stream Classes.this_stream Classes.this_options Classes.heap
     Classes.world Classes.emitted fst snd fmap option_fmap option_map].
  by rewrite <- app_assoc.
Qed.

Lemma deferred_bind_on_this {A B} (m : Classes.M A) (k : A → Deferred.M B)
    (l : Classes.state) (rs : list Deferred.request) :
  bind (Deferred.on_this m) k {| Deferred.this := l; Deferred.requests := rs |}
  = match m l with
    | (Return a, l') => k a {| Deferred.this := l'; Deferred.requests := rs |}
    | (Throw e, l') => (Throw e, {| Deferred.this := l'; Deferred.requests := rs |})
    end.
Proof.
  unfold bind, Deferred.on_this. cbn [Deferred.this Deferred.requests].
  by destruct (m l) as [[a|e] l'].
Qed.

Lemma deferred_open_existing (options : obj) (st : Deferred.state) (f c : string) :
  get (Classes.this_options (Deferred.this st)) "file" = VString f →
  let p := resolve (cwd (Classes.world (Deferred.this st))) [f] in
  files (Classes.world (Deferred.this st)) !! p = Some c →
  Classes.this_stream (Deferred.this st) = None →
  let parsedOptions := Classes.open_parsedOptions (Deferred.this st) options in
  let kept := if truthy (get parsedOptions "truncate") then "" else c in
  Deferred.open options st
  = (Return Classes.This,
     {| Deferred.this :=
          {| Classes.this_options := Classes.this_options (Deferred.this st);
             Classes.this_stream := Some {| path := p; destroyed := false |};
             Classes.heap := Classes.heap (Deferred.this st);
             Classes.world := Classes.world (Deferred.this st);
             Classes.emitted :=
               Classes.emitted (Deferred.this st)
                 ++ [ Classes.Build_event "beforeOpen" [Classes.PObject parsedOptions];
                      Classes.Build_event "open" [Classes.PObject parsedOptions] ] |};
        Deferred.requests :=
          Deferred.requests st
            ++ [Deferred.Opening p; Deferred.Writing false p kept] |}).
Proof.
  intros Hfile p Hc Hws parsedOptions kept. subst parsedOptions kept p.
  unfold Classes.open_parsedOptions.
  destruct st as [[o s hp w em] rs]. cbn in Hfile, Hc, Hws. subst s.
  cbn [Deferred.this Deferred.requests Classes.this_options Classes.world
       Classes.heap Classes.emitted].
  set (po := assign _ [o; options]).
  set (p := resolve (cwd w) [f]) in *.
  assert (∀ em', Classes.exists_ (Classes.Build_state o None hp w em')
                 = (Return true, Classes.Build_state o None hp w em')) as Hex.
  { intros em'. rewrite classes_exists_run. cbn -[resolve]. rewrite Hfile.
    fold p. by erewrite existsSync_file. }
  assert (∀ s' em', Classes.file (Classes.Build_state o s' hp w em')
                    = (Return p, Classes.Build_state o s' hp w em')) as Hf.
  { intros s' em'. rewrite classes_file_run. cbn -[resolve]. by rewrite Hfile. }
  assert (∀ em', Classes.content (Classes.Build_state o None hp w em')
                 = (Return c, Classes.Build_state o None hp w em')) as Hcontent.
  { intros em'. rewrite classes_content_run. cbn -[resolve]. rewrite Hfile.
    unfold readFileSync. cbn -[resolve]. fold p. by rewrite Hc. }
  unfold Deferred.open.
  rewrite deferred_bind_on_this. cbn [gets Classes.this_options]. fold po.
  rewrite deferred_bind_on_this, Hex. cbn [negb]. rewrite bind_pure.
  rewrite deferred_bind_on_this. cbn [gets Classes.this_stream].
  rewrite deferred_bind_on_this. unfold Classes.emit at 1.
  unfold modify at 1, Classes.set_emitted at 1.
  cbn [Classes.this_options Classes.this_stream Classes.heap Classes.world
       Classes.emitted].
  assert (∀ (k : string → Deferred.M Classes.returned) em',
            bind (if truthy (get po "truncate") then pure ""
                  else Deferred.on_this Classes.content) k
                 {| Deferred.this := Classes.Build_state o None hp w em';
                    Deferred.requests := rs |}
            = k (if truthy (get po "truncate") then "" else c)
                {| Deferred.this := Classes.Build_state o None hp w em';
                   Deferred.requests := rs |}) as Hread.
  { intros k em'. destruct (truthy (get po "truncate")); [reflexivity |].
    by rewrite deferred_bind_on_this, Hcontent. }
  rewrite Hread. rewrite deferred_bind_on_this, Hf.
  unfold Deferred.createWriteStream, Deferred.queue. run.
  unfold Deferred.set_requests at 1. cbn [Deferred.this Deferred.requests].
  rewrite deferred_bind_on_this.
  unfold modify at 1, Classes.set_stream at 1.
  cbn [Classes.this_options Classes.this_stream Classes.heap Classes.world
       Classes.emitted].
  unfold Deferred.stream_write. rewrite bind_bind, deferred_bind_on_this.
  cbn [gets Classes.this_stream destroyed path]. run.
  unfold Deferred.queue. run.
  unfold Deferred.set_requests at 1. cbn [Deferred.this Deferred.requests].
  rewrite deferred_bind_on_this. unfold Classes.emit, modify, Classes.set_emitted.
  cbn [Classes.this_options Classes.this_stream Classes.heap Classes.world
       Classes.emitted].
  unfold pure. rewrite <- !app_assoc. cbn [app].
  replace (Deferred.idle (rs ++ [Deferred.Opening p])) with false
    by (by destruct rs).
  reflexivity.
Qed.

Lemma serve_opening (h : host) (p c : string) :
  files h !! p = Some c →
  Deferred.serve_all [Deferred.Opening p] h
  = inl (with_files h (<[ p := "" ]> (files h))).
Proof.
  intros Hc. cbn. unfold open_w. by erewrite is_file_lookup.
Qed.

Lemma serve_opening_writing (h : host) (p c chunk : string) (issued : bool) :
  files h !! p = Some c →
  Deferred.serve_all [Deferred.Opening p; Deferred.Writing issued p chunk] h
  = inl (with_files h (<[ p := chunk ]> (files h))).
Proof.
  intros Hc. cbn. unfold open_w. erewrite is_file_lookup by done.
  cbn. rewrite lookup_insert_eq, insert_insert_eq. by rewrite append_nil_l.
Qed.

Lemma with_files_same (h : host) : with_files h (files h) = h.
Proof. by destruct h. Qed.

End DeferredFacts.


(** C5, as stated, fails on [src/unnamed/part_000]: [open] with
    [truncate: false] on an existing file holding "started", followed
    by [close], leaves the file empty. *)
Lemma C5_counterexample :
  let st := Scenario.part000_log ∅ Scenario.disk in
  let options : JS.obj := {[ "truncate" := JS.VBool false ]} in
  let st1 := Eff.final (Part000.open options) st in
  let st2 := Eff.final (Part000.close ∅) st1 in
  Eff.result Part000.content st = Eff.Return "started"
  ∧ JS.truthy (JS.get (Part000.override_of st options) "truncate") = false
  ∧ Eff.result (Part000.open options) st = Eff.Return Part000.This
  ∧ Eff.result Part000.content st2 = Eff.Return ""
  ∧ Eff.result Part000.content st2 ≠ Eff.result Part000.content st.
Proof. repeat split; try (vm_compute; reflexivity). vm_compute. discriminate. Qed.

(** C5, amended.
    [src/classes/Log.js], for a log whose file exists, whose stream is
    closed, and with nothing of an earlier stream still on its way to
    the file: [open] queues the opening of the file and, behind it, the
    text to write back (the content read before opening when [truncate]
    is falsy in the merged options, nothing when it is truthy), and the
    file is as it was until the event loop turns.  Once the loop has
    turned with the stream still open, the file holds, with [truncate]
    falsy, the content it had before [open] (content of ASCII
    characters, which the decoding of the read and the encoding of the
    write leave as they are), and still holds it after a [close] that
    follows; with [truncate] truthy the file is empty.
    [src/unnamed/part_000] has no [truncate] option: for a log whose file
    exists and whose stream is not online, [open] leaves the file empty
    whatever the options. *)
Theorem C5_open_content :
  (∀ (options : JS.obj) (st : Deferred.state) (f c : string),
     JS.get (Classes.this_options (Deferred.this st)) "file" = JS.VString f →
     Node.files (Classes.world (Deferred.this st))
       !! Node.resolve (Node.cwd (Classes.world (Deferred.this st))) [f] = Some c →
     JS.ascii_only c = true →
     Classes.this_stream (Deferred.this st) = None →
     Deferred.requests st = [] →
     JS.truthy (JS.get (Classes.open_parsedOptions (Deferred.this st) options) "truncate")
     = false →
     let st1 := Eff.final (Deferred.open options) st in
     let st2 := Eff.final Deferred.turn st1 in
     let st3 := Eff.final Deferred.close st2 in
     let st4 := Eff.final Deferred.turn st3 in
     Eff.result (Deferred.open options) st = Eff.Return Classes.This
     ∧ Classes.world (Deferred.this st1) = Classes.world (Deferred.this st)
     ∧ Eff.result Deferred.turn st1 = Eff.Return ()
     ∧ Classes.world (Deferred.this st2) = Classes.world (Deferred.this st)
     ∧ Eff.result (Deferred.on_this Classes.content) st2 = Eff.Return c
     ∧ Eff.result Deferred.close st2 = Eff.Return Classes.This
     ∧ Eff.result Deferred.turn st3 = Eff.Return ()
     ∧ Classes.this_stream (Deferred.this st4) = None
     ∧ Classes.world (Deferred.this st4) = Classes.world (Deferred.this st)
     ∧ Eff.result (Deferred.on_this Classes.content) st4 = Eff.Return c)
  ∧ (∀ (options : JS.obj) (st : Deferred.state) (f c : string),
       JS.get (Classes.this_options (Deferred.this st)) "file" = JS.VString f →
       Node.files (Classes.world (Deferred.this st))
         !! Node.resolve (Node.cwd (Classes.world (Deferred.this st))) [f] = Some c →
       Classes.this_stream (Deferred.this st) = None →
       Deferred.requests st = [] →
       JS.truthy (JS.get (Classes.open_parsedOptions (Deferred.this st) options) "truncate")
       = true →
       let st1 := Eff.final (Deferred.open options) st in
       let st2 := Eff.final Deferred.turn st1 in
       Eff.result (Deferred.open options) st = Eff.Return Classes.This
       ∧ Classes.world (Deferred.this st1) = Classes.world (Deferred.this st)
       ∧ Eff.result Deferred.turn st1 = Eff.Return ()
       ∧ Node.files (Classes.world (Deferred.this st2))
         = <[ Node.resolve (Node.cwd (Classes.world (Deferred.this st))) [f] := "" ]>
             (Node.files (Classes.world (Deferred.this st)))
       ∧ Eff.result (Deferred.on_this Classes.content) st2 = Eff.Return "")
  ∧ (∀ (options : JS.obj) (st : Part000.state) (p c : string),
       Part000.file_ st = JS.VString p →
       Node.files (Part000.world st) !! p = Some c →
       Eff.result Part000.online st = Eff.Return false →
       let st1 := Eff.final (Part000.open options) st in
       Eff.result (Part000.open options) st = Eff.Return Part000.This
       ∧ Node.files (Part000.world st1) = <[ p := "" ]> (Node.files (Part000.world st))
       ∧ Eff.result Part000.content st1 = Eff.Return "").
Proof.
  assert (∀ (l l' : Classes.state) (f c : string),
            JS.get (Classes.this_options l) "file" = JS.VString f →
            Node.files (Classes.world l)
              !! Node.resolve (Node.cwd (Classes.world l)) [f] = Some c →
            Classes.this_options l' = Classes.this_options l →
            Classes.world l' = Classes.world l →
            Classes.content l' = (Eff.Return c, l')) as Hcontent.
  { intros l l' f c Hfile Hc Ho Hw. rewrite classes_content_run, Ho, Hw, Hfile.
    unfold Node.readFileSync. by rewrite Hc. }
  split; [| split].
  - intros options [l rs] f c Hfile Hc _ Hws Hrs Htr. cbn in Hfile, Hc, Hws, Hrs. subst rs.
    cbn [Deferred.this] in Htr.
    pose proof (deferred_open_existing options (Deferred.Build_state l []) f c
                  Hfile Hc Hws) as Hopen.
    cbv zeta in Hopen. cbn [Deferred.this Deferred.requests] in Hopen.
    rewrite Htr in Hopen. cbn [app] in Hopen.
    cbv zeta. unfold Eff.result, Eff.final. rewrite Hopen. cbn [fst snd].
    rewrite deferred_turn_run. cbn [Deferred.this Deferred.requests Classes.world].
    rewrite (serve_opening_writing _ _ c) by done.
    rewrite insert_id by done. rewrite with_files_same.
    cbn [fst snd]. unfold Classes.set_world at 1 2 3 4 5 6.
    cbn [Classes.this_options Classes.this_stream Classes.heap Classes.world
         Classes.emitted].
    set (ws := Node.Build_WriteStream _ false).
    erewrite (deferred_close_run _ ws) by reflexivity.
    cbn [fst snd Deferred.this Deferred.requests List.filter Classes.this_options
         Classes.this_stream Classes.heap Classes.world Classes.emitted].
    rewrite deferred_turn_run.
    cbn [fst snd Deferred.this Deferred.requests Deferred.serve_all Classes.world].
    unfold Classes.set_world.
    cbn [fst snd Deferred.this Classes.this_options Classes.this_stream Classes.heap
         Classes.world Classes.emitted].
    repeat split.
    + erewrite deferred_on_this_run; [reflexivity |].
      by apply (Hcontent l _ f c).
    + erewrite deferred_on_this_run; [reflexivity |].
      by apply (Hcontent l _ f c).
  - intros options [l rs] f c Hfile Hc Hws Hrs Htr. cbn in Hfile, Hc, Hws, Hrs. subst rs.
    cbn [Deferred.this] in Htr.
    pose proof (deferred_open_existing options (Deferred.Build_state l []) f c
                  Hfile Hc Hws) as Hopen.
    cbv zeta in Hopen. cbn [Deferred.this Deferred.requests] in Hopen.
    rewrite Htr in Hopen. cbn [app] in Hopen.
    cbv zeta. unfold Eff.result, Eff.final. rewrite Hopen. cbn [fst snd].
    rewrite deferred_turn_run. cbn [Deferred.this Deferred.requests Classes.world].
    rewrite (serve_opening_writing _ _ c) by done.
    cbn [fst snd]. unfold Classes.set_world.
    cbn [Deferred.this Classes.this_options Classes.this_stream Classes.heap
         Classes.world Classes.emitted Node.files Node.with_files].
    repeat split.
    erewrite deferred_on_this_run; [reflexivity |].
    rewrite classes_content_run.
    cbn [Deferred.this Classes.this_options Classes.world Node.cwd Node.with_files].
    rewrite Hfile. unfold Node.readFileSync.
    cbn [Node.files Node.with_files]. by rewrite lookup_insert_eq.
  - intros options st p c Hfile Hc Hon st1.
    pose proof (part000_open_existing options st p c Hfile Hc Hon) as Hrun.
    assert (st1 = snd (Part000.open options st)) as Hst1 by reflexivity.
    rewrite Hrun in Hst1. cbn [snd] in Hst1.
    unfold Eff.result. rewrite Hrun.
    split; [done |]. split; [by rewrite Hst1 |].
    rewrite Hst1. unfold Part000.content, Part000.file, Part000.as_path. run.
    cbn. rewrite Hfile. run. cbn. unfold Node.readFileSync. cbn.
    by rewrite lookup_insert_eq.
Qed.

(** A witness of C5: the default instance of [src/classes/Log.js]
    ([truncate: false]) and one opened with [truncate: true], and the
    instance of [src/unnamed/part_000], on the host whose log file holds
    "started". *)
Lemma C5_open_content_witness :
  let st := {| Deferred.this := Scenario.classes_log ∅ Scenario.disk;
               Deferred.requests := [] |} in
  let opened := Eff.final Deferred.turn (Eff.final (Deferred.open ∅) st) in
  let closed := Eff.final Deferred.turn (Eff.final Deferred.close opened) in
  let emptied :=
    Eff.final Deferred.turn
      (Eff.final (Deferred.open {[ "truncate" := JS.VBool true ]}) st) in
  (Eff.result (Deferred.on_this Classes.content) opened = Eff.Return "started"
   ∧ Classes.world (Deferred.this closed) = Scenario.disk
   ∧ Eff.result (Deferred.on_this Classes.content) closed = Eff.Return "started")
  ∧ Eff.result (Deferred.on_this Classes.content) emptied = Eff.Return ""
  ∧ Eff.result Part000.content
      (Eff.final (Part000.open {[ "truncate" := JS.VBool false ]})
         (Scenario.part000_log ∅ Scenario.disk))
    = Eff.Return "".
Proof.
  intros st. destruct C5_open_content as (H1 & H2 & H3).
  split; [| split].
  - destruct (H1 ∅ st "logs/latest.log" "started")
      as (_ & _ & _ & _ & Hc2 & _ & _ & _ & Hw4 & Hc4);
      [vm_compute; reflexivity .. |].
    split; [exact Hc2 | split; [exact Hw4 | exact Hc4]].
  - destruct (H2 {[ "truncate" := JS.VBool true ]} st "logs/latest.log" "started")
      as (_ & _ & _ & _ & Hc2); [vm_compute; reflexivity .. |].
    exact Hc2.
  - eapply (H3 {[ "truncate" := JS.VBool false ]}
              (Scenario.part000_log ∅ Scenario.disk) "/srv/logs/latest.log" "started");
      vm_compute; reflexivity.
Defined.


(** ** Paths *)
Section PathFacts.
Import JS Node Eff.

Lemma segments_no_slash (s : string) :
  Forall (λ x, occurs slash x = false) (segments s).
Proof.
  induction s as [|c r IH]; cbn [segments].
  - by repeat constructor.
  - destruct (Ascii.eqb c slash) eqn:Hc.
    + by constructor.
    + destruct (segments r) as [|x xs].
      * repeat constructor. cbn [occurs]. by rewrite Ascii.eqb_sym, Hc.
      * inversion IH; subst. constructor; [| done].
        cbn [occurs]. by rewrite Ascii.eqb_sym, Hc.
Qed.

Lemma normalize_proper (stack segs : list string) :
  Forall Spec.proper_segment stack →
  Forall (λ x, occurs slash x = false) segs →
  Forall Spec.proper_segment (normalize stack segs).
Proof.
  revert stack. induction segs as [|s rest IH]; intros stack Hstack Hsegs;
    cbn [normalize].
  - by apply Forall_reverse.
  - inversion Hsegs as [|? ? Hs Hrest]; subst.
    destruct (String.eqb_spec s "") as [->|Hne]; [by apply IH |].
    destruct (String.eqb_spec s ".") as [->|Hnd]; [by apply IH |].
    cbn [orb].
    destruct (String.eqb_spec s "..") as [->|Hndd].
    + apply IH; [| done]. destruct stack; [done |]. by inversion Hstack.
    + apply IH; [| done]. by constructor.
Qed.

(** [path.resolve] answers an absolute, normalized location. *)
Lemma resolve_absolute_normalized (cwd : string) (paths : list string) :
  Spec.absolute_normalized (resolve cwd paths).
Proof.
  unfold resolve. eexists. split; [reflexivity |].
  apply normalize_proper; [constructor | apply segments_no_slash].
Qed.

(** An absolute last argument makes the working directory irrelevant. *)
Lemma resolve_absolute_input (cwd cwd' f : string) :
  startsWith "/" f = true → resolve cwd [f] = resolve cwd' [f].
Proof.
  intros Habs. unfold resolve. cbn [reverse rev_append resolve_loop].
  change (reverse [f]) with [f]. cbn [resolve_loop].
  destruct (String.eqb_spec f "") as [->|_]; [done |].
  by rewrite Habs.
Qed.

(** No method of [src/unnamed/part_000] touches [#file]; only the
    setter does. *)
Lemma part000_keeps_emit {T} (proj : Part000.state → T) (name : string) :
  (∀ l st, proj (Part000.set_emitted l st) = proj st) →
  keeps proj (Part000.emit name).
Proof. intros H st. apply H. Qed.

Lemma keeps_file_emit (name : string) : keeps Part000.file_ (Part000.emit name).
Proof. by apply part000_keeps_emit. Qed.

Lemma keeps_file_fs_update (f : host → host + error) :
  keeps Part000.file_ (Part000.fs_update f).
Proof. unfold Part000.fs_update. frame. Qed.

Lemma keeps_file_exists : keeps Part000.file_ Part000.exists_.
Proof. by intros st. Qed.

Lemma keeps_file_online : keeps Part000.file_ Part000.online.
Proof. by intros st. Qed.

Lemma keeps_file_options : keeps Part000.file_ Part000.options.
Proof. by intros st. Qed.

Lemma keeps_file_file : keeps Part000.file_ Part000.file.
Proof. by intros st. Qed.

Lemma keeps_file_as_path (v : value) : keeps Part000.file_ (Part000.as_path v).
Proof. by destruct v. Qed.

Hint Resolve keeps_file_emit keeps_file_fs_update keeps_file_exists
  keeps_file_online keeps_file_options keeps_file_file keeps_file_as_path : frame.

Lemma keeps_file_create (options : obj) :
  keeps Part000.file_ (Part000.create options).
Proof. unfold Part000.create. frame. Qed.
Hint Resolve keeps_file_create : frame.

Lemma keeps_file_close (options : obj) :
  keeps Part000.file_ (Part000.close options).
Proof. unfold Part000.close, Part000.stream. frame. Qed.
Hint Resolve keeps_file_close : frame.

Lemma keeps_file_delete (options : obj) :
  keeps Part000.file_ (Part000.delete options).
Proof. unfold Part000.delete. frame. Qed.

Lemma keeps_file_open (options : obj) :
  keeps Part000.file_ (Part000.open options).
Proof.
  unfold Part000.open. frame.
Qed.

Lemma keeps_file_set_options (options : Part000.any) :
  keeps Part000.file_ (Part000.set_options options).
Proof.
  unfold Part000.set_options. destruct options as [o|v]; [by intros st |].
  destruct (_ || _); by intros st.
Qed.

End PathFacts.


(** C7, as stated, fails on [src/classes/Log.js]: the getter [file]
    resolves [options.file] at every read, so with the relative default
    two reads on either side of a change of working directory differ,
    although nothing was reassigned. *)
Lemma C7_counterexample :
  let st := Scenario.classes_log ∅ Scenario.disk in
  let st' := Classes.set_world (Node.chdir (Classes.world st) "/var") st in
  Classes.this_options st' = Classes.this_options st
  ∧ Eff.result Classes.file st = Eff.Return "/srv/logs/latest.log"
  ∧ Eff.result Classes.file st' = Eff.Return "/var/logs/latest.log"
  ∧ Eff.result Classes.file st' ≠ Eff.result Classes.file st.
Proof. repeat split; try reflexivity. vm_compute. discriminate. Qed.

(** C7, amended.
    [src/unnamed/part_000]: the path is computed when it is assigned, at
    construction or by the setter, by resolving the input against the
    working directory of that moment; what is stored is an absolute,
    normalized location, and every later read returns it, whatever the
    working directory has become and whichever of [create], [open],
    [close], [delete] or an options assignment ran in between.
    [src/classes/Log.js]: what is stored is the input as supplied; every
    read resolves it against the working directory at the time of the
    read.  The value read is absolute and normalized, and it does not
    depend on the working directory when the stored input is absolute. *)
Theorem C7_path :
  (∀ (st : Part000.state) (f : string),
     let p := Node.resolve (Node.cwd (Part000.world st))
                [Node.cwd (Part000.world st); f] in
     Part000.set_file (JS.VString f) st
     = (Eff.Return (), Part000.set_file_ (JS.VString p) st)
     ∧ Eff.result Part000.file (Part000.set_file_ (JS.VString p) st)
       = Eff.Return (JS.VString p)
     ∧ Spec.absolute_normalized p)
  ∧ (∀ (f : string) (options : Part000.any) (h : Node.host),
       fst (Part000.constructor (JS.VString f) options h) = Eff.Return () →
       Part000.file_ (snd (Part000.constructor (JS.VString f) options h))
       = JS.VString (Node.resolve (Node.cwd h) [Node.cwd h; f]))
  ∧ (∀ (st : Part000.state) (d : string),
       Eff.result Part000.file
         (Part000.set_world (Node.chdir (Part000.world st) d) st)
       = Eff.result Part000.file st)
  ∧ (∀ (st : Part000.state) (options : JS.obj) (o : Part000.any),
       Eff.result Part000.file (Eff.final (Part000.create options) st)
       = Eff.result Part000.file st
       ∧ Eff.result Part000.file (Eff.final (Part000.open options) st)
         = Eff.result Part000.file st
       ∧ Eff.result Part000.file (Eff.final (Part000.close options) st)
         = Eff.result Part000.file st
       ∧ Eff.result Part000.file (Eff.final (Part000.delete options) st)
         = Eff.result Part000.file st
       ∧ Eff.result Part000.file (Eff.final (Part000.set_options o) st)
         = Eff.result Part000.file st)
  ∧ (∀ (st : Classes.state) (f : string),
       JS.get (Classes.this_options st) "file" = JS.VString f →
       Eff.result Classes.file st
       = Eff.Return (Node.resolve (Node.cwd (Classes.world st)) [f])
       ∧ Spec.absolute_normalized (Node.resolve (Node.cwd (Classes.world st)) [f]))
  ∧ (∀ (st : Classes.state) (f d : string),
       JS.get (Classes.this_options st) "file" = JS.VString f →
       JS.startsWith "/" f = true →
       Eff.result Classes.file
         (Classes.set_world (Node.chdir (Classes.world st) d) st)
       = Eff.result Classes.file st).
Proof.
  split; [| split; [| split; [| split; [| split]]]].
  - intros st f p. split; [reflexivity |]. split; [reflexivity |].
    apply resolve_absolute_normalized.
  - intros f options h _. unfold Part000.constructor.
    unfold Eff.bind. cbn [Part000.set_file].
    change (Part000.set_file (JS.VString f) (Part000.blank h))
      with (Eff.Return (),
            Part000.set_file_
              (JS.VString (Node.resolve (Node.cwd h) [Node.cwd h; f]))
              (Part000.blank h)).
    cbv iota beta. rewrite keeps_file_set_options. reflexivity.
  - reflexivity.
  - intros st options o. unfold Eff.result, Eff.final, Part000.file, Eff.gets.
    cbn [fst].
    rewrite keeps_file_create, keeps_file_open, keeps_file_close, keeps_file_delete,
      keeps_file_set_options.
    done.
  - intros st f Hfile. unfold Eff.result. rewrite classes_file_run, Hfile.
    split; [reflexivity | apply resolve_absolute_normalized].
  - intros st f d Hfile Habs. unfold Eff.result. rewrite !classes_file_run.
    cbn -[Node.resolve]. rewrite Hfile. cbn -[Node.resolve].
    f_equal. by apply resolve_absolute_input.
Qed.

(** A witness of C7: the instance of [src/unnamed/part_000] built in
    "/srv" reads the same path after the working directory changed and
    the file was opened; the instance of [src/classes/Log.js] does so for
    an absolute input. *)
Lemma C7_path_witness :
  let st := Scenario.part000_log ∅ Scenario.disk in
  let cl := Scenario.classes_log {[ "file" := JS.VString "/var/log/app.log" ]}
              Scenario.disk in
  Part000.file_ st = JS.VString "/srv/logs/latest.log"
  ∧ Eff.result Part000.file
      (Part000.set_world (Node.chdir (Part000.world st) "/var") st)
    = Eff.result Part000.file st
  ∧ Eff.result Part000.file (Eff.final (Part000.open ∅) st)
    = Eff.result Part000.file st
  ∧ Eff.result Classes.file
      (Classes.set_world (Node.chdir (Classes.world cl) "/var") cl)
    = Eff.result Classes.file cl.
Proof.
  intros st cl. destruct C7_path as (H1 & H2 & H3 & H4 & H5 & H6).
  split.
  { apply (H2 "logs/latest.log" (Part000.Obj ∅) Scenario.disk). reflexivity. }
  split; [apply H3 |].
  split; [apply (H4 st ∅ (Part000.Obj ∅)) |].
  apply (H6 cl "/var/log/app.log" "/var"); reflexivity.
Defined.


(** ** [write] *)
Section ClassesFrame.
Import JS Node Eff.
Context {T : Type} (proj : Classes.state → T).
Hypothesis proj_world : ∀ h st, proj (Classes.set_world h st) = proj st.
Hypothesis proj_stream : ∀ s st, proj (Classes.set_stream s st) = proj st.
Hypothesis proj_emitted : ∀ l st, proj (Classes.set_emitted l st) = proj st.

Lemma classes_keeps_emit name args : keeps proj (Classes.emit name args).
Proof. intros st. apply proj_emitted. Qed.

Lemma classes_keeps_set_world h : keeps proj (modify (Classes.set_world h)).
Proof. intros st. apply proj_world. Qed.

Lemma classes_keeps_set_stream s : keeps proj (modify (Classes.set_stream s)).
Proof. intros st. apply proj_stream. Qed.

Lemma classes_keeps_file : keeps proj Classes.file.
Proof. intros st. by rewrite classes_file_run. Qed.

Lemma classes_keeps_exists : keeps proj Classes.exists_.
Proof. intros st. by rewrite classes_exists_run. Qed.

Lemma classes_keeps_content : keeps proj Classes.content.
Proof. intros st. by rewrite classes_content_run. Qed.

Hint Resolve classes_keeps_emit classes_keeps_set_world classes_keeps_set_stream
  classes_keeps_file classes_keeps_exists classes_keeps_content : frame.

Lemma classes_keeps_fs_update f : keeps proj (Classes.fs_update f).
Proof. unfold Classes.fs_update. frame. Qed.

Lemma classes_keeps_stream_write chunk : keeps proj (Classes.stream_write chunk).
Proof.
  unfold Classes.stream_write. frame; intros st; apply proj_world.
Qed.

Hint Resolve classes_keeps_fs_update classes_keeps_stream_write : frame.

Lemma classes_keeps_close : keeps proj Classes.close.
Proof. unfold Classes.close. frame. Qed.

Lemma classes_keeps_create options : keeps proj (Classes.create options).
Proof. unfold Classes.create. frame. Qed.

Hint Resolve classes_keeps_create : frame.

Lemma classes_keeps_open options : keeps proj (Classes.open options).
Proof. unfold Classes.open. frame. Qed.

End ClassesFrame.

Section WriteFacts.
Import JS Node Eff.
Variable call : fn → list value → value.

Lemma get_assign_instance (defaults o options : obj) (k : string) :
  options !! k = None → defaults !! k = None →
  get (assign defaults [o; options]) k = get o k.
Proof.
  intros Hopt Hdef. unfold get, assign. cbn [foldl].
  rewrite lookup_union_r by done.
  destruct (o !! k) eqn:Ho.
  - by erewrite lookup_union_Some_l.
  - rewrite lookup_union_r by done. by rewrite Hdef.
Qed.

Lemma write_parameters_of_instance (st : Classes.state) (options : obj) :
  options !! "formatterParameters" = None →
  get (Classes.write_parsedOptions st options) "formatterParameters"
  = get (Classes.this_options st) "formatterParameters".
Proof.
  intros Hopt. unfold Classes.write_parsedOptions.
  apply get_assign_instance; [done |].
  rewrite !lookup_insert_ne by done. by apply lookup_singleton_ne.
Qed.

Lemma write_run (options : obj) (ps : list value) (st : Classes.state) (l : loc) :
  get (Classes.write_parsedOptions st options) "formatterParameters" = VArray l →
  Classes.write call options ps st
  = bind (Classes.write_checks (Classes.write_parsedOptions st options))
         (λ _, Classes.write_tail call (Classes.write_parsedOptions st options))
         (Classes.after_assign st l ps).
Proof.
  intros Hl. unfold Classes.write, Classes.new_array. run.
  fold (Classes.write_parsedOptions st options).
  rewrite Hl. cbn [Classes.assign_parameters]. run.
  fold (Classes.after_assign st l ps).
  unfold Classes.write_checks. rewrite bind_bind.
  apply bind_ext; intros e st1. rewrite bind_bind.
  apply bind_ext; intros [] st2. run.
  unfold Classes.write_tail. rewrite Hl.
  destruct (Classes.this_stream st2); reflexivity.
Qed.

Lemma keeps_write_checks {T} (proj : Classes.state → T) (parsedOptions : obj) :
  (∀ h st, proj (Classes.set_world h st) = proj st) →
  (∀ s st, proj (Classes.set_stream s st) = proj st) →
  (∀ l st, proj (Classes.set_emitted l st) = proj st) →
  keeps proj (Classes.write_checks parsedOptions).
Proof.
  intros Hw Hs He. unfold Classes.write_checks.
  pose proof (classes_keeps_exists proj) as Hex.
  pose proof (classes_keeps_create proj Hw He) as Hcreate.
  pose proof (classes_keeps_open proj Hw Hs He) as Hopen.
  frame.
Qed.

Lemma keeps_write_tail {T} (proj : Classes.state → T) (parsedOptions : obj) :
  (∀ h st, proj (Classes.set_world h st) = proj st) →
  (∀ l st, proj (Classes.set_emitted l st) = proj st) →
  keeps proj (Classes.write_tail call parsedOptions).
Proof.
  intros Hw He. unfold Classes.write_tail, Classes.spread.
  pose proof (classes_keeps_emit proj He) as Hemit.
  pose proof (classes_keeps_stream_write proj Hw) as Hsw.
  frame.
Qed.

(** Whether [write] returns or throws, the heap it leaves is the one
    reached once the rest parameters were copied, and the instance's
    options are untouched. *)
Lemma write_heap (options : obj) (ps : list value) (st : Classes.state) (l : loc) :
  get (Classes.write_parsedOptions st options) "formatterParameters" = VArray l →
  Classes.heap (snd (Classes.write call options ps st))
  = Classes.heap (Classes.after_assign st l ps).
Proof.
  intros Hl. rewrite (write_run _ _ _ l Hl).
  apply (keeps_bind Classes.heap); [| intros _].
  - by apply keeps_write_checks.
  - by apply keeps_write_tail.
Qed.

Lemma write_options (options : obj) (ps : list value) (st : Classes.state) (l : loc) :
  get (Classes.write_parsedOptions st options) "formatterParameters" = VArray l →
  Classes.this_options (snd (Classes.write call options ps st))
  = Classes.this_options st.
Proof.
  intros Hl. rewrite (write_run _ _ _ l Hl).
  change (Classes.this_options st)
    with (Classes.this_options (Classes.after_assign st l ps)).
  apply (keeps_bind Classes.this_options); [| intros _].
  - by apply keeps_write_checks.
  - by apply keeps_write_tail.
Qed.

Lemma after_assign_elements (st : Classes.state) (l : loc) (ps : list value) :
  l ∈ dom (Classes.heap st) →
  Classes.elements (Classes.heap (Classes.after_assign st l ps)) l
  = assign_array (Classes.elements (Classes.heap st) l) ps.
Proof.
  intros Hin. unfold Classes.after_assign, Classes.elements. cbn.
  rewrite lookup_insert_eq. cbn.
  rewrite lookup_insert_ne; [done |].
  intros <-. by apply is_fresh in Hin.
Qed.

Lemma after_assign_dom (st : Classes.state) (l : loc) (ps : list value) :
  l ∈ dom (Classes.heap st) →
  l ∈ dom (Classes.heap (Classes.after_assign st l ps)).
Proof.
  intros Hin. unfold Classes.after_assign. cbn.
  rewrite dom_insert_L. set_solver.
Qed.

Lemma assign_array_lookup_ge (arr items : list value) (i : nat) :
  (List.length items ≤ i)%nat → assign_array arr items !! i = arr !! i.
Proof.
  revert arr i. induction items as [|x items IH]; intros arr i Hi.
  - by destruct arr.
  - destruct i as [|i]; [cbn in Hi; lia |]. cbn in Hi.
    destruct arr as [|a arr]; cbn [assign_array].
    + change ((x :: assign_array [] items) !! S i)
        with (assign_array [] items !! i).
      rewrite IH by lia. done.
    + change ((x :: assign_array arr items) !! S i)
        with (assign_array arr items !! i).
      rewrite IH by lia. done.
Qed.

Lemma assign_array_lookup_lt (arr items : list value) (i : nat) :
  (i < List.length items)%nat → assign_array arr items !! i = items !! i.
Proof.
  revert arr i. induction items as [|x items IH]; intros arr i Hi.
  - cbn in Hi. lia.
  - destruct arr as [|a arr]; cbn [assign_array];
      (destruct i as [|i]; [done |]); cbn in Hi;
      change ((x :: items) !! S i) with (items !! i).
    + change ((x :: assign_array [] items) !! S i)
        with (assign_array [] items !! i).
      apply IH. lia.
    + change ((x :: assign_array arr items) !! S i)
        with (assign_array arr items !! i).
      apply IH. lia.
Qed.

(** A [write_tail] that returns has called the formatter on the
    elements of the parameter array and emitted the entry. *)
Lemma write_tail_return (parsedOptions : obj) (st st' : Classes.state) (l : loc) :
  get parsedOptions "formatterParameters" = VArray l →
  Classes.write_tail call parsedOptions st = (Return Classes.This, st') →
  ∃ f, get parsedOptions "formatter" = VFunction f
       ∧ last (Classes.emitted st')
         = Some (Classes.Build_event "write"
                   [Classes.PValue (call f (Classes.elements (Classes.heap st) l));
                    Classes.PObject parsedOptions]).
Proof.
  intros Hl. unfold Classes.write_tail, Classes.emit, Classes.spread.
  rewrite Hl. run.
  destruct (get parsedOptions "formatter") as [| | | | | |f|] eqn:Hf;
    run; try discriminate.
  unfold Classes.stream_write. run. cbn.
  destruct (Classes.this_stream st); run; [| discriminate].
  destruct (call f _) eqn:Hentry; run; try discriminate.
  intros Hrun. injection Hrun as <-. exists f. split; [done |].
  cbn. by rewrite last_snoc, Hentry.
Qed.

End WriteFacts.


Section WriteOutcome.
Import JS Node Eff.
Variable call : fn → list value → value.

Lemma bind_return_inv {S A B} (m : M S A) (k : A → M S B) (st st' : S) (b : B) :
  bind m k st = (Return b, st') →
  ∃ a st1, m st = (Return a, st1) ∧ k a st1 = (Return b, st').
Proof.
  unfold bind. destruct (m st) as [[a|e] st1]; [eauto | discriminate].
Qed.

(** A [write] that returns has called the formatter on the array as it
    stands once the rest parameters were copied over it. *)
Lemma write_return (options : obj) (ps : list value) (st : Classes.state) (l : loc) :
  get (Classes.write_parsedOptions st options) "formatterParameters" = VArray l →
  result (Classes.write call options ps) st = Return Classes.This →
  ∃ f, get (Classes.write_parsedOptions st options) "formatter" = VFunction f
       ∧ last (Classes.emitted (final (Classes.write call options ps) st))
         = Some (Classes.Build_event "write"
                   [Classes.PValue
                      (call f (Classes.elements
                                 (Classes.heap (Classes.after_assign st l ps)) l));
                    Classes.PObject (Classes.write_parsedOptions st options)]).
Proof.
  intros Hl Hret. unfold result, final in *.
  destruct (Classes.write call options ps st) as [r st'] eqn:Hrun.
  cbn in Hret. subst r. cbn [snd].
  rewrite (write_run _ _ _ _ l Hl) in Hrun.
  apply bind_return_inv in Hrun as ([] & st1 & Hchecks & Htail).
  apply (write_tail_return _ _ _ _ l Hl) in Htail as (f & Hf & Hlast).
  exists f. split; [done |]. rewrite Hlast. do 4 f_equal.
  pose proof (keeps_write_checks Classes.heap
                (Classes.write_parsedOptions st options)
                (λ _ _, eq_refl) (λ _ _, eq_refl) (λ _ _, eq_refl)
                (Classes.after_assign st l ps)) as Hheap.
  rewrite Hchecks in Hheap. cbn [snd] in Hheap. by rewrite Hheap.
Qed.

End WriteOutcome.

(** C10.  On an instance of [src/classes/Log.js] whose
    [options.formatterParameters] is an array of the heap, a [write]
    whose options bring no [formatterParameters] of their own copies its
    rest parameters over that very array, whether it then returns or
    throws; the array keeps them after the call.  A second such [write]
    therefore works on the array left by the first: where it passes
    fewer parameters, the elements beyond them are still those of the
    first call, and when it returns, the formatter has been called on
    that array, and the entry it returned is the one emitted. *)
Theorem C10_parameters_persist
    (call : JS.fn → list JS.value → JS.value)
    (st : Classes.state) (options options' : JS.obj)
    (ps qs : list JS.value) (l : JS.loc) :
  JS.get (Classes.this_options st) "formatterParameters" = JS.VArray l →
  l ∈ dom (Classes.heap st) →
  options !! "formatterParameters" = None →
  options' !! "formatterParameters" = None →
  let before := Classes.elements (Classes.heap st) l in
  let st1 := Eff.final (Classes.write call options ps) st in
  let st2 := Eff.final (Classes.write call options' qs) st1 in
  Classes.this_options st1 = Classes.this_options st
  ∧ Classes.elements (Classes.heap st1) l = JS.assign_array before ps
  ∧ Classes.elements (Classes.heap st2) l
    = JS.assign_array (JS.assign_array before ps) qs
  ∧ (∀ i : nat, (List.length qs ≤ i)%nat → (i < List.length ps)%nat →
       Classes.elements (Classes.heap st2) l !! i = ps !! i)
  ∧ (Eff.result (Classes.write call options' qs) st1 = Eff.Return Classes.This →
     ∃ f : JS.fn,
       JS.get (Classes.write_parsedOptions st1 options') "formatter" = JS.VFunction f
       ∧ last (Classes.emitted st2)
         = Some (Classes.Build_event "write"
                   [Classes.PValue
                      (call f (JS.assign_array (JS.assign_array before ps) qs));
                    Classes.PObject (Classes.write_parsedOptions st1 options')])).
Proof.
  intros Hl Hin Hopt Hopt' before st1 st2.
  assert (JS.get (Classes.write_parsedOptions st options) "formatterParameters"
          = JS.VArray l) as Hl1.
  { by rewrite write_parameters_of_instance. }
  assert (Classes.this_options st1 = Classes.this_options st) as Hopts1.
  { apply (write_options call _ _ _ l Hl1). }
  assert (Classes.heap st1 = Classes.heap (Classes.after_assign st l ps)) as Hheap1.
  { apply (write_heap call _ _ _ l Hl1). }
  assert (Classes.elements (Classes.heap st1) l = JS.assign_array before ps) as Hel1.
  { rewrite Hheap1. by apply after_assign_elements. }
  assert (l ∈ dom (Classes.heap st1)) as Hin1.
  { rewrite Hheap1. by apply after_assign_dom. }
  assert (JS.get (Classes.write_parsedOptions st1 options') "formatterParameters"
          = JS.VArray l) as Hl2.
  { rewrite write_parameters_of_instance by done. by rewrite Hopts1. }
  assert (Classes.heap st2 = Classes.heap (Classes.after_assign st1 l qs)) as Hheap2.
  { apply (write_heap call _ _ _ l Hl2). }
  assert (Classes.elements (Classes.heap st2) l
          = JS.assign_array (JS.assign_array before ps) qs) as Hel2.
  { rewrite Hheap2, after_assign_elements by done. by rewrite Hel1. }
  split; [done |]. split; [done |]. split; [done |]. split.
  - intros i Hge Hlt. rewrite Hel2.
    rewrite assign_array_lookup_ge by done. by apply assign_array_lookup_lt.
  - intros Hret.
    destruct (write_return call options' qs st1 l Hl2 Hret) as (f & Hf & Hlast).
    exists f. split; [done |]. fold st2 in Hlast. rewrite Hlast.
    by rewrite after_assign_elements, Hel1.
Qed.

(** A witness of C10: on an open log, [write({}, 1, 2, 3)] then
    [write({}, 9)] with a formatter that prints its arguments: the second
    entry is made of 9 and of the 2 and 3 of the first call. *)
Lemma C10_parameters_persist_witness :
  let st := Scenario.classes_log_open {[ "formatter" := JS.VFunction (JS.Closure 0) ]}
              Scenario.disk in
  let st1 := Eff.final (Classes.write Scenario.echo ∅
                          [JS.VNumber 1; JS.VNumber 2; JS.VNumber 3]) st in
  let st2 := Eff.final (Classes.write Scenario.echo ∅ [JS.VNumber 9]) st1 in
  Classes.elements (Classes.heap st2) 0%nat
  = [JS.VNumber 9; JS.VNumber 2; JS.VNumber 3]
  ∧ ∃ f, last (Classes.emitted st2)
         = Some (Classes.Build_event "write"
                   [Classes.PValue
                      (Scenario.echo f [JS.VNumber 9; JS.VNumber 2; JS.VNumber 3]);
                    Classes.PObject (Classes.write_parsedOptions st1 ∅)]).
Proof.
  intros st st1 st2.
  assert (0%nat ∈ dom (Classes.heap st)) as Hin.
  { apply elem_of_dom. exists []. vm_compute. reflexivity. }
  assert (JS.get (Classes.this_options st) "formatterParameters" = JS.VArray 0%nat)
    as Hl by (vm_compute; reflexivity).
  destruct (C10_parameters_persist Scenario.echo st ∅ ∅
              [JS.VNumber 1; JS.VNumber 2; JS.VNumber 3] [JS.VNumber 9] 0%nat
              Hl Hin (lookup_empty _) (lookup_empty _))
    as (_ & _ & Hel & _ & Hret).
  assert (JS.assign_array
            (JS.assign_array (Classes.elements (Classes.heap st) 0%nat)
               [JS.VNumber 1; JS.VNumber 2; JS.VNumber 3])
            [JS.VNumber 9]
          = [JS.VNumber 9; JS.VNumber 2; JS.VNumber 3]) as Harray
    by (vm_compute; reflexivity).
  rewrite Harray in Hel, Hret.
  split; [exact Hel |].
  destruct Hret as (f & _ & Hlast); [vm_compute; reflexivity |].
  exists f. exact Hlast.
Defined.

(** Scenario A of the specification, on [src/classes/Log.js]: a new log
    on a path that does not exist, built with [autoCreate] and
    [autoOpen]; after one [write] the file exists and holds the entry,
    and the stream is open. *)
Example scenario_A :
  let st := Scenario.classes_log
              {[ "autoCreate" := JS.VBool true; "autoOpen" := JS.VBool true;
                 "formatter" := JS.VFunction (JS.Closure 0) ]} Scenario.bare in
  let run := Classes.write Scenario.echo ∅ [JS.VString "hi"] st in
  fst run = Eff.Return Classes.This
  ∧ Node.files (Classes.world (snd run)) !! "/srv/logs/latest.log" = Some "hi"
  ∧ Classes.this_stream (snd run)
    = Some {| Node.path := "/srv/logs/latest.log"; Node.destroyed := false |}
  ∧ Classes.name <$> Classes.emitted (snd run)
    = ["beforeCreate"; "create"; "beforeOpen"; "open"; "beforeWrite"; "write"].
Proof. repeat split; vm_compute; reflexivity. Qed.


(** C1: what the code does.  [write] of [src/classes/Log.js] merges the
    caller's options over the instance's, but tests [autoCreate] and
    [autoOpen] on the instance's options alone: with the instance flag
    falsy it throws "Log file does not exist" on a missing file, and
    "Write stream is is not opened" on a closed stream, whatever the
    caller's options say. *)
Theorem C1_write_tests_instance_flags
    (call : JS.fn → list JS.value → JS.value)
    (st : Classes.state) (options : JS.obj) (ps : list JS.value) (l : JS.loc) :
  JS.get (Classes.write_parsedOptions st options) "formatterParameters" = JS.VArray l →
  (Eff.result Classes.exists_ st = Eff.Return false →
   JS.truthy (JS.get (Classes.this_options st) "autoCreate") = false →
   Eff.result (Classes.write call options ps) st
   = Eff.Throw (JS.Error "Log file does not exist"))
  ∧ (Eff.result Classes.exists_ st = Eff.Return true →
     Classes.this_stream st = None →
     JS.truthy (JS.get (Classes.this_options st) "autoOpen") = false →
     Eff.result (Classes.write call options ps) st
     = Eff.Throw (JS.Error "Write stream is is not opened")).
Proof.
  intros Hl.
  assert (∀ b, Eff.result Classes.exists_ st = Eff.Return b →
               Classes.exists_ (Classes.after_assign st l ps)
               = (Eff.Return b, Classes.after_assign st l ps)) as Hexists.
  { intros b Hex. unfold Eff.result in Hex. rewrite classes_exists_run in *.
    cbn [fst] in Hex. cbn -[Node.resolve]. by rewrite Hex. }
  split.
  - intros Hex Hflag. unfold Eff.result. rewrite (write_run call _ _ _ l Hl).
    unfold Classes.write_checks. run.
    rewrite (bind_return _ _ _ _ _ (Hexists false Hex)). cbn [negb]. run.
    cbn [Classes.after_assign Classes.this_options Classes.set_heap].
    rewrite Hflag. by run.
  - intros Hex Hws Hflag. unfold Eff.result. rewrite (write_run call _ _ _ l Hl).
    unfold Classes.write_checks. run.
    rewrite (bind_return _ _ _ _ _ (Hexists true Hex)). cbn [negb]. run.
    cbn [Classes.after_assign Classes.this_options Classes.this_stream Classes.set_heap].
    rewrite Hws. run.
    cbn [Classes.after_assign Classes.this_options Classes.set_heap].
    rewrite Hflag. by run.
Qed.

(** The failing inputs of C1: an instance built with the defaults
    ([autoCreate] and [autoOpen] false) and a call that enables the flag;
    the merged options have the flag enabled, and [write] throws all the
    same. *)
Lemma C1_write_tests_instance_flags_witness :
  let missing := Scenario.classes_log ∅ Scenario.bare in
  let closed := Scenario.classes_log ∅ Scenario.disk in
  let create : JS.obj := {[ "autoCreate" := JS.VBool true ]} in
  let open : JS.obj := {[ "autoOpen" := JS.VBool true ]} in
  (JS.truthy (JS.get (Classes.write_parsedOptions missing create) "autoCreate") = true
   ∧ Eff.result (Classes.write Scenario.echo create []) missing
     = Eff.Throw (JS.Error "Log file does not exist"))
  ∧ (JS.truthy (JS.get (Classes.write_parsedOptions closed open) "autoOpen") = true
     ∧ Eff.result (Classes.write Scenario.echo open []) closed
       = Eff.Throw (JS.Error "Write stream is is not opened")).
Proof.
  intros missing closed create open.
  split; (split; [vm_compute; reflexivity |]).
  - apply (C1_write_tests_instance_flags Scenario.echo missing create [] 0%nat);
      vm_compute; reflexivity.
  - apply (C1_write_tests_instance_flags Scenario.echo closed open [] 0%nat);
      vm_compute; reflexivity.
Defined.


(** ** Options *)
Section OptionsFacts.
Import JS Node Eff.

(** The loop of the options setter, unrolled. *)
Lemma parse_options_unfold (options : obj) :
  let pick key target value :=
    if has options key && instanceof (get options key) target
    then get options key else value in
  Part000.parse_options options
  = <[ "recursive" := pick "recursive" Boolean (VBool true) ]>
    (<[ "logger" := pick "logger" Function (VFunction DefaultLogger) ]>
    (<[ "formatter" := pick "formatter" Function (VFunction DefaultFormatter) ]>
    (<[ "automaticOpen" := pick "automaticOpen" Boolean (VBool true) ]>
    (<[ "automaticCreate" := pick "automaticCreate" Boolean (VBool true) ]>
    (<[ "automaticClose" := pick "automaticClose" Boolean (VBool true) ]> ∅))))).
Proof. reflexivity. Qed.

(** Every row of the table: the stored value is the supplied one when
    the key is present and its value is an instance of the row's
    constructor, the row's default otherwise. *)
Lemma parse_options_row (options : obj) (key : string) (target : ctor) (value : JS.value) :
  (key, target, value) ∈ Part000.defaultOptions →
  get (Part000.parse_options options) key
  = if has options key && instanceof (get options key) target
    then get options key else value.
Proof.
  intros Hin. rewrite parse_options_unfold. cbv zeta. unfold get at 1.
  unfold Part000.defaultOptions in Hin.
  repeat (apply elem_of_cons in Hin as [Hin|Hin]; [injection Hin as -> -> -> |]);
    [.. | by apply elem_of_nil in Hin];
    repeat (rewrite lookup_insert_ne by done); by rewrite lookup_insert_eq.
Qed.

Lemma has_lookup_Some (o : obj) (k : string) (v : JS.value) :
  o !! k = Some v → has o k = true ∧ get o k = v.
Proof.
  intros H. unfold has, get. rewrite H. split; [| done].
  apply bool_decide_eq_true. eauto.
Qed.

Lemma has_lookup_None (o : obj) (k : string) : o !! k = None → has o k = false.
Proof.
  intros H. unfold has. rewrite H. apply bool_decide_eq_false. by intros [? ?].
Qed.

(** The constructor of [src/classes/Log.js] keeps what it is given. *)
Lemma classes_constructor_supplied (options : obj) hp h (key : string) (v : JS.value) :
  options !! key = Some v →
  Classes.this_options (Classes.constructor options hp h) !! key = Some v.
Proof.
  intros H. unfold Classes.constructor. cbn [Classes.this_options assign foldl].
  by apply lookup_union_Some_l.
Qed.

End OptionsFacts.

(** What the options setter of [src/unnamed/part_000] does with a
    primitive boolean: [false instanceof Boolean] is false, so the
    default [true] is stored. *)
Example part000_primitive_boolean :
  JS.get (Part000.parse_options {[ "automaticClose" := JS.VBool false ]}) "automaticClose"
  = JS.VBool true.
Proof. reflexivity. Qed.

(** C6, as stated, fails.  The constructor of [src/classes/Log.js] checks
    no type: a string supplied for [autoClose] is stored, not replaced by
    the boolean default.  The options setter of [src/unnamed/part_000]
    replaces a supplied primitive [false] by the default [true]. *)
Lemma C6_counterexample :
  let st := Classes.constructor {[ "autoClose" := JS.VString "yes" ]} ∅ Scenario.disk in
  JS.typeof (JS.VString "yes") ≠ "boolean"
  ∧ JS.get (Classes.this_options st) "autoClose" = JS.VString "yes"
  ∧ JS.get (Classes.this_options st) "autoClose" ≠ JS.VBool false
  ∧ JS.typeof (JS.VBool false) = "boolean"
  ∧ JS.get (Part000.options_
              (Scenario.part000_log {[ "automaticClose" := JS.VBool false ]}
                 Scenario.disk)) "automaticClose"
    ≠ JS.VBool false.
Proof. repeat split; try reflexivity; vm_compute; discriminate. Qed.

(** C6, amended.
    [src/classes/Log.js]: the constructor stores every supplied value as
    it is, whatever its type; a key that is not supplied gets its
    default.
    [src/unnamed/part_000]: the options setter stores, for [formatter]
    and [logger], the supplied value exactly when it is a function, and
    the default otherwise; for the four flags it stores a supplied
    [Boolean] object, and the default [true] for a key that is not
    supplied or whose value is neither a boolean nor a [Boolean]
    object. *)
Theorem C6_options :
  (∀ (options : JS.obj) (hp : gmap JS.loc (list JS.value)) (h : Node.host)
     (key : string) (v : JS.value),
     options !! key = Some v →
     JS.get (Classes.this_options (Classes.constructor options hp h)) key = v)
  ∧ (∀ (options : JS.obj) (hp : gmap JS.loc (list JS.value)) (h : Node.host),
       let stored := Classes.this_options (Classes.constructor options hp h) in
       (options !! "autoClose" = None → JS.get stored "autoClose" = JS.VBool false)
       ∧ (options !! "autoCreate" = None → JS.get stored "autoCreate" = JS.VBool false)
       ∧ (options !! "autoOpen" = None → JS.get stored "autoOpen" = JS.VBool false)
       ∧ (options !! "recursive" = None → JS.get stored "recursive" = JS.VBool true)
       ∧ (options !! "truncate" = None → JS.get stored "truncate" = JS.VBool false)
       ∧ (options !! "formatter" = None →
          JS.get stored "formatter" = JS.VFunction JS.DefaultFormatter))
  ∧ (∀ (options : JS.obj) (st : Part000.state),
       Part000.set_options (Part000.Obj options) st
       = (Eff.Return (), Part000.set_options_ (Part000.parse_options options) st)
       ∧ Part000.options_ (Part000.set_options_ (Part000.parse_options options) st)
         = Part000.parse_options options)
  ∧ (∀ (options : JS.obj) (key : string) (default : JS.value),
       (key, JS.Function, default) ∈ Part000.defaultOptions →
       (∀ f, options !! key = Some (JS.VFunction f) →
             JS.get (Part000.parse_options options) key = JS.VFunction f)
       ∧ (∀ v, options !! key = Some v → JS.typeof v ≠ "function" →
               JS.get (Part000.parse_options options) key = default)
       ∧ (options !! key = None →
          JS.get (Part000.parse_options options) key = default))
  ∧ (∀ (options : JS.obj) (key : string) (default : JS.value),
       (key, JS.Boolean, default) ∈ Part000.defaultOptions →
       default = JS.VBool true
       ∧ (∀ b, options !! key = Some (JS.VBoolean b) →
               JS.get (Part000.parse_options options) key = JS.VBoolean b)
       ∧ (∀ v, options !! key = Some v → JS.typeof v ≠ "boolean" →
               JS.instanceof v JS.Boolean = false →
               JS.get (Part000.parse_options options) key = JS.VBool true)
       ∧ (options !! key = None →
          JS.get (Part000.parse_options options) key = JS.VBool true)).
Proof.
  split; [| split; [| split; [| split]]].
  - intros options hp h key v H. unfold JS.get.
    by rewrite (classes_constructor_supplied options hp h key v H).
  - intros options hp h stored. subst stored.
    unfold Classes.constructor, JS.get. cbn [Classes.this_options JS.assign foldl].
    repeat split; intros H; rewrite lookup_union_r by done; reflexivity.
  - intros options st. split; reflexivity.
  - intros options key default Hrow.
    pose proof (parse_options_row options key JS.Function default Hrow) as Hget.
    repeat split.
    + intros f H. apply has_lookup_Some in H as [Hhas Hv].
      by rewrite Hget, Hhas, Hv.
    + intros v H Hty. apply has_lookup_Some in H as [Hhas Hv].
      rewrite Hget, Hhas, Hv. by destruct v.
    + intros H. by rewrite Hget, (has_lookup_None _ _ H).
  - intros options key default Hrow.
    assert (default = JS.VBool true) as ->.
    { unfold Part000.defaultOptions in Hrow.
      repeat (apply elem_of_cons in Hrow as [Hrow|Hrow]; [by simplify_eq |]).
      by apply elem_of_nil in Hrow. }
    pose proof (parse_options_row options key JS.Boolean (JS.VBool true) Hrow) as Hget.
    repeat split.
    + intros b H. apply has_lookup_Some in H as [Hhas Hv].
      by rewrite Hget, Hhas, Hv.
    + intros v H Hty Hinst. apply has_lookup_Some in H as [Hhas Hv].
      by rewrite Hget, Hhas, Hv, Hinst.
    + intros H. by rewrite Hget, (has_lookup_None _ _ H).
Qed.

(** A witness of C6: a string kept by the constructor of
    [src/classes/Log.js]; a function kept, a string replaced and a
    [Boolean] object kept by the setter of [src/unnamed/part_000]. *)
Lemma C6_options_witness :
  let options : JS.obj :=
    {[ "formatter" := JS.VFunction (JS.Closure 7);
       "logger" := JS.VString "console";
       "recursive" := JS.VBoolean false;
       "automaticOpen" := JS.VNumber 0 ]} in
  JS.get (Classes.this_options
            (Classes.constructor {[ "autoClose" := JS.VString "yes" ]} ∅ Scenario.disk))
         "autoClose" = JS.VString "yes"
  ∧ JS.get (Part000.parse_options options) "formatter" = JS.VFunction (JS.Closure 7)
  ∧ JS.get (Part000.parse_options options) "logger" = JS.VFunction JS.DefaultLogger
  ∧ JS.get (Part000.parse_options options) "recursive" = JS.VBoolean false
  ∧ JS.get (Part000.parse_options options) "automaticOpen" = JS.VBool true
  ∧ JS.get (Part000.parse_options options) "automaticCreate" = JS.VBool true.
Proof.
  intros options. destruct C6_options as (H1 & _ & _ & H4 & H5).
  split; [apply H1; reflexivity |].
  split.
  { apply (H4 options "formatter" (JS.VFunction JS.DefaultFormatter));
      [repeat constructor | reflexivity]. }
  split.
  { apply (H4 options "logger" (JS.VFunction JS.DefaultLogger)) with (v := JS.VString "console");
      [repeat constructor | reflexivity | discriminate]. }
  split.
  { apply (H5 options "recursive" (JS.VBool true)); [repeat constructor | reflexivity]. }
  split.
  { apply (H5 options "automaticOpen" (JS.VBool true)) with (v := JS.VNumber 0);
      [repeat constructor | reflexivity | discriminate | reflexivity]. }
  apply (H5 options "automaticCreate" (JS.VBool true)); [repeat constructor | reflexivity].
Defined.


(** * Further properties *)

(** ** Inversion of runs, and the errors a computation can raise *)
Section MoreEffFacts.
Import JS Eff Behaviour.
Context {S : Type}.

Lemma bind_throw_inv {A B} (m : M S A) (k : A → M S B) (st st' : S) (e : error) :
  bind m k st = (Throw e, st') →
  m st = (Throw e, st') ∨ ∃ a st1, m st = (Return a, st1) ∧ k a st1 = (Throw e, st').
Proof.
  unfold bind. destruct (m st) as [[a|e'] st1]; [eauto |].
  intros H. left. by injection H as -> ->.
Qed.

Lemma bind_return_split {A B} (m : M S A) (k : A → M S B) (st st' : S) (b : B) :
  bind m k st = (Return b, st') →
  ∃ a st1, m st = (Return a, st1) ∧ k a st1 = (Return b, st').
Proof.
  unfold bind. destruct (m st) as [[a|e] st1]; [eauto | discriminate].
Qed.

Lemma raises_pure {A} (P : error → Prop) (a : A) : raises P (@pure S A a).
Proof. intros st e H. discriminate. Qed.

Lemma raises_gets {A} (P : error → Prop) (f : S → A) : raises P (gets f).
Proof. intros st e H. discriminate. Qed.

Lemma raises_modify (P : error → Prop) (f : S → S) : raises P (modify f).
Proof. intros st e H. discriminate. Qed.

Lemma raises_throw {A} (P : error → Prop) (e : error) : P e → raises P (@throw S A e).
Proof. intros HP st e' H. cbn in H. by injection H as <-. Qed.

Lemma raises_bind {A B} (P : error → Prop) (m : M S A) (k : A → M S B) :
  raises P m → (∀ a, raises P (k a)) → raises P (bind m k).
Proof.
  intros Hm Hk st e H. unfold bind in H.
  destruct (m st) as [[a|e'] st1] eqn:Hrun.
  - by apply (Hk a st1).
  - cbn in H. injection H as ->. apply (Hm st). by rewrite Hrun.
Qed.

Lemma raises_weaken {A} (P Q : error → Prop) (m : M S A) :
  (∀ e, P e → Q e) → raises P m → raises Q m.
Proof. intros HPQ Hm st e H. apply HPQ. by apply (Hm st). Qed.

End MoreEffFacts.

Create HintDb raises.
#[export] Hint Resolve raises_pure raises_gets raises_modify : raises.

Ltac raises :=
  repeat first
    [ progress auto with raises
    | apply raises_bind; [| intros ?]
    | apply raises_throw; cbn; solve [auto]
    | match goal with
      | |- Behaviour.raises _ (if ?b then _ else _) => destruct b
      | |- Behaviour.raises _ (match ?x with _ => _ end) => destruct x
      end ].

Ltac run_in H :=
  repeat first
    [ rewrite bind_bind in H
    | rewrite bind_gets in H
    | rewrite bind_modify in H
    | rewrite bind_pure in H
    | rewrite bind_throw_now in H ];
  cbv beta in H.


(** ** The host *)
Section HostFacts.
Import JS Node Eff.

Lemma open_w_cwd (h h' : host) (p : string) : open_w h p = inl h' → cwd h' = cwd h.
Proof. unfold open_w. repeat case_match; intros ?; by simplify_eq. Qed.

Lemma open_w_files (h h' : host) (p : string) :
  open_w h p = inl h' → files h' = <[ p := "" ]> (files h) ∧ dirs h' = dirs h.
Proof. unfold open_w. repeat case_match; intros ?; by simplify_eq. Qed.

Lemma mkdirSync_cwd (h h' : host) (p : string) (r : bool) :
  mkdirSync h p r = inl h' → cwd h' = cwd h.
Proof. unfold mkdirSync. repeat case_match; intros ?; by simplify_eq. Qed.

Lemma mkdirSync_files (h h' : host) (p : string) (r : bool) :
  mkdirSync h p r = inl h' → files h' = files h.
Proof. unfold mkdirSync. repeat case_match; intros ?; by simplify_eq. Qed.

Lemma unlinkSync_files (h h' : host) (p : string) :
  unlinkSync h p = inl h' → files h' = delete p (files h) ∧ cwd h' = cwd h.
Proof. unfold unlinkSync. repeat case_match; intros ?; by simplify_eq. Qed.

Lemma existsSync_insert_file (h : host) (m : gmap string string) (p c : string) :
  is_file (with_files h (<[ p := c ]> m)) p = true.
Proof.
  unfold is_file. cbn. rewrite lookup_insert_eq. by rewrite bool_decide_eq_true_2.
Qed.

Lemma existsSync_insert (h : host) (m : gmap string string) (p c : string) :
  existsSync (with_files h (<[ p := c ]> m)) p = true.
Proof.
  unfold existsSync, is_file. cbn. rewrite lookup_insert_eq.
  by rewrite bool_decide_eq_true_2.
Qed.

Lemma existsSync_open_w (h h' : host) (p q : string) :
  open_w h p = inl h' → existsSync h q = true → existsSync h' q = true.
Proof.
  intros Hopen Hq. apply open_w_files in Hopen as [Hfiles Hdirs].
  unfold existsSync, is_file, is_dir in *. rewrite Hfiles, Hdirs.
  destruct (decide (p = q)) as [->|Hne].
  - rewrite lookup_insert_eq. by rewrite bool_decide_eq_true_2.
  - by rewrite lookup_insert_ne.
Qed.

Lemma existsSync_createWriteStream (h : host) (p q : string) :
  existsSync h q = true → existsSync (snd (createWriteStream h p)) q = true.
Proof.
  intros Hq. unfold createWriteStream. cbn [snd].
  destruct (open_w h p) as [h'|e] eqn:Hopen; [| done].
  by apply (existsSync_open_w h h' p q).
Qed.

Lemma existsSync_append (h : host) (ws : WriteStream) (chunk q : string) :
  existsSync h q = true → existsSync (append h ws chunk) q = true.
Proof.
  intros Hq. unfold append. destruct (destroyed ws); [done |].
  destruct (files h !! path ws) as [c|] eqn:Hc; [| done].
  unfold existsSync, is_file, is_dir in *. cbn.
  destruct (decide (path ws = q)) as [<-|Hne].
  - rewrite lookup_insert_eq. by rewrite bool_decide_eq_true_2.
  - by rewrite lookup_insert_ne.
Qed.

Lemma cwd_createWriteStream (h : host) (p : string) :
  cwd (snd (createWriteStream h p)) = cwd h.
Proof.
  unfold createWriteStream. cbn [snd].
  destruct (open_w h p) as [h'|e] eqn:Hopen; [| done].
  by apply open_w_cwd in Hopen.
Qed.

Lemma cwd_append (h : host) (ws : WriteStream) (chunk : string) :
  cwd (append h ws chunk) = cwd h.
Proof. unfold append. by repeat case_match. Qed.

End HostFacts.

(** ** [src/classes/Log.js]: [create], [close], [open], [delete] *)
Section ClassesMore.
Import JS Node Eff Behaviour.

Ltac unfold_classes H :=
  cbv beta iota zeta delta
    [Classes.create Classes.open Classes.delete Classes.close
     Classes.content Classes.exists_ Classes.file Classes.emit
     Classes.fs_update Classes.stream_write bind gets modify pure throw lift
     Classes.set_world Classes.set_stream Classes.set_emitted Classes.set_heap
     Classes.world Classes.this_options Classes.this_stream Classes.heap
     Classes.emitted result final fst snd] in H.

Ltac same_file :=
  repeat match goal with
         | H1 : get ?o "file" = VString ?a, H2 : get ?o "file" = VString ?b |- _ =>
             rewrite H1 in H2; injection H2 as <-
         end.

Lemma classes_create_then_exists (options : obj) (st : Classes.state) :
  result (Classes.create options) st = Return Classes.This →
  result Classes.exists_ (final (Classes.create options) st) = Return true.
Proof.
  unfold result, final.
  destruct (Classes.create options st) as [r st'] eqn:Hrun.
  cbn [fst snd]. intros ->.
  destruct st as [o s hp w em].
  unfold_classes Hrun.
  rewrite classes_exists_run.
  repeat (case_match; simplify_eq);
    cbn [Classes.this_options Classes.world fst snd] in *; try congruence.
  all: same_file.
  all: match goal with
       | H : openSync _ _ = inl _ |- _ =>
           pose proof (open_w_cwd _ _ _ H) as Hcwd;
           apply open_w_files in H as [Hfiles _]
       end.
  all: rewrite Hcwd; f_equal; unfold existsSync, is_file.
  all: rewrite Hfiles, lookup_insert_eq; by rewrite bool_decide_eq_true_2.
Qed.

Lemma classes_create_frame (options : obj) (st : Classes.state) :
  Classes.this_stream (final (Classes.create options) st) = Classes.this_stream st
  ∧ Classes.this_options (final (Classes.create options) st) = Classes.this_options st
  ∧ Classes.heap (final (Classes.create options) st) = Classes.heap st.
Proof.
  unfold final. repeat split.
  - by apply (classes_keeps_create Classes.this_stream).
  - by apply (classes_keeps_create Classes.this_options).
  - by apply (classes_keeps_create Classes.heap).
Qed.

(** X2.  When [create] of [src/classes/Log.js] returns, the log file
    exists, and the stream, the options and the parameter arrays are
    as they were. *)
Lemma classes_create_postcondition (options : obj) (st : Classes.state) :
  result (Classes.create options) st = Return Classes.This →
  let st' := final (Classes.create options) st in
  result Classes.exists_ st' = Return true
  ∧ Classes.this_stream st' = Classes.this_stream st
  ∧ Classes.this_options st' = Classes.this_options st
  ∧ Classes.heap st' = Classes.heap st.
Proof.
  intros Hrun st'. subst st'.
  split; [by apply classes_create_then_exists | apply classes_create_frame].
Qed.

(** X3.  Whatever [create] does, the only file whose content it can
    change is the log file, which it can only create empty. *)
Lemma classes_create_files (options : obj) (st : Classes.state) (f : string) :
  get (Classes.this_options st) "file" = VString f →
  let p := resolve (cwd (Classes.world st)) [f] in
  files (Classes.world (final (Classes.create options) st)) = files (Classes.world st)
  ∨ (existsSync (Classes.world st) p = false
     ∧ files (Classes.world (final (Classes.create options) st))
       = <[ p := "" ]> (files (Classes.world st))).
Proof.
  intros Hf p. subst p. unfold final.
  destruct (Classes.create options st) as [r st'] eqn:Hrun. cbn [snd].
  destruct st as [o s hp w em]. cbn [Classes.this_options Classes.world] in *.
  unfold_classes Hrun.
  repeat (case_match; simplify_eq);
    cbn [Classes.this_options Classes.world fst snd] in *; try congruence;
    same_file; try (by left);
    repeat match goal with
           | H : mkdirSync _ _ _ = inl _ |- _ =>
               pose proof (mkdirSync_cwd _ _ _ _ H);
               apply mkdirSync_files in H
           | H : openSync _ _ = inl _ |- _ => apply open_w_files in H as [? _]
           end;
    try (left; congruence);
    right; (split; [done | congruence]).
Qed.

(** X4.  [create] throws no [Error] of its own: whatever it throws
    comes from the host ([mkdirSync], [openSync]) or from a path or a
    [recursive] flag of the wrong type. *)
Lemma classes_create_raises (options : obj) :
  raises foreign (Classes.create options).
Proof.
  intros st e Hrun.
  destruct (Classes.create options st) as [r st'] eqn:Hcreate. cbn in Hrun. subst r.
  destruct st as [o s hp w em].
  unfold_classes Hcreate. unfold Classes.recursive_flag, mkdirSync, openSync, open_w in Hcreate.
  repeat (case_match; simplify_eq); done.
Qed.

(** X7.  [open] on a log whose file is missing throws ["Log file does
    not exist"] and changes nothing when the merged options (the
    method's defaults, the instance's options, the caller's) give a
    falsy [autoCreate]. *)
Lemma classes_open_missing (options : obj) (st : Classes.state) :
  result Classes.exists_ st = Return false →
  truthy (get (Classes.open_parsedOptions st options) "autoCreate") = false →
  Classes.open options st = (Throw (Error "Log file does not exist"), st).
Proof.
  intros Hex Hflag. unfold result in Hex. rewrite classes_exists_run in Hex.
  cbn in Hex. unfold Classes.open_parsedOptions in Hflag.
  unfold Classes.open. run.
  rewrite (bind_return _ _ st st false); [| rewrite classes_exists_run; by rewrite Hex].
  cbn [negb]. rewrite Hflag. by run.
Qed.

(** X9.  [open] on a log whose file exists and whose stream is already
    open does nothing: no event, no truncation, the same stream. *)
Lemma classes_open_already (options : obj) (st : Classes.state) (ws : WriteStream) :
  result Classes.exists_ st = Return true →
  Classes.this_stream st = Some ws →
  Classes.open options st = (Return Classes.This, st).
Proof.
  intros Hex Hws. unfold result in Hex. rewrite classes_exists_run in Hex.
  cbn in Hex. unfold Classes.open. run.
  rewrite (bind_return _ _ st st true); [| rewrite classes_exists_run; by rewrite Hex].
  cbn [negb]. run. by rewrite Hws.
Qed.

(** X8.  The only [Error] of its own that [open] throws is the one for a
    missing file, and it throws it only for a missing file that the
    merged options do not ask to create. *)
Lemma classes_open_error (options : obj) (st : Classes.state) (message : string) :
  result (Classes.open options) st = Throw (Error message) →
  message = "Log file does not exist"
  ∧ result Classes.exists_ st = Return false
  ∧ truthy (get (Classes.open_parsedOptions st options) "autoCreate") = false.
Proof.
  unfold result. intros Hrun.
  destruct (Classes.open options st) as [r st'] eqn:Hopen. cbn in Hrun. subst r.
  rewrite classes_exists_run. unfold Classes.open_parsedOptions.
  destruct st as [o s hp w em]. cbn [Classes.this_options Classes.world fst].
  unfold_classes Hopen.
  unfold Classes.recursive_flag, mkdirSync, openSync, open_w, readFileSync,
    createWriteStream in Hopen.
  repeat (case_match; simplify_eq);
    cbn [Classes.this_options Classes.world fst snd] in *; same_file;
    try done.
  apply negb_true_iff in H1. by rewrite H1.
Qed.

(** The first step of [open]: the file exists once it is passed. *)
Lemma classes_ensure_exists {A} (st st' : Classes.state) (create_or_throw : bool → Classes.M A)
    (a : A) :
  (∀ s, create_or_throw true s = (Return a, s)) →
  (∀ s s', create_or_throw false s = (Return a, s') →
           ∃ options, Classes.create options s = (Return Classes.This, s')) →
  bind Classes.exists_ create_or_throw st = (Return a, st') →
  result Classes.exists_ st' = Return true
  ∧ Classes.this_stream st' = Classes.this_stream st
  ∧ Classes.this_options st' = Classes.this_options st.
Proof.
  intros Htrue Hfalse Hrun.
  apply bind_return_split in Hrun as (e & st1 & Hex & Hk).
  pose proof Hex as Hex'. rewrite classes_exists_run in Hex'.
  injection Hex' as Hres <-.
  destruct e.
  - rewrite Htrue in Hk. injection Hk as <-.
    unfold result. by rewrite Hex.
  - apply Hfalse in Hk as (options & Hcreate).
    pose proof (classes_create_then_exists options st) as Hpost.
    pose proof (classes_create_frame options st) as (Hs & Ho & _).
    unfold result, final in *. rewrite Hcreate in *. cbn [fst snd] in *.
    by rewrite Hpost.
Qed.

(** X10.  When [open] returns, the instance has a stream and the log
    file exists. *)
Lemma classes_open_then_online (options : obj) (st : Classes.state) :
  result (Classes.open options) st = Return Classes.This →
  is_Some (Classes.this_stream (final (Classes.open options) st))
  ∧ result Classes.exists_ (final (Classes.open options) st) = Return true.
Proof.
  unfold result at 1, final. intros Hrun.
  destruct (Classes.open options st) as [r st'] eqn:Hopen. cbn in Hrun. subst r.
  cbn [snd]. unfold Classes.open in Hopen. run_in Hopen.
  fold (Classes.open_parsedOptions st options) in Hopen.
  set (po := Classes.open_parsedOptions st options) in *.
  rewrite <- (bind_bind Classes.exists_
               (λ e, if negb e
                     then if truthy (get po "autoCreate")
                          then bind (Classes.create po) (λ _, pure ())
                          else throw (Error "Log file does not exist")
                     else pure ())) in Hopen.
  apply bind_return_split in Hopen as ([] & st1 & Hfirst & Hrest).
  apply classes_ensure_exists in Hfirst as (Hex & Hs & Ho).
  2:{ intros s. reflexivity. }
  2:{ intros s s' H. cbn [negb] in H. destruct (truthy _); [| discriminate].
      apply bind_return_split in H as ([] & s1 & Hc & Hp).
      injection Hp as <-. eauto. }
  run_in Hrest.
  destruct (Classes.this_stream st1) as [ws|] eqn:Hws.
  - injection Hrest as <-. rewrite Hws. split; [eauto | done].
  - unfold Classes.emit in Hrest. run_in Hrest.
    unfold result in Hex. rewrite classes_exists_run in Hex.
    destruct (get (Classes.this_options st1) "file") as [| | | |f| | |] eqn:Hfile;
      try discriminate.
    cbn [fst] in Hex. injection Hex as Hex.
    assert (∀ c st2,
      bind Classes.file (λ f,
        bind (gets Classes.world) (λ h,
          let '(ws, h') := createWriteStream h f in
          bind (modify (Classes.set_world h')) (λ _,
          bind (modify (Classes.set_stream (Some ws))) (λ _,
          bind (Classes.stream_write (VString c)) (λ _,
          bind (Classes.emit "open" [Classes.PObject po]) (λ _,
          pure Classes.This))))))
        (Classes.set_emitted
           (Classes.emitted st1
              ++ [Classes.Build_event "beforeOpen" [Classes.PObject po]]) st1)
      = (Return Classes.This, st2) →
      is_Some (Classes.this_stream st2)
      ∧ result Classes.exists_ st2 = Return true) as Htail.
    { intros c st2 H.
      unfold bind at 1 in H. rewrite classes_file_run in H.
      cbn [Classes.this_options Classes.set_emitted Classes.world] in H.
      rewrite Hfile in H. run_in H.
      cbn [Classes.world Classes.set_emitted] in H.
      unfold createWriteStream in H.
      pose proof (existsSync_createWriteStream (Classes.world st1)
                    (resolve (cwd (Classes.world st1)) [f]) _ Hex) as Hex1.
      pose proof (cwd_createWriteStream (Classes.world st1)
                    (resolve (cwd (Classes.world st1)) [f])) as Hcwd1.
      unfold createWriteStream in Hex1, Hcwd1. cbn [snd] in Hex1, Hcwd1.
      set (h1 := match open_w _ _ with inl h' => h' | inr _ => _ end) in *.
      run_in H. unfold Classes.stream_write, Classes.emit in H. run_in H.
      cbn [Classes.this_stream Classes.set_stream Classes.set_world
           Classes.set_emitted] in H. run_in H.
      injection H as <-.
      split; [by eexists |].
      unfold result. rewrite classes_exists_run.
      cbn [Classes.this_options Classes.set_emitted Classes.set_world
           Classes.set_stream Classes.world fst].
      rewrite Hfile. f_equal.
      rewrite cwd_append, Hcwd1. by apply existsSync_append. }
    destruct (truthy (get po "truncate")).
    + run_in Hrest. by apply (Htail "" st').
    + apply bind_return_split in Hrest as (c & st2 & Hcontent & Hrest).
      pose proof Hcontent as Hc'. rewrite classes_content_run in Hc'.
      injection Hc' as _ <-.
      by apply (Htail c st').
Qed.

(** X5.  When [delete] returns, the stream is closed and the log file,
    which was a file, is gone; no other file and no directory has
    changed. *)
Lemma classes_delete_then (options : obj) (st : Classes.state) :
  result (Classes.delete options) st = Return Classes.This →
  let st' := final (Classes.delete options) st in
  Classes.this_stream st' = None
  ∧ ∃ f, get (Classes.this_options st) "file" = VString f
         ∧ is_file (Classes.world st) (resolve (cwd (Classes.world st)) [f]) = true
         ∧ files (Classes.world st')
           = delete (resolve (cwd (Classes.world st)) [f]) (files (Classes.world st))
         ∧ dirs (Classes.world st') = dirs (Classes.world st).
Proof.
  unfold result, final. intros Hrun.
  destruct (Classes.delete options st) as [r st'] eqn:Hdel. cbn in Hrun. subst r.
  cbn [snd]. destruct st as [o s hp w em].
  unfold_classes Hdel. unfold unlinkSync in Hdel.
  repeat (case_match; simplify_eq);
    cbn [Classes.this_options Classes.this_stream Classes.world fst snd] in *;
    same_file; try done.
  all: split; [done |]; eexists; split; [done |]; by repeat split.
Qed.

(** X6.  [delete] throws an [Error] of its own in two cases only, and
    then changes nothing: the file does not exist; or the file exists,
    the stream is open and the merged [autoClose] is falsy. *)
Lemma classes_delete_error (options : obj) (st : Classes.state) (message : string) :
  result (Classes.delete options) st = Throw (Error message) →
  final (Classes.delete options) st = st
  ∧ ((message = "Log file does not exist"
      ∧ result Classes.exists_ st = Return false)
     ∨ (message = "Write stream is not closed"
        ∧ result Classes.exists_ st = Return true
        ∧ is_Some (Classes.this_stream st)
        ∧ truthy (get (Classes.delete_parsedOptions st options) "autoClose") = false)).
Proof.
  unfold result, final. intros Hrun.
  destruct (Classes.delete options st) as [r st'] eqn:Hdel. cbn in Hrun. subst r.
  rewrite classes_exists_run. unfold Classes.delete_parsedOptions.
  cbn [snd]. destruct st as [o s hp w em].
  unfold_classes Hdel. unfold unlinkSync in Hdel.
  repeat (case_match; simplify_eq);
    cbn [Classes.this_options Classes.this_stream Classes.world fst snd] in *;
    same_file; try done; try congruence.
  all: split; [done |].
  all: repeat match goal with
              | H : negb _ = false |- _ => apply negb_false_iff in H; rewrite ?H
              | H : negb _ = true |- _ => apply negb_true_iff in H; rewrite ?H
              end.
  all: first [ left; by repeat split | right; by repeat split ].
Qed.

(** X1.  [close] cannot be repeated: after a [close] that returned,
    the next one throws ["Write stream is already closed"] and changes
    nothing. *)
Lemma classes_close_again (st : Classes.state) :
  result Classes.close st = Return Classes.This →
  Classes.close (final Classes.close st)
  = (Throw (Error "Write stream is already closed"), final Classes.close st).
Proof.
  unfold result, final. rewrite (classes_close_run st).
  destruct (Classes.this_stream st) eqn:Hws; [| done].
  intros _. cbn [snd]. by rewrite classes_close_run.
Qed.

End ClassesMore.

Lemma classes_close_again_witness :
  let st := Scenario.classes_log_open ∅ Scenario.disk in
  Classes.close (Eff.final Classes.close st)
  = (Eff.Throw (JS.Error "Write stream is already closed"), Eff.final Classes.close st).
Proof.
  intros st. apply (classes_close_again st). vm_compute. reflexivity.
Defined.

Lemma classes_create_postcondition_witness :
  let st := Scenario.classes_log ∅ Scenario.bare in
  let st' := Eff.final (Classes.create ∅) st in
  Eff.result Classes.exists_ st' = Eff.Return true
  ∧ Classes.this_stream st' = Classes.this_stream st
  ∧ Classes.this_options st' = Classes.this_options st
  ∧ Classes.heap st' = Classes.heap st.
Proof.
  intros st. apply (classes_create_postcondition ∅ st). vm_compute. reflexivity.
Defined.

Lemma classes_create_files_witness :
  let st := Scenario.classes_log ∅ Scenario.bare in
  Node.files (Classes.world (Eff.final (Classes.create ∅) st))
  = Node.files (Classes.world st)
  ∨ (Node.existsSync (Classes.world st) "/srv/logs/latest.log" = false
     ∧ Node.files (Classes.world (Eff.final (Classes.create ∅) st))
       = <[ "/srv/logs/latest.log" := "" ]> (Node.files (Classes.world st))).
Proof.
  intros st. apply (classes_create_files ∅ st "logs/latest.log").
  vm_compute. reflexivity.
Defined.

(** [create] without [recursive] under a directory that does not exist
    fails in the host. *)
Lemma classes_create_raises_witness :
  Behaviour.foreign (JS.SystemError "ENOENT").
Proof.
  apply (classes_create_raises {[ "recursive" := JS.VBool false ]}
           (Scenario.classes_log {[ "file" := JS.VString "a/b/c.log" ]} Scenario.bare)).
  vm_compute. reflexivity.
Defined.

Lemma classes_delete_then_witness :
  let st := Scenario.classes_log_open {[ "autoClose" := JS.VBool true ]} Scenario.disk in
  let st' := Eff.final (Classes.delete ∅) st in
  Classes.this_stream st' = None
  ∧ ∃ f, JS.get (Classes.this_options st) "file" = JS.VString f
         ∧ Node.is_file (Classes.world st)
             (Node.resolve (Node.cwd (Classes.world st)) [f]) = true
         ∧ Node.files (Classes.world st')
           = delete (Node.resolve (Node.cwd (Classes.world st)) [f])
               (Node.files (Classes.world st))
         ∧ Node.dirs (Classes.world st') = Node.dirs (Classes.world st).
Proof.
  intros st. apply (classes_delete_then ∅ st). vm_compute. reflexivity.
Defined.

Lemma classes_delete_error_witness :
  let st := Scenario.classes_log_open ∅ Scenario.disk in
  Eff.final (Classes.delete ∅) st = st
  ∧ (("Write stream is not closed" = "Log file does not exist"
      ∧ Eff.result Classes.exists_ st = Eff.Return false)
     ∨ ("Write stream is not closed" = "Write stream is not closed"
        ∧ Eff.result Classes.exists_ st = Eff.Return true
        ∧ is_Some (Classes.this_stream st)
        ∧ JS.truthy (JS.get (Classes.delete_parsedOptions st ∅) "autoClose") = false)).
Proof.
  intros st. apply (classes_delete_error ∅ st "Write stream is not closed").
  vm_compute. reflexivity.
Defined.

Lemma classes_open_missing_witness :
  let st := Scenario.classes_log ∅ Scenario.bare in
  Classes.open ∅ st = (Eff.Throw (JS.Error "Log file does not exist"), st).
Proof.
  intros st. apply (classes_open_missing ∅ st); vm_compute; reflexivity.
Defined.

Lemma classes_open_error_witness :
  let st := Scenario.classes_log ∅ Scenario.bare in
  "Log file does not exist" = "Log file does not exist"
  ∧ Eff.result Classes.exists_ st = Eff.Return false
  ∧ JS.truthy (JS.get (Classes.open_parsedOptions st ∅) "autoCreate") = false.
Proof.
  intros st. apply (classes_open_error ∅ st "Log file does not exist").
  vm_compute. reflexivity.
Defined.

Lemma classes_open_already_witness :
  let st := Scenario.classes_log_open ∅ Scenario.disk in
  Classes.open {[ "truncate" := JS.VBool true ]} st = (Eff.Return Classes.This, st).
Proof.
  intros st.
  apply (classes_open_already {[ "truncate" := JS.VBool true ]} st
           {| Node.path := "/srv/logs/latest.log"; Node.destroyed := false |});
    vm_compute; reflexivity.
Defined.

Lemma classes_open_then_online_witness :
  let st := Scenario.classes_log {[ "autoCreate" := JS.VBool true ]} Scenario.bare in
  is_Some (Classes.this_stream (Eff.final (Classes.open ∅) st))
  ∧ Eff.result Classes.exists_ (Eff.final (Classes.open ∅) st) = Eff.Return true.
Proof.
  intros st. apply (classes_open_then_online ∅ st). vm_compute. reflexivity.
Defined.


(** ** [src/classes/Log.js]: [write] *)
Section WriteMore.
Import JS Node Eff Behaviour.
Variable call : fn → list value → value.

Lemma write_checks_ready (parsedOptions : obj) (st : Classes.state) (ws : WriteStream) :
  result Classes.exists_ st = Return true →
  Classes.this_stream st = Some ws →
  Classes.write_checks parsedOptions st = (Return (), st).
Proof.
  intros Hex Hws. unfold result in Hex.
  destruct (Classes.exists_ st) as [r s] eqn:Hrun.
  pose proof Hrun as Hrun'. rewrite classes_exists_run in Hrun'.
  injection Hrun' as _ <-. cbn in Hex. subst r.
  unfold Classes.write_checks.
  rewrite (bind_return _ _ _ _ _ Hrun). cbn [negb]. run. by rewrite Hws.
Qed.

Lemma after_assign_exists (st : Classes.state) (l : loc) (ps : list value) :
  Classes.exists_ (Classes.after_assign st l ps)
  = (fst (Classes.exists_ st), Classes.after_assign st l ps).
Proof. by rewrite !classes_exists_run. Qed.

(** X12.  On a log of [src/classes/Log.js] whose file exists and whose
    stream is open on it, [write] appends the entry the formatter returns. *)
Lemma classes_write_appends (options : obj) (ps : list value) (st : Classes.state)
    (ws : WriteStream) (f c text : string) (l : loc) (g : fn) :
  get (Classes.this_options st) "file" = VString f →
  files (Classes.world st) !! resolve (cwd (Classes.world st)) [f] = Some c →
  Classes.this_stream st = Some ws →
  path ws = resolve (cwd (Classes.world st)) [f] →
  destroyed ws = false →
  get (Classes.this_options st) "formatterParameters" = VArray l →
  l ∈ dom (Classes.heap st) →
  options !! "formatterParameters" = None →
  get (Classes.write_parsedOptions st options) "formatter" = VFunction g →
  call g (assign_array (Classes.elements (Classes.heap st) l) ps) = VString text →
  let po := Classes.write_parsedOptions st options in
  Classes.write call options ps st
  = (Return Classes.This,
     {| Classes.this_options := Classes.this_options st;
        Classes.this_stream := Some ws;
        Classes.heap := Classes.heap (Classes.after_assign st l ps);
        Classes.world :=
          with_files (Classes.world st)
            (<[ resolve (cwd (Classes.world st)) [f] := c +:+ text ]>
               (files (Classes.world st)));
        Classes.emitted :=
          Classes.emitted st
            ++ [ Classes.Build_event "beforeWrite" [Classes.PObject po];
                 Classes.Build_event "write"
                   [Classes.PValue (VString text); Classes.PObject po] ] |}).
Proof.
  intros Hfile Hc Hws Hpath Hlive Hl Hin Hopt Hg Hcall po. subst po.
  assert (get (Classes.write_parsedOptions st options) "formatterParameters"
          = VArray l) as Hl' by (by rewrite write_parameters_of_instance).
  rewrite (write_run call _ _ _ l Hl').
  erewrite bind_return.
  2:{ apply (write_checks_ready _ _ ws); [| done].
      unfold result. rewrite after_assign_exists. cbn [fst].
      rewrite classes_exists_run, Hfile. cbn [fst].
      by erewrite existsSync_file. }
  unfold Classes.write_tail, Classes.emit, Classes.spread. run.
  rewrite Hl', Hg. run.
  cbn [Classes.heap Classes.set_emitted].
  rewrite after_assign_elements by done. rewrite Hcall.
  unfold Classes.stream_write. run.
  cbn [Classes.this_stream Classes.set_emitted Classes.after_assign Classes.set_heap].
  rewrite Hws. run.
  unfold append. rewrite Hlive.
  cbn [Classes.world Classes.set_emitted Classes.after_assign Classes.set_heap].
  rewrite Hpath, Hc. unfold pure.
  unfold Classes.set_emitted, Classes.set_world, Classes.after_assign, Classes.set_heap.
  cbn [Classes.this_options Classes.this_stream Classes.heap Classes.world
       Classes.emitted].
  rewrite Hws, <- !app_assoc. reflexivity.
Qed.

(** X13.  A [write] refused for a missing file or a closed stream has only
    copied its rest parameters: the host, the stream and the events are
    as before. *)
Lemma classes_write_refused (options : obj) (ps : list value) (st : Classes.state)
    (l : loc) :
  get (Classes.write_parsedOptions st options) "formatterParameters" = VArray l →
  (result Classes.exists_ st = Return false →
   truthy (get (Classes.this_options st) "autoCreate") = false →
   Classes.write call options ps st
   = (Throw (Error "Log file does not exist"), Classes.after_assign st l ps))
  ∧ (result Classes.exists_ st = Return true →
     Classes.this_stream st = None →
     truthy (get (Classes.this_options st) "autoOpen") = false →
     Classes.write call options ps st
     = (Throw (Error "Write stream is is not opened"), Classes.after_assign st l ps)).
Proof.
  intros Hl. split.
  - intros Hex Hflag. rewrite (write_run call _ _ _ l Hl).
    unfold Classes.write_checks. run.
    erewrite bind_return; [| rewrite after_assign_exists; unfold result in Hex;
                              by rewrite Hex].
    cbn [negb]. run.
    cbn [Classes.after_assign Classes.this_options Classes.set_heap].
    rewrite Hflag. by run.
  - intros Hex Hws Hflag. rewrite (write_run call _ _ _ l Hl).
    unfold Classes.write_checks. run.
    erewrite bind_return; [| rewrite after_assign_exists; unfold result in Hex;
                              by rewrite Hex].
    cbn [negb]. run.
    cbn [Classes.after_assign Classes.this_options Classes.this_stream
         Classes.set_heap].
    rewrite Hws. run.
    cbn [Classes.after_assign Classes.this_options Classes.set_heap].
    rewrite Hflag. by run.
Qed.

(** X14.  Without an array under [formatterParameters] to copy into, [write]
    throws a [TypeError] before it looks at the file or the stream. *)
Lemma classes_write_no_array (options : obj) (ps : list value) (st : Classes.state) :
  get (Classes.write_parsedOptions st options) "formatterParameters" = VUndefined
  ∨ get (Classes.write_parsedOptions st options) "formatterParameters" = VNull →
  Classes.write call options ps st
  = (Throw (TypeError "Cannot convert undefined or null to object"),
     Classes.set_heap (<[ fresh (dom (Classes.heap st)) := [] ]> (Classes.heap st)) st).
Proof.
  intros Hl. unfold Classes.write, Classes.new_array. run.
  fold (Classes.write_parsedOptions st options).
  destruct Hl as [-> | ->]; cbn [Classes.assign_parameters]; by run.
Qed.

Lemma classes_create_absent (options : obj) (st : Classes.state) (f : string) :
  get (Classes.this_options st) "file" = VString f →
  let p := resolve (cwd (Classes.world st)) [f] in
  existsSync (Classes.world st) p = false →
  is_dir (Classes.world st) (dirname p) = true →
  Classes.create options st
  = (Return Classes.This,
     Classes.set_emitted
       (Classes.emitted st
          ++ [ Classes.Build_event "beforeCreate" [];
               Classes.Build_event "create" [] ])
       (Classes.set_world
          (with_files (Classes.world st) (<[ p := "" ]> (files (Classes.world st))))
          st)).
Proof.
  intros Hfile p Hex Hdir. subst p.
  destruct st as [o s hp w em]. cbn [Classes.this_options Classes.world] in *.
  assert (∀ st, Classes.this_options st = o → Classes.world st = w →
                Classes.file st = (Return (resolve (cwd w) [f]), st)) as Hf.
  { intros st <- <-. rewrite classes_file_run. by rewrite Hfile. }
  unfold Classes.create. run.
  erewrite bind_return; [| rewrite classes_exists_run; cbn; rewrite Hfile, Hex; done].
  unfold Classes.emit at 1. run.
  erewrite bind_return by (by apply Hf). run.
  cbn [Classes.world Classes.set_emitted].
  replace (existsSync w (dirname (resolve (cwd w) [f]))) with true
    by (unfold existsSync; rewrite Hdir; by rewrite orb_true_r).
  cbn [negb]. run.
  erewrite bind_return by (by apply Hf).
  unfold Classes.fs_update, Classes.emit. run.
  cbn [Classes.world Classes.set_emitted].
  unfold openSync, open_w. unfold existsSync in Hex.
  apply orb_false_iff in Hex as [-> ->]. rewrite Hdir.
  cbn [lift]. run. unfold pure. cbn. rewrite <- !app_assoc. reflexivity.
Qed.

(** X15.  A [write] on a log whose file is missing and whose stream is
    closed, when the instance's own [autoCreate] and [autoOpen] are
    truthy and the directory exists: the file is created, the stream
    opened, and the file holds the entry. *)
Lemma classes_write_self_heals (options : obj) (ps : list value) (st : Classes.state)
    (f text : string) (l : loc) (g : fn) :
  get (Classes.this_options st) "file" = VString f →
  let p := resolve (cwd (Classes.world st)) [f] in
  existsSync (Classes.world st) p = false →
  is_dir (Classes.world st) (dirname p) = true →
  Classes.this_stream st = None →
  truthy (get (Classes.this_options st) "autoCreate") = true →
  truthy (get (Classes.this_options st) "autoOpen") = true →
  get (Classes.this_options st) "formatterParameters" = VArray l →
  l ∈ dom (Classes.heap st) →
  options !! "formatterParameters" = None →
  get (Classes.write_parsedOptions st options) "formatter" = VFunction g →
  call g (assign_array (Classes.elements (Classes.heap st) l) ps) = VString text →
  let st' := final (Classes.write call options ps) st in
  result (Classes.write call options ps) st = Return Classes.This
  ∧ files (Classes.world st') = <[ p := text ]> (files (Classes.world st))
  ∧ dirs (Classes.world st') = dirs (Classes.world st)
  ∧ Classes.this_stream st' = Some {| path := p; destroyed := false |}
  ∧ Classes.name <$> Classes.emitted st'
    = (Classes.name <$> Classes.emitted st)
        ++ ["beforeCreate"; "create"; "beforeOpen"; "open"; "beforeWrite"; "write"].
Proof.
  intros Hfile p Hex Hdir Hws HautoC HautoO Hl Hin Hopt Hg Hcall st'.
  subst st' p. unfold result, final.
  assert (get (Classes.write_parsedOptions st options) "formatterParameters"
          = VArray l) as Hl' by (by rewrite write_parameters_of_instance).
  rewrite (write_run call _ _ _ l Hl').
  set (po := Classes.write_parsedOptions st options) in *.
  set (sa := Classes.after_assign st l ps).
  set (p := resolve (cwd (Classes.world st)) [f]) in *.
  pose proof (classes_create_absent po sa f Hfile Hex Hdir) as Hcreate.
  fold p in Hcreate.
  set (sc := Classes.set_emitted _ _) in Hcreate.
  pose proof (classes_open_existing po sc f "" Hfile) as Hopen.
  cbn [Classes.world Classes.this_stream Classes.set_emitted Classes.set_world
       Classes.after_assign Classes.set_heap sc sa cwd with_files files] in Hopen.
  fold p in Hopen. rewrite lookup_insert_eq in Hopen.
  specialize (Hopen eq_refl Hws). cbv zeta in Hopen.
  replace ("" +:+ (if truthy (get (Classes.open_parsedOptions sc po) "truncate")
                   then "" else "")) with "" in Hopen
    by (destruct (truthy (get (Classes.open_parsedOptions sc po) "truncate"));
        reflexivity).
  rewrite !insert_insert_eq in Hopen.
  set (so := Classes.Build_state _ _ _ _ _) in Hopen.
  assert (Classes.write_checks po sa = (Return (), so)) as Hchecks.
  { unfold Classes.write_checks.
    erewrite bind_return;
      [| rewrite classes_exists_run; cbn -[resolve]; rewrite Hfile; fold p;
         rewrite Hex; reflexivity].
    cbn [negb]. run. cbn [Classes.this_options sa Classes.after_assign Classes.set_heap].
    rewrite HautoC. run. erewrite bind_return by apply Hcreate. run.
    cbn [Classes.this_stream sc Classes.set_emitted Classes.set_world sa
         Classes.after_assign Classes.set_heap].
    rewrite Hws. run.
    cbn [Classes.this_options sc Classes.set_emitted Classes.set_world sa
         Classes.after_assign Classes.set_heap].
    rewrite HautoO. run. erewrite bind_return by apply Hopen. reflexivity. }
  rewrite (bind_return _ _ _ _ _ Hchecks).
  unfold Classes.write_tail, Classes.emit, Classes.spread. run.
  rewrite Hl', Hg. run.
  assert (∀ em, Classes.heap (Classes.set_emitted em so)
                = Classes.heap (Classes.after_assign st l ps)) as Hheap
    by reflexivity.
  rewrite Hheap, after_assign_elements by done. rewrite Hcall.
  unfold Classes.stream_write. run.
  cbn [Classes.this_stream so Classes.set_emitted]. run.
  unfold append.
  cbn [destroyed path Classes.world so Classes.set_emitted with_files files].
  rewrite lookup_insert_eq. unfold pure.
  cbn [fst snd Classes.world Classes.this_stream Classes.emitted Classes.set_emitted
       Classes.set_world so with_files files dirs].
  rewrite insert_insert_eq, append_nil_l.
  repeat split.
  rewrite !fmap_app. cbn. rewrite !fmap_app. cbn.
  rewrite <- !app_assoc. reflexivity.
Qed.

End WriteMore.

Lemma classes_write_appends_witness :
  let st := Scenario.classes_log_open {[ "formatter" := JS.VFunction (JS.Closure 0) ]}
              Scenario.disk in
  let st' := Eff.final (Classes.write Scenario.echo ∅ [JS.VString "hi"]) st in
  Node.files (Classes.world st') !! "/srv/logs/latest.log" = Some "startedhi"
  ∧ Classes.name <$> Classes.emitted st' = ["beforeWrite"; "write"].
Proof.
  intros st.
  assert (0%nat ∈ dom (Classes.heap st)) as Hin.
  { apply elem_of_dom. exists []. vm_compute. reflexivity. }
  unfold Eff.final.
  rewrite (classes_write_appends Scenario.echo ∅ [JS.VString "hi"] st
             {| Node.path := "/srv/logs/latest.log"; Node.destroyed := false |}
             "logs/latest.log" "started" "hi" 0%nat (JS.Closure 0));
    [ split; vm_compute; reflexivity | .. ];
    try exact Hin; vm_compute; reflexivity.
Defined.

Lemma classes_write_refused_witness :
  let st := Scenario.classes_log ∅ Scenario.bare in
  let st1 := Scenario.classes_log ∅ Scenario.disk in
  Classes.write Scenario.echo {[ "autoCreate" := JS.VBool true ]} [JS.VNumber 1] st
  = (Eff.Throw (JS.Error "Log file does not exist"),
     Classes.after_assign st 0%nat [JS.VNumber 1])
  ∧ Classes.write Scenario.echo {[ "autoOpen" := JS.VBool true ]} [JS.VNumber 1] st1
    = (Eff.Throw (JS.Error "Write stream is is not opened"),
       Classes.after_assign st1 0%nat [JS.VNumber 1]).
Proof.
  intros st st1. split.
  - apply (classes_write_refused Scenario.echo {[ "autoCreate" := JS.VBool true ]}
             [JS.VNumber 1] st 0%nat); vm_compute; reflexivity.
  - apply (classes_write_refused Scenario.echo {[ "autoOpen" := JS.VBool true ]}
             [JS.VNumber 1] st1 0%nat); vm_compute; reflexivity.
Defined.

Lemma classes_write_no_array_witness :
  let st := Scenario.classes_log_open ∅ Scenario.disk in
  let options : JS.obj := {[ "formatterParameters" := JS.VNull ]} in
  Classes.write Scenario.echo options [JS.VNumber 1] st
  = (Eff.Throw (JS.TypeError "Cannot convert undefined or null to object"),
     Classes.set_heap (<[ fresh (dom (Classes.heap st)) := [] ]> (Classes.heap st)) st).
Proof.
  intros st options.
  apply (classes_write_no_array Scenario.echo options [JS.VNumber 1] st).
  right. vm_compute. reflexivity.
Defined.

Lemma classes_write_self_heals_witness :
  let st := Scenario.classes_log
              {[ "autoCreate" := JS.VBool true; "autoOpen" := JS.VBool true;
                 "formatter" := JS.VFunction (JS.Closure 0) ]}
              (Node.with_files Scenario.disk ∅) in
  let st' := Eff.final (Classes.write Scenario.echo ∅ [JS.VString "hi"]) st in
  Eff.result (Classes.write Scenario.echo ∅ [JS.VString "hi"]) st
  = Eff.Return Classes.This
  ∧ Node.files (Classes.world st')
    = <[ "/srv/logs/latest.log" := "hi" ]> (Node.files (Classes.world st))
  ∧ Node.dirs (Classes.world st') = Node.dirs (Classes.world st)
  ∧ Classes.this_stream st'
    = Some {| Node.path := "/srv/logs/latest.log"; Node.destroyed := false |}
  ∧ Classes.name <$> Classes.emitted st'
    = (Classes.name <$> Classes.emitted st)
        ++ ["beforeCreate"; "create"; "beforeOpen"; "open"; "beforeWrite"; "write"].
Proof.
  intros st.
  assert (0%nat ∈ dom (Classes.heap st)) as Hin.
  { apply elem_of_dom. exists []. vm_compute. reflexivity. }
  apply (classes_write_self_heals Scenario.echo ∅ [JS.VString "hi"] st
           "logs/latest.log" "hi" 0%nat (JS.Closure 0));
    try exact Hin; vm_compute; reflexivity.
Defined.


(** ** [src/unnamed/part_000]: options, [create], [open], [close], [delete] *)
Section Part000More.
Import JS Node Eff Behaviour.

Ltac unfold_part000 H :=
  cbv beta iota zeta delta
    [Part000.create Part000.open Part000.delete Part000.close
     Part000.content Part000.exists_ Part000.file Part000.emit Part000.options
     Part000.online Part000.stream Part000.as_path
     Part000.fs_update bind gets modify pure throw lift
     Part000.set_world Part000.set_stream_ Part000.set_emitted
     Part000.world Part000.options_ Part000.stream_ Part000.file_
     Part000.formatter Part000.logger
     Part000.emitted result final fst snd] in H.

Ltac same_state :=
  repeat match goal with
         | H : Part000.Build_state _ _ _ _ _ _ _ = Part000.Build_state _ _ _ _ _ _ _ |- _ =>
             injection H as; subst
         end.

(** The stored record always has the six keys of the table, and only
    those. *)
Lemma parse_options_dom (options : obj) :
  dom (Part000.parse_options options)
  = {[ "automaticClose"; "automaticCreate"; "automaticOpen";
       "formatter"; "logger"; "recursive" ]}.
Proof.
  rewrite parse_options_unfold. cbv zeta.
  rewrite !dom_insert_L, dom_empty_L. set_solver.
Qed.

(** Assigning the stored record again changes nothing. *)
Lemma parse_options_idempotent (options : obj) :
  Part000.parse_options (Part000.parse_options options)
  = Part000.parse_options options.
Proof.
  apply map_eq. intros key.
  destruct (decide (key ∈ dom (Part000.parse_options options))) as [Hin|Hout].
  - rewrite parse_options_dom in Hin.
    assert (∀ target value,
              (key, target, value) ∈ Part000.defaultOptions →
              Part000.parse_options (Part000.parse_options options) !! key
              = Part000.parse_options options !! key) as Hrow.
    { intros target value Hmem.
      pose proof (parse_options_row (Part000.parse_options options) key target value Hmem)
        as Houter.
      pose proof (parse_options_row options key target value Hmem) as Hinner.
      assert (is_Some (Part000.parse_options options !! key)) as [v Hv].
      { apply elem_of_dom. by rewrite parse_options_dom. }
      assert (is_Some (Part000.parse_options (Part000.parse_options options) !! key))
        as [v' Hv'].
      { apply elem_of_dom. by rewrite parse_options_dom. }
      assert (get (Part000.parse_options (Part000.parse_options options)) key = v')
        as Hg' by (unfold get; by rewrite Hv').
      assert (get (Part000.parse_options options) key = v)
        as Hg by (unfold get; by rewrite Hv).
      rewrite Hv, Hv'. f_equal.
      apply has_lookup_Some in Hv as [Hhas _].
      rewrite Hg' in Houter. rewrite Hg in Hinner.
      rewrite Hhas, Hg in Houter. cbn [andb] in Houter.
      destruct (instanceof v target) eqn:Hinst; [done |].
      destruct (has options key && instanceof (get options key) target) eqn:Hc;
        [| congruence].
      apply andb_true_iff in Hc as [_ Hc]. congruence. }
    unfold Part000.defaultOptions in Hrow.
    repeat (apply elem_of_union in Hin as [Hin|Hin]);
      apply elem_of_singleton in Hin; subst key;
      eapply Hrow; repeat constructor.
  - pose proof Hout as Hout'. rewrite parse_options_dom in Hout'.
    rewrite <- (parse_options_dom (Part000.parse_options options)) in Hout'.
    apply not_elem_of_dom in Hout, Hout'. by rewrite Hout, Hout'.
Qed.

(** X17.  After any assignment to [options] that does not throw, the
    stored record has exactly the six keys of the table, whatever was
    supplied. *)
Lemma part000_options_keys (options : Part000.any) (st : Part000.state) :
  result (Part000.set_options options) st = Return () →
  dom (Part000.options_ (final (Part000.set_options options) st))
  = {[ "automaticClose"; "automaticCreate"; "automaticOpen";
       "formatter"; "logger"; "recursive" ]}.
Proof.
  unfold result, final. destruct options as [o|v]; cbn -[Part000.parse_options].
  - intros _. apply parse_options_dom.
  - destruct (negb (truthy v) || negb (typeof v =? "object")%string);
      cbn -[Part000.parse_options]; [done |].
    intros _. apply parse_options_dom.
Qed.

(** X18.  Reading [options] and assigning what was read changes
    nothing: the setter keeps every value it has stored itself. *)
Lemma part000_set_options_again (options : obj) (st : Part000.state) :
  let st1 := final (Part000.set_options (Part000.Obj options)) st in
  ∀ current, result Part000.options st1 = Return current →
  Part000.set_options (Part000.Obj current) st1 = (Return (), st1).
Proof.
  intros st1 current Hcur. subst st1.
  unfold result, final, Part000.options in *. run_in Hcur.
  cbn [fst snd Part000.set_options modify Part000.options_ Part000.set_options_] in *.
  injection Hcur as <-.
  unfold assign. cbn [foldl]. rewrite (right_id_L ∅ (∪)).
  rewrite parse_options_idempotent. reflexivity.
Qed.

(** X23.  [open] of [src/unnamed/part_000] looks for [automaticCreate]
    in the options of the call alone: on a log whose file is missing
    it throws and changes nothing when the call gives a falsy
    [automaticCreate], whatever the instance's options say. *)
Lemma part000_open_missing (options : obj) (st : Part000.state) :
  result Part000.exists_ st = Return false →
  truthy (get options "automaticCreate") = false →
  Part000.open options st
  = (Throw (Error "Cannot open the write stream if the log file does not exist"), st).
Proof.
  intros Hex Hflag. unfold result in Hex. rewrite part000_exists_run in Hex.
  cbn in Hex. injection Hex as Hex.
  unfold Part000.open, Part000.options. run.
  rewrite (bind_return _ _ st st false); [| rewrite part000_exists_run; by rewrite Hex].
  cbn [negb]. rewrite Hflag. by run.
Qed.

Lemma part000_close_offline (options : obj) (st : Part000.state) :
  result Part000.exists_ st = Return true →
  result Part000.online st = Return false →
  Part000.close options st = (Return Part000.This, st).
Proof.
  intros Hex Hon. unfold result in Hon. rewrite part000_online_run in Hon.
  cbn in Hon. injection Hon as Hon.
  unfold Part000.close, Part000.options. run.
  erewrite (bind_return _ _ st st ()).
  2:{ match goal with
      | |- (if ?b then _ else _) _ = _ => destruct b
      end; [| reflexivity].
      erewrite bind_return; [reflexivity |].
      by apply part000_create_existing. }
  run. rewrite (bind_return _ _ st st false);
    [done | rewrite part000_online_run; by rewrite Hon].
Qed.

(** X19.  [close] on a log whose file exists and whose stream is
    online emits ["beforeClose"], destroys the stream and returns
    nothing rather than the instance; until the stream's own ["close"]
    event the destroyed stream stays in its field. *)
Lemma part000_close_online (options : obj) (st : Part000.state) (ws : WriteStream) :
  result Part000.exists_ st = Return true →
  Part000.stream_ st = Some ws →
  destroyed ws = false →
  Part000.close options st
  = (Return Part000.Undefined,
     Part000.set_stream_ (Some (destroy ws))
       (Part000.set_emitted (Part000.emitted st ++ ["beforeClose"]) st)).
Proof.
  intros Hex Hws Hlive.
  unfold Part000.close, Part000.options. run.
  erewrite (bind_return _ _ st st ()).
  2:{ match goal with
      | |- (if ?b then _ else _) _ = _ => destruct b
      end; [| reflexivity].
      erewrite bind_return; [reflexivity |].
      by apply part000_create_existing. }
  run. rewrite (bind_return _ _ st st true);
    [| rewrite part000_online_run, Hws, Hlive; done].
  cbn [negb]. unfold Part000.emit, Part000.stream. run.
  cbn [Part000.stream_ Part000.set_emitted]. by rewrite Hws.
Qed.

Lemma part000_create_absent (options : obj) (st : Part000.state) (p : string) :
  Part000.file_ st = VString p →
  existsSync (Part000.world st) p = false →
  is_dir (Part000.world st) (dirname p) = true →
  Part000.create options st
  = (Return Part000.This,
     Part000.set_emitted (Part000.emitted st ++ ["create"])
       (Part000.set_world
          (with_files (Part000.world st) (<[ p := "" ]> (files (Part000.world st))))
          st)).
Proof.
  intros Hfile Hex Hdir.
  unfold Part000.create, Part000.options. run.
  rewrite (bind_return _ _ st st false);
    [| rewrite part000_exists_run, Hfile; by rewrite Hex].
  unfold Part000.file, Part000.as_path. run. rewrite Hfile. run.
  replace (existsSync (Part000.world st) (dirname p)) with true
    by (unfold existsSync; rewrite Hdir; by rewrite orb_true_r).
  cbn [negb]. run. unfold Part000.fs_update, Part000.emit. run.
  unfold openSync, open_w. unfold existsSync in Hex.
  apply orb_false_iff in Hex as [-> ->]. rewrite Hdir. cbn [lift]. by run.
Qed.

(** X20.  [close] starts by creating the file when the merged options ask
    for it: on a log whose file is missing and whose stream is not
    online, it creates the file and returns the instance. *)
Lemma part000_close_creates (options : obj) (st : Part000.state) (p : string) :
  Part000.file_ st = VString p →
  existsSync (Part000.world st) p = false →
  is_dir (Part000.world st) (dirname p) = true →
  result Part000.online st = Return false →
  truthy (get (Part000.override_of st options) "automaticCreate") = true →
  Part000.close options st
  = (Return Part000.This,
     Part000.set_emitted (Part000.emitted st ++ ["create"])
       (Part000.set_world
          (with_files (Part000.world st) (<[ p := "" ]> (files (Part000.world st))))
          st)).
Proof.
  intros Hfile Hex Hdir Hon Hflag. unfold result in Hon.
  rewrite part000_online_run in Hon. cbn in Hon. injection Hon as Hon.
  unfold Part000.override_of in Hflag.
  unfold Part000.close, Part000.options. run. rewrite Hflag. run.
  erewrite bind_return by (by apply part000_create_absent).
  run. erewrite bind_return; [| rewrite part000_online_run; cbn; by rewrite Hon].
  reflexivity.
Qed.

Lemma part000_open_absent (options : obj) (st : Part000.state) (p : string) :
  Part000.file_ st = VString p →
  existsSync (Part000.world st) p = false →
  is_dir (Part000.world st) (dirname p) = true →
  result Part000.online st = Return false →
  truthy (get options "automaticCreate") = true →
  Part000.open options st
  = (Return Part000.This,
     {| Part000.file_ := Part000.file_ st;
        Part000.formatter := Part000.formatter st;
        Part000.logger := Part000.logger st;
        Part000.options_ := Part000.options_ st;
        Part000.stream_ := Some {| path := p; destroyed := false |};
        Part000.world :=
          with_files (Part000.world st) (<[ p := "" ]> (files (Part000.world st)));
        Part000.emitted := Part000.emitted st ++ ["create"; "beforeOpen"] |}).
Proof.
  intros Hfile Hex Hdir Hon Hflag. unfold result in Hon.
  rewrite part000_online_run in Hon. cbn in Hon. injection Hon as Hon.
  unfold Part000.open, Part000.options. run.
  rewrite (bind_return _ _ st st false);
    [| rewrite part000_exists_run, Hfile; by rewrite Hex].
  cbn [negb]. rewrite Hflag. run.
  erewrite bind_return by (by apply part000_create_absent).
  run. erewrite bind_return; [| rewrite part000_online_run; cbn; by rewrite Hon].
  unfold Part000.emit, Part000.file, Part000.as_path. run.
  cbn [Part000.file_ Part000.set_emitted Part000.set_world]. rewrite Hfile. run.
  cbn [Part000.world Part000.set_emitted Part000.set_world].
  unfold createWriteStream, open_w. rewrite existsSync_insert_file.
  run. unfold pure. cbn. rewrite insert_insert_eq, <- app_assoc.
  unfold Part000.set_stream_, Part000.set_world, Part000.set_emitted, with_files.
  cbn. by rewrite Hfile.
Qed.

(** X21.  When [create] returns, it returns the instance, the file
    exists, and the path, the options and the stream are as they
    were. *)
Lemma part000_create_then (options : obj) (st : Part000.state) (r : Part000.returned) :
  result (Part000.create options) st = Return r →
  let st' := final (Part000.create options) st in
  r = Part000.This
  ∧ result Part000.exists_ st' = Return true
  ∧ Part000.stream_ st' = Part000.stream_ st
  ∧ Part000.options_ st' = Part000.options_ st
  ∧ Part000.file_ st' = Part000.file_ st.
Proof.
  unfold result, final. intros Hrun.
  destruct (Part000.create options st) as [r' st'] eqn:Hcre. cbn in Hrun. subst r'.
  cbn [snd].
  destruct st as [f fm lg o s w em].
  unfold_part000 Hcre.
  repeat (case_match; simplify_eq); same_state;
    rewrite part000_exists_run;
    cbn [Part000.file_ Part000.world Part000.stream_ Part000.options_ fst snd] in *;
    simplify_eq; repeat split; try done; f_equal; try done.
  all: match goal with
       | H : openSync _ _ = inl _ |- _ => apply open_w_files in H as [Hfiles _]
       end.
  all: unfold existsSync, is_file; rewrite Hfiles, lookup_insert_eq;
    by rewrite bool_decide_eq_true_2.
Qed.

(** X22.  When [delete] returns, it returns the instance, no file is
    left at the log's path, every other file is as it was, and so are
    the directories. *)
Lemma part000_delete_then (options : obj) (st : Part000.state) (r : Part000.returned) :
  result (Part000.delete options) st = Return r →
  let st' := final (Part000.delete options) st in
  r = Part000.This
  ∧ (∀ p, Part000.file_ st = VString p → files (Part000.world st') !! p = None)
  ∧ dirs (Part000.world st') = dirs (Part000.world st)
  ∧ (∀ q, Part000.file_ st ≠ VString q →
          files (Part000.world st') !! q = files (Part000.world st) !! q).
Proof.
  unfold result, final. intros Hrun.
  destruct (Part000.delete options st) as [r' st'] eqn:Hdel. cbn in Hrun. subst r'.
  cbn [snd].
  destruct st as [f fm lg o s w em].
  unfold_part000 Hdel. unfold unlinkSync, openSync in Hdel.
  repeat (case_match; simplify_eq); same_state;
    cbn [Part000.file_ Part000.world Part000.stream_ Part000.options_ fst snd
         files dirs with_files] in *;
    simplify_eq; repeat split; try done; try congruence.
  all: try (intros p [= <-]).
  all: try (intros q Hq; rewrite lookup_delete_ne; [done | congruence]).
  all: try by rewrite lookup_delete_eq.
  all: match goal with
       | H : negb (existsSync _ _) = true |- _ =>
           apply negb_true_iff, orb_false_iff in H as [H _];
           unfold is_file in H; apply bool_decide_eq_false in H;
           by apply eq_None_not_Some
       end.
Qed.

End Part000More.

Lemma part000_options_keys_witness :
  dom (Part000.options_
         (Eff.final (Part000.set_options (Part000.Val (JS.VArray 0%nat)))
            (Scenario.part000_log {[ "recursive" := JS.VBoolean false ]} Scenario.disk)))
  = {[ "automaticClose"; "automaticCreate"; "automaticOpen";
       "formatter"; "logger"; "recursive" ]}.
Proof.
  apply (part000_options_keys (Part000.Val (JS.VArray 0%nat))).
  vm_compute. reflexivity.
Defined.

Lemma part000_set_options_again_witness :
  let options : JS.obj := {[ "automaticClose" := JS.VBoolean false;
                             "recursive" := JS.VBool false;
                             "verbose" := JS.VBool true ]} in
  let st1 := Eff.final (Part000.set_options (Part000.Obj options))
               (Scenario.part000_log ∅ Scenario.disk) in
  Part000.set_options (Part000.Obj (Part000.options_ st1)) st1 = (Eff.Return (), st1).
Proof.
  intros options st1.
  apply (part000_set_options_again options (Scenario.part000_log ∅ Scenario.disk)).
  vm_compute. reflexivity.
Defined.

Lemma part000_open_missing_witness :
  let st := Scenario.part000_log {[ "automaticCreate" := JS.VBoolean true ]}
              Scenario.bare in
  Part000.open ∅ st
  = (Eff.Throw (JS.Error "Cannot open the write stream if the log file does not exist"),
     st).
Proof.
  intros st. apply (part000_open_missing ∅ st); vm_compute; reflexivity.
Defined.

Lemma part000_close_online_witness :
  let st := Scenario.part000_log_open ∅ Scenario.disk in
  let ws := {| Node.path := "/srv/logs/latest.log"; Node.destroyed := false |} in
  Part000.close ∅ st
  = (Eff.Return Part000.Undefined,
     Part000.set_stream_ (Some (Node.destroy ws))
       (Part000.set_emitted (Part000.emitted st ++ ["beforeClose"]) st)).
Proof.
  intros st ws. apply (part000_close_online ∅ st ws); vm_compute; reflexivity.
Defined.

Lemma part000_close_creates_witness :
  let st := Scenario.part000_log ∅ (Node.with_files Scenario.disk ∅) in
  Part000.close ∅ st
  = (Eff.Return Part000.This,
     Part000.set_emitted (Part000.emitted st ++ ["create"])
       (Part000.set_world
          (Node.with_files (Part000.world st)
             (<[ "/srv/logs/latest.log" := "" ]> (Node.files (Part000.world st))))
          st)).
Proof.
  intros st. apply (part000_close_creates ∅ st "/srv/logs/latest.log");
    vm_compute; reflexivity.
Defined.

Lemma part000_create_then_witness :
  let st := Scenario.part000_log ∅ Scenario.bare in
  let st' := Eff.final (Part000.create ∅) st in
  Part000.This = Part000.This
  ∧ Eff.result Part000.exists_ st' = Eff.Return true
  ∧ Part000.stream_ st' = Part000.stream_ st
  ∧ Part000.options_ st' = Part000.options_ st
  ∧ Part000.file_ st' = Part000.file_ st.
Proof.
  intros st. apply (part000_create_then ∅ st Part000.This). vm_compute. reflexivity.
Defined.

Lemma part000_delete_then_witness :
  let st := Scenario.part000_log_open ∅ Scenario.disk in
  let st' := Eff.final (Part000.delete ∅) st in
  Part000.This = Part000.This
  ∧ (∀ p, Part000.file_ st = JS.VString p → Node.files (Part000.world st') !! p = None)
  ∧ Node.dirs (Part000.world st') = Node.dirs (Part000.world st)
  ∧ (∀ q, Part000.file_ st ≠ JS.VString q →
          Node.files (Part000.world st') !! q = Node.files (Part000.world st) !! q).
Proof.
  intros st. apply (part000_delete_then ∅ st Part000.This). vm_compute. reflexivity.
Defined.

(** ** [src/unnamed/part_000]: the default logger *)
Section LoggerFacts.
Import JS Node Eff Style.
Local Open Scope eff_scope.

Variable now : Z.
Variable defaultDateTimeFormatter : Z → string.
Variable call : fn → Part000Formatter.options → value.

Abbreviation defaultLogger :=
  (Part000Logger.defaultLogger now defaultDateTimeFormatter call).
Abbreviation styled_entry :=
  (Part000Formatter.defaultFormatter now defaultDateTimeFormatter true).

Lemma on_this_run {A} (m : Part000.M A) (st : Part000Logger.state)
    (r : outcome A) (l : Part000.state) :
  m (Part000Logger.this st) = (r, l) →
  Part000Logger.on_this m st
  = (r, {| Part000Logger.this := l; Part000Logger.stdout := Part000Logger.stdout st |}).
Proof. intros H. unfold Part000Logger.on_this. by rewrite H. Qed.

Lemma on_this_online (st : Part000Logger.state) :
  Part000Logger.on_this Part000.online st
  = (Return (match Part000.stream_ (Part000Logger.this st) with
             | Some ws => negb (destroyed ws)
             | None => false
             end), st).
Proof. by destruct st. Qed.

(** With the four stylings empty the formatter returns the fields and
    separators alone. *)
Lemma raw_entry (fo : Part000Formatter.options) :
  styled_entry (Part000Logger.with_styling fo (Part000Formatter.Array []))
  = inl (join (Part000Formatter.override_separator fo)
           [Part000Formatter.dateTime_field now defaultDateTimeFormatter fo;
            Part000Formatter.title_field fo;
            Part000Formatter.override_message fo]
         +:+ Part000Formatter.override_end fo).
Proof.
  unfold Part000Formatter.defaultFormatter. cbn [negb]. f_equal.
  unfold Part000Formatter.styledSeparator, Part000Formatter.styledDateTime,
    Part000Formatter.styledTitle, Part000Formatter.styledMessage,
    Part000Formatter.styled.
  cbn [Part000Formatter.override_separatorStyling Part000Formatter.override_dateTimeStyling
       Part000Formatter.override_titleStyling Part000Formatter.override_messageStyling
       Part000Logger.with_styling Part000Formatter.separatorStyling
       Part000Formatter.dateTimeStyling Part000Formatter.titleStyling
       Part000Formatter.messageStyling default open_sequences id].
  change (open_sequences []) with "".
  by rewrite !append_nil_l, !append_nil_r.
Qed.

Lemma styled_entry_run (fo : Part000Formatter.options) :
  styled_entry fo
  = inl (join (Part000Formatter.styledSeparator fo)
           [Part000Formatter.styledDateTime now defaultDateTimeFormatter fo;
            Part000Formatter.styledTitle fo;
            Part000Formatter.styledMessage fo]
         +:+ Part000Formatter.override_end fo).
Proof. reflexivity. Qed.

(** The logger from the point where the stream is online, either from
    the start ([st1] is [st]) or because the logger has opened it
    ([st1] is the state [open] leaves): one ["log"] event, then the
    terminal, then the file, each with its own choice of entry. *)
Lemma logger_run (fo : Part000Formatter.options) (lo : obj)
    (st st1 : Part000Logger.state) (ws : WriteStream) (plain styled : string) :
  let logOverride := Part000Logger.logOverride_of lo in
  let print := truthy (get logOverride "print") in
  let printRaw := truthy (get logOverride "printRaw") in
  let write := truthy (get logOverride "write") in
  let writeRaw := truthy (get logOverride "writeRaw") in
  (result (Part000Logger.on_this Part000.online) st = Return true ∧ st1 = st)
  ∨ (result (Part000Logger.on_this Part000.online) st = Return false
     ∧ truthy (get logOverride "automaticOpen") = true
     ∧ Part000.open logOverride (Part000Logger.this st)
       = (Return Part000.This, Part000Logger.this st1)
     ∧ Part000Logger.stdout st1 = Part000Logger.stdout st) →
  Part000.stream_ (Part000Logger.this st1) = Some ws →
  Part000.formatter (Part000Logger.this st1) = VFunction DefaultFormatter →
  styled_entry (Part000Logger.with_styling fo (Part000Formatter.Array [])) = inl plain →
  styled_entry fo = inl styled →
  defaultLogger true fo lo st
  = (Return (),
     {| Part000Logger.this :=
          {| Part000.file_ := Part000.file_ (Part000Logger.this st1);
             Part000.formatter := Part000.formatter (Part000Logger.this st1);
             Part000.logger := Part000.logger (Part000Logger.this st1);
             Part000.options_ := Part000.options_ (Part000Logger.this st1);
             Part000.stream_ := Part000.stream_ (Part000Logger.this st1);
             Part000.world :=
               if write
               then append (Part000.world (Part000Logger.this st1)) ws
                      (if writeRaw then plain else styled)
               else Part000.world (Part000Logger.this st1);
             Part000.emitted :=
               Part000.emitted (Part000Logger.this st1)
                 ++ ["log"] ++ (if print then ["logPrint"] else [])
                 ++ (if write then ["logWrite"] else []) |};
        Part000Logger.stdout :=
          if print
          then Part000Logger.stdout st1 +:+ (if printRaw then plain else styled)
          else Part000Logger.stdout st1 |}).
Proof.
  intros logOverride print printRaw write writeRaw Hstart Hws Hfmt Hplain Hstyled.
  unfold Part000Logger.defaultLogger. cbn [negb]. fold logOverride.
  assert (bind (Part000Logger.on_this Part000.online)
            (λ on, (if negb on
                    then if truthy (get logOverride "automaticOpen")
                         then Part000Logger.on_this (Part000.open logOverride);; pure ()
                         else throw (Error "Write stream is currently offline")
                    else pure ()) : Part000Logger.M unit) st
          = (Return (), st1)) as Hopen.
  { destruct Hstart as [[Hon ->] | (Hoff & Hauto & Hopen & Hout)].
    - unfold result in Hon. rewrite on_this_online in Hon. cbn in Hon.
      injection Hon as Hon.
      erewrite bind_return by (rewrite on_this_online, Hon; reflexivity).
      reflexivity.
    - unfold result in Hoff. rewrite on_this_online in Hoff. cbn in Hoff.
      injection Hoff as Hoff.
      erewrite bind_return by (rewrite on_this_online, Hoff; reflexivity).
      cbn [negb]. rewrite Hauto.
      erewrite bind_return by (by apply on_this_run).
      rewrite <- Hout. by destruct st1. }
  etransitivity; [symmetry; apply bind_bind |].
  rewrite (bind_return _ _ _ _ _ Hopen). clear Hopen Hstart.
  unfold Part000Logger.call_format, Part000Logger.format.
  rewrite Hplain, Hstyled.
  subst print printRaw write writeRaw.
  destruct st1 as [[f fm lg o s w em] out]. cbn in Hws, Hfmt. subst s fm.
  destruct (truthy (get logOverride "print")),
    (truthy (get logOverride "printRaw")),
    (truthy (get logOverride "write")),
    (truthy (get logOverride "writeRaw")).
  all: cbv beta iota zeta delta
         [bind pure gets modify throw Part000Logger.on_this Part000.emit
          Part000Logger.stdout_write Part000Logger.stream_writer
          Part000Logger.stream_write Part000.stream Part000.set_emitted
          Part000.set_world Part000Logger.this Part000Logger.stdout
          Part000.file_ Part000.formatter Part000.logger Part000.options_
          Part000.stream_ Part000.world Part000.emitted fst snd].
  all: by rewrite <- ?app_assoc, ?app_nil_r.
Qed.

Abbreviation plain_entry fo :=
  (join (Part000Formatter.override_separator fo)
     [Part000Formatter.dateTime_field now defaultDateTimeFormatter fo;
      Part000Formatter.title_field fo;
      Part000Formatter.override_message fo]
   +:+ Part000Formatter.override_end fo).

Abbreviation coloured_entry fo :=
  (join (Part000Formatter.styledSeparator fo)
     [Part000Formatter.styledDateTime now defaultDateTimeFormatter fo;
      Part000Formatter.styledTitle fo;
      Part000Formatter.styledMessage fo]
   +:+ Part000Formatter.override_end fo).

(** X24.  The default logger refuses to log through a stream that is not
    online when the call turns [automaticOpen] off: it throws before
    anything is emitted, printed or written. *)
Lemma logger_offline_refused (fo : Part000Formatter.options) (lo : obj)
    (st : Part000Logger.state) :
  result (Part000Logger.on_this Part000.online) st = Return false →
  truthy (get (Part000Logger.logOverride_of lo) "automaticOpen") = false →
  defaultLogger true fo lo st
  = (Throw (Error "Write stream is currently offline"), st).
Proof.
  intros Hoff Hauto. unfold result in Hoff. rewrite on_this_online in Hoff.
  cbn in Hoff. injection Hoff as Hoff.
  unfold Part000Logger.defaultLogger. cbn [negb].
  erewrite bind_return by (rewrite on_this_online, Hoff; reflexivity).
  cbn [negb]. rewrite Hauto. reflexivity.
Qed.


(** X26.  A call of the default logger with [write] turned off leaves
    the host and the stream as they are, and emits no ["logWrite"]. *)
Lemma logger_write_off (fo : Part000Formatter.options) (lo : obj)
    (st : Part000Logger.state) (ws : WriteStream) :
  let l := Part000Logger.this st in
  Part000.stream_ l = Some ws →
  destroyed ws = false →
  Part000.formatter l = VFunction DefaultFormatter →
  truthy (get (Part000Logger.logOverride_of lo) "write") = false →
  let st' := final (defaultLogger true fo lo) st in
  result (defaultLogger true fo lo) st = Return ()
  ∧ Part000.world (Part000Logger.this st') = Part000.world l
  ∧ Part000.stream_ (Part000Logger.this st') = Some ws
  ∧ ¬ "logWrite" ∈ drop (List.length (Part000.emitted l))
                      (Part000.emitted (Part000Logger.this st')).
Proof.
  intros l Hws Hlive Hfmt Hwrite st'. subst st'. unfold result, final.
  rewrite (logger_run fo lo st st ws (plain_entry fo) (coloured_entry fo));
    [| left; split; [| done] | done | done | apply raw_entry | apply styled_entry_run].
  2:{ unfold result. rewrite on_this_online. fold l. by rewrite Hws, Hlive. }
  rewrite Hwrite. cbn [fst snd Part000Logger.this Part000.world Part000.stream_
                       Part000.emitted].
  fold l. repeat split; [done |].
  rewrite drop_app_length.
  destruct (truthy (get (Part000Logger.logOverride_of lo) "print")); cbn;
    intros H; repeat (apply elem_of_cons in H as [H|H]; [discriminate H |]);
    by apply elem_of_nil in H.
Qed.

(** X27.  Logging through an instance whose stream is not online opens the
    stream first, and opening empties the file: afterwards the file
    holds the new entry and nothing of what it held before. *)
Lemma logger_opens (fo : Part000Formatter.options) (lo : obj)
    (st : Part000Logger.state) (p c : string) :
  let logOverride := Part000Logger.logOverride_of lo in
  let l := Part000Logger.this st in
  Part000.file_ l = VString p →
  files (Part000.world l) !! p = Some c →
  result (Part000Logger.on_this Part000.online) st = Return false →
  Part000.formatter l = VFunction DefaultFormatter →
  truthy (get logOverride "automaticOpen") = true →
  truthy (get logOverride "write") = true →
  truthy (get logOverride "writeRaw") = true →
  let st' := final (defaultLogger true fo lo) st in
  result (defaultLogger true fo lo) st = Return ()
  ∧ files (Part000.world (Part000Logger.this st'))
    = <[ p := plain_entry fo ]> (files (Part000.world l))
  ∧ Part000.stream_ (Part000Logger.this st') = Some {| path := p; destroyed := false |}
  ∧ take 2 (drop (List.length (Part000.emitted l))
              (Part000.emitted (Part000Logger.this st')))
    = ["beforeOpen"; "log"].
Proof.
  intros logOverride l Hfile Hc Hoff Hfmt Hauto Hwrite HwriteRaw st'.
  subst st'. unfold result, final.
  pose proof Hoff as Hoff'. unfold result in Hoff'.
  rewrite on_this_online in Hoff'. cbn in Hoff'. injection Hoff' as Hoff'.
  assert (result Part000.online l = Return false) as Hoffl
    by (unfold result; rewrite part000_online_run; subst l; by rewrite Hoff').
  pose proof (part000_open_existing logOverride l p c Hfile Hc Hoffl) as Hopen.
  match type of Hopen with
  | _ = (_, ?l1) =>
      rewrite (logger_run fo lo st
                 {| Part000Logger.this := l1;
                    Part000Logger.stdout := Part000Logger.stdout st |}
                 {| path := p; destroyed := false |}
                 (plain_entry fo) (coloured_entry fo));
        [| right; repeat split; done | done | done
         | apply raw_entry | apply styled_entry_run]
  end.
  fold logOverride. rewrite Hwrite, HwriteRaw.
  cbn [fst snd Part000Logger.this Part000.world Part000.stream_ Part000.emitted].
  unfold append. cbn [destroyed path files with_files].
  rewrite lookup_insert_eq. cbn [files]. rewrite insert_insert_eq, append_nil_l.
  do 3 (split; [done |]).
  rewrite <- app_assoc, drop_app_length.
  by destruct (truthy (get logOverride "print")).
Qed.

(** X28.  The default logger creates a missing file by itself, whatever the
    instance's own options say: its defaults for [automaticOpen] and
    [automaticCreate] are handed to [open] as the options of the
    call. *)
Lemma logger_creates (fo : Part000Formatter.options) (lo : obj)
    (st : Part000Logger.state) (p : string) :
  let logOverride := Part000Logger.logOverride_of lo in
  let l := Part000Logger.this st in
  Part000.file_ l = VString p →
  existsSync (Part000.world l) p = false →
  is_dir (Part000.world l) (dirname p) = true →
  result (Part000Logger.on_this Part000.online) st = Return false →
  Part000.formatter l = VFunction DefaultFormatter →
  truthy (get logOverride "automaticOpen") = true →
  truthy (get logOverride "automaticCreate") = true →
  truthy (get logOverride "write") = true →
  truthy (get logOverride "writeRaw") = true →
  let st' := final (defaultLogger true fo lo) st in
  result (defaultLogger true fo lo) st = Return ()
  ∧ files (Part000.world (Part000Logger.this st'))
    = <[ p := plain_entry fo ]> (files (Part000.world l))
  ∧ Part000.stream_ (Part000Logger.this st') = Some {| path := p; destroyed := false |}
  ∧ take 3 (drop (List.length (Part000.emitted l))
              (Part000.emitted (Part000Logger.this st')))
    = ["create"; "beforeOpen"; "log"].
Proof.
  intros logOverride l Hfile Hex Hdir Hoff Hfmt Hauto Hcreate Hwrite HwriteRaw st'.
  subst st'. unfold result, final.
  pose proof Hoff as Hoff'. unfold result in Hoff'.
  rewrite on_this_online in Hoff'. cbn in Hoff'. injection Hoff' as Hoff'.
  assert (result Part000.online l = Return false) as Hoffl
    by (unfold result; rewrite part000_online_run; subst l; by rewrite Hoff').
  pose proof (part000_open_absent logOverride l p Hfile Hex Hdir Hoffl Hcreate) as Hopen.
  match type of Hopen with
  | _ = (_, ?l1) =>
      rewrite (logger_run fo lo st
                 {| Part000Logger.this := l1;
                    Part000Logger.stdout := Part000Logger.stdout st |}
                 {| path := p; destroyed := false |}
                 (plain_entry fo) (coloured_entry fo));
        [| right; repeat split; done | done | done
         | apply raw_entry | apply styled_entry_run]
  end.
  fold logOverride. rewrite Hwrite, HwriteRaw.
  cbn [fst snd Part000Logger.this Part000.world Part000.stream_ Part000.emitted].
  unfold append. cbn [destroyed path files with_files].
  rewrite lookup_insert_eq. cbn [files]. rewrite insert_insert_eq, append_nil_l.
  do 3 (split; [done |]).
  rewrite <- app_assoc, drop_app_length.
  by destruct (truthy (get logOverride "print")).
Qed.

End LoggerFacts.

(** ** [src/unnamed/part_000]: the accessors and the constructor *)
Section AccessorFacts.
Import JS Node Eff.

Variable bind_this : fn → fn.

(** X29.  [set log] files the bound logger under the key [formatter] of the
    stored options.  So once a logger has been assigned, handing the
    options back to the [options] setter turns that logger into the
    formatter, and puts back the logger the options were built
    with. *)
Lemma set_log_reassigned (g l0 : fn) (st : Part000Logger.state) (current : obj) :
  get (Part000.options_ (Part000Logger.this st)) "logger" = VFunction l0 →
  let st1 := final (Part000Logger.set_log bind_this (VFunction g)) st in
  result (Part000Logger.on_this Part000.options) st1 = Return current →
  let st2 := final (Part000Logger.on_this (Part000.set_options (Part000.Obj current))) st1 in
  Part000.logger (Part000Logger.this st1) = VFunction (bind_this g)
  ∧ Part000.formatter (Part000Logger.this st2) = VFunction (bind_this g)
  ∧ Part000.logger (Part000Logger.this st2) = VFunction l0.
Proof.
  intros Hlogger st1 Hcur st2. subst st2 st1.
  destruct st as [[f fm lg o s w em] out]. cbn in Hlogger.
  unfold result, final in *. cbn in Hcur. injection Hcur as <-.
  cbn -[Part000.parse_options get]. split; [done |].
  rewrite (right_id_L ∅ (∪)).
  rewrite (parse_options_row _ "formatter" Function (VFunction DefaultFormatter))
    by (unfold Part000.defaultOptions; set_solver).
  rewrite (parse_options_row _ "logger" Function (VFunction DefaultLogger))
    by (unfold Part000.defaultOptions; set_solver).
  assert (o !! "logger" = Some (VFunction l0)) as Hl.
  { unfold get in Hlogger. by destruct (o !! "logger") as [v|]; simplify_eq/=. }
  destruct (has_lookup_Some (<[ "formatter" := VFunction (bind_this g) ]> o)
              "formatter" (VFunction (bind_this g))) as [-> ->];
    [by rewrite lookup_insert_eq |].
  destruct (has_lookup_Some (<[ "formatter" := VFunction (bind_this g) ]> o)
              "logger" (VFunction l0)) as [-> ->];
    [by rewrite lookup_insert_ne |].
  done.
Qed.

(** X30.  A formatter assigned through [format] is kept when the options
    are handed back to the [options] setter. *)
Lemma set_format_reassigned (g : fn) (st : Part000Logger.state) (current : obj) :
  let st1 := final (Part000Logger.set_format bind_this (VFunction g)) st in
  result (Part000Logger.on_this Part000.options) st1 = Return current →
  let st2 := final (Part000Logger.on_this (Part000.set_options (Part000.Obj current))) st1 in
  result (Part000Logger.format) st1 = Return (VFunction (bind_this g))
  ∧ result (Part000Logger.format) st2 = Return (VFunction (bind_this g)).
Proof.
  intros st1 Hcur st2. subst st2 st1.
  destruct st as [[f fm lg o s w em] out].
  unfold result, final in *. cbn in Hcur. injection Hcur as <-.
  cbn -[Part000.parse_options get]. split; [done |]. f_equal.
  rewrite (right_id_L ∅ (∪)).
  rewrite (parse_options_row _ "formatter" Function (VFunction DefaultFormatter))
    by (unfold Part000.defaultOptions; set_solver).
  destruct (has_lookup_Some (<[ "formatter" := VFunction (bind_this g) ]> o)
              "formatter" (VFunction (bind_this g))) as [-> ->];
    [by rewrite lookup_insert_eq |].
  done.
Qed.

(** X16.  [new Log(file, options)] with a string path: the options setter
    rejects a value that is falsy or whose [typeof] is not ["object"],
    except [undefined], which the default parameter replaces by [{}]
    before the setter sees it. *)
Lemma new_Log_invalid_options (f : string) (v : value) (h : host) :
  fst (Part000Logger.new_Log (VString f) (Part000.Val v) h)
  = Throw (TypeError "Invalid options")
  ↔ v ≠ VUndefined ∧ (truthy v = false ∨ typeof v ≠ "object").
Proof.
  unfold Part000Logger.new_Log, Part000.constructor, Part000.set_file.
  destruct v; cbn -[Part000.parse_options]; rewrite ?orb_true_r;
    cbn -[Part000.parse_options].
  all: split; [intros H | intros [H1 H2]]; try done.
  all: try (split; [done | by right]).
  all: try (split; [done | by left]).
  all: by destruct H2.
Qed.

End AccessorFacts.

Lemma logger_offline_refused_witness :
  let st := {| Part000Logger.this := Scenario.part000_log ∅ Scenario.disk;
               Part000Logger.stdout := "" |} in
  Part000Logger.defaultLogger 0 (λ _, "11/2/26, 9:00:00 AM") (λ _ _, JS.VUndefined) true
    Part000Formatter.empty {[ "automaticOpen" := JS.VBool false ]} st
  = (Eff.Throw (JS.Error "Write stream is currently offline"), st).
Proof.
  intros st. apply logger_offline_refused; vm_compute; reflexivity.
Defined.


Lemma logger_write_off_witness :
  let st := {| Part000Logger.this := Scenario.part000_log_open ∅ Scenario.disk;
               Part000Logger.stdout := "" |} in
  let logger := Part000Logger.defaultLogger 0 (λ _, "11/2/26, 9:00:00 AM")
                  (λ _ _, JS.VUndefined) true Part000Formatter.empty
                  {[ "write" := JS.VBool false ]} in
  Eff.result logger st = Eff.Return ()
  ∧ Part000.world (Part000Logger.this (Eff.final logger st)) = Scenario.disk
  ∧ Part000.stream_ (Part000Logger.this (Eff.final logger st))
    = Some {| Node.path := "/srv/logs/latest.log"; Node.destroyed := false |}
  ∧ ¬ "logWrite" ∈ drop (List.length (Part000.emitted (Part000Logger.this st)))
                      (Part000.emitted (Part000Logger.this (Eff.final logger st))).
Proof.
  intros st logger.
  apply (logger_write_off 0 (λ _, "11/2/26, 9:00:00 AM") (λ _ _, JS.VUndefined)
           Part000Formatter.empty {[ "write" := JS.VBool false ]} st
           {| Node.path := "/srv/logs/latest.log"; Node.destroyed := false |});
    vm_compute; reflexivity.
Defined.

Lemma logger_opens_witness :
  let st := {| Part000Logger.this := Scenario.part000_log ∅ Scenario.disk;
               Part000Logger.stdout := "" |} in
  let fo := {| Part000Formatter.dateTime := None;
               Part000Formatter.dateTimeAlignment := None;
               Part000Formatter.dateTimeFormatter := None;
               Part000Formatter.dateTimeMinimumWidth := Some 0%Z;
               Part000Formatter.dateTimePadding := None;
               Part000Formatter.dateTimeStyling := None;
               Part000Formatter.end_ := Some "!";
               Part000Formatter.message := Some "up";
               Part000Formatter.messageStyling := None;
               Part000Formatter.separator := None;
               Part000Formatter.separatorStyling := None;
               Part000Formatter.title := Some "BOOT";
               Part000Formatter.titleAlignment := None;
               Part000Formatter.titleMinimumWidth := Some 0%Z;
               Part000Formatter.titlePadding := None;
               Part000Formatter.titleStyling := None |} in
  let st' := Eff.final (Part000Logger.defaultLogger 0 (λ _, "11/2/26, 9:00:00 AM")
                          (λ _ _, JS.VUndefined) true fo ∅) st in
  Node.files (Part000.world (Part000Logger.this st')) !! "/srv/logs/latest.log"
  = Some "11/2/26, 9:00:00 AM | BOOT | up!"
  ∧ Part000.emitted (Part000Logger.this st')
    = ["beforeOpen"; "log"; "logPrint"; "logWrite"].
Proof.
  intros st fo.
  destruct (logger_opens 0 (λ _, "11/2/26, 9:00:00 AM") (λ _ _, JS.VUndefined)
              fo ∅ st "/srv/logs/latest.log" "started")
    as (_ & Hfiles & _ & _); try (vm_compute; reflexivity).
  split; [| vm_compute; reflexivity].
  rewrite Hfiles. vm_compute. reflexivity.
Defined.

Lemma logger_creates_witness :
  let st := {| Part000Logger.this :=
                 Scenario.part000_log ∅ (Node.with_files Scenario.disk ∅);
               Part000Logger.stdout := "" |} in
  let logger := Part000Logger.defaultLogger 0 (λ _, "11/2/26, 9:00:00 AM")
                  (λ _ _, JS.VUndefined) true Part000Formatter.empty
                  {[ "print" := JS.VBool false ]} in
  Eff.result logger st = Eff.Return ()
  ∧ is_Some (Node.files (Part000.world (Part000Logger.this (Eff.final logger st)))
               !! "/srv/logs/latest.log")
  ∧ Part000.emitted (Part000Logger.this (Eff.final logger st))
    = ["create"; "beforeOpen"; "log"; "logWrite"].
Proof.
  intros st logger.
  destruct (logger_creates 0 (λ _, "11/2/26, 9:00:00 AM") (λ _ _, JS.VUndefined)
              Part000Formatter.empty {[ "print" := JS.VBool false ]} st
              "/srv/logs/latest.log")
    as (Hret & Hfiles & _ & _); try (vm_compute; reflexivity).
  split; [exact Hret |]. split; [| vm_compute; reflexivity].
  subst logger. rewrite Hfiles, lookup_insert_eq. by eexists.
Defined.

Lemma set_log_reassigned_witness :
  let st := {| Part000Logger.this := Scenario.part000_log ∅ Scenario.disk;
               Part000Logger.stdout := "" |} in
  let st1 := Eff.final (Part000Logger.set_log id (JS.VFunction (JS.Closure 7))) st in
  let st2 := Eff.final
               (Part000Logger.on_this
                  (Part000.set_options
                     (Part000.Obj (Part000.options_ (Part000Logger.this st1))))) st1 in
  Part000.logger (Part000Logger.this st1) = JS.VFunction (JS.Closure 7)
  ∧ Part000.formatter (Part000Logger.this st2) = JS.VFunction (JS.Closure 7)
  ∧ Part000.logger (Part000Logger.this st2) = JS.VFunction JS.DefaultLogger.
Proof.
  intros st.
  apply (set_log_reassigned id (JS.Closure 7) JS.DefaultLogger st);
    vm_compute; reflexivity.
Defined.

Lemma set_format_reassigned_witness :
  let st := {| Part000Logger.this := Scenario.part000_log ∅ Scenario.disk;
               Part000Logger.stdout := "" |} in
  let st1 := Eff.final (Part000Logger.set_format id (JS.VFunction (JS.Closure 7))) st in
  let st2 := Eff.final
               (Part000Logger.on_this
                  (Part000.set_options
                     (Part000.Obj (Part000.options_ (Part000Logger.this st1))))) st1 in
  Eff.result Part000Logger.format st1 = Eff.Return (JS.VFunction (JS.Closure 7))
  ∧ Eff.result Part000Logger.format st2 = Eff.Return (JS.VFunction (JS.Closure 7)).
Proof.
  intros st.
  apply (set_format_reassigned id (JS.Closure 7) st); vm_compute; reflexivity.
Defined.


(** ** [open] then [close] of [src/classes/Log.js] within one turn of
    the event loop *)
Section DeferredMore.
Import JS Node Eff.

(** X11.  [open] followed by [close] before the event loop has turned
    loses the content of the file, whatever [truncate] is: [close]
    destroys the stream, which discards the text that waits to be
    written back, while the opening that [open] has queued still
    empties the file.  Once the loop has turned, the stream is closed
    and the file is empty; nothing else has changed on the host. *)
Lemma classes_open_close_empties (options : obj) (st : Deferred.state) (f c : string) :
  get (Classes.this_options (Deferred.this st)) "file" = VString f →
  let p := resolve (cwd (Classes.world (Deferred.this st))) [f] in
  files (Classes.world (Deferred.this st)) !! p = Some c →
  Classes.this_stream (Deferred.this st) = None →
  Deferred.requests st = [] →
  let st1 := final (Deferred.open options) st in
  let st2 := final Deferred.close st1 in
  let st3 := final Deferred.turn st2 in
  result (Deferred.open options) st = Return Classes.This
  ∧ result Deferred.close st1 = Return Classes.This
  ∧ result Deferred.turn st2 = Return ()
  ∧ Classes.this_stream (Deferred.this st3) = None
  ∧ Deferred.requests st3 = []
  ∧ Classes.world (Deferred.this st3)
    = with_files (Classes.world (Deferred.this st))
        (<[ p := "" ]> (files (Classes.world (Deferred.this st)))).
Proof.
  intros Hfile p Hc Hws Hrs. destruct st as [l rs].
  cbn in Hfile, Hc, Hws, Hrs. subst rs p.
  pose proof (deferred_open_existing options (Deferred.Build_state l []) f c
                Hfile Hc Hws) as Hopen.
  cbv zeta in Hopen. cbn [Deferred.this Deferred.requests app] in Hopen.
  cbv zeta. unfold result, final. rewrite Hopen. cbn [fst snd].
  set (ws := Build_WriteStream _ false).
  erewrite (deferred_close_run _ ws) by reflexivity.
  cbn [fst snd Deferred.this Deferred.requests List.filter Deferred.kept
       Classes.this_options Classes.this_stream Classes.heap Classes.world
       Classes.emitted].
  rewrite deferred_turn_run.
  cbn [Deferred.this Deferred.requests Classes.world].
  rewrite (serve_opening _ _ c) by done.
  by repeat split.
Qed.

End DeferredMore.

Lemma classes_open_close_empties_witness :
  let st := {| Deferred.this := Scenario.classes_log ∅ Scenario.disk;
               Deferred.requests := [] |} in
  let st3 := Eff.final Deferred.turn
               (Eff.final Deferred.close (Eff.final (Deferred.open ∅) st)) in
  Eff.result (Deferred.on_this Classes.content) st = Eff.Return "started"
  ∧ JS.truthy (JS.get (Classes.open_parsedOptions (Deferred.this st) ∅) "truncate") = false
  ∧ Classes.this_stream (Deferred.this st3) = None
  ∧ Eff.result (Deferred.on_this Classes.content) st3 = Eff.Return "".
Proof.
  intros st.
  destruct (classes_open_close_empties ∅ st "logs/latest.log" "started")
    as (_ & _ & _ & Hws & _ & Hworld); [vm_compute; reflexivity .. |].
  split; [vm_compute; reflexivity |]. split; [vm_compute; reflexivity |].
  split; [exact Hws |].
  unfold Eff.result, Deferred.on_this. rewrite classes_content_run, Hworld.
  vm_compute. reflexivity.
Defined.
